(** * Game sitemap monitor: discovery, normalisation and the diff engine

    A shallow embedding of the sitemap monitor's core:
    - [Utils]: utils.ts ([getProtocol], [normalizeUrl], [hashUrl],
      [extractGameKeyword], [classifyUrl]);
    - [Scanner]: [discoverSitemap] of server/scanner.ts, which fetches with
      axios;
    - [Storage]: the key-value persistence the [api] object runs on
      ([loadSites], [saveSeen], [appendNewItems], ...);
    - [SiteScanner]: [fetchSitemapUrls] of the scanner the [api] object
      imports, which fetches with [fetch];
    - [Api]: [api.baseline] and [api.scan].

    Strings.  A JavaScript string is modelled by a [string] whose characters
    stand for the code units U+0000..U+00FF.  In that range [trim] removes
    the code units 9-13, 32 and 160, the only regex line terminators are
    10 and 13, and [toLowerCase] acts on A-Z and on U+00C0..U+00DE.

    Objects used as maps ([seenData], [siteSeen]) are finite maps; their
    keys are site ids and 40-digit hashes, never names of
    [Object.prototype].

    Effects.  What the code reaches outside itself (network, XML parser, URL
    parser, clock, random ids, storage) is a [Platform]; a [Machine] holds
    the three persisted stores and the list of calls made.  An asynchronous
    function is a function from machines to a result and a machine, and a
    rejected promise is a [Throw]. *)

From Stdlib Require Import ZArith Ascii String List Bool Lia DecimalString.
From Stdlib Require Import Sorted Permutation.
From stdpp Require Import base option list strings gmap fin_maps.

Local Open Scope Z_scope.
Local Open Scope nat_scope.

(** ** String primitives of the host language *)

Module Str.

(** [String.prototype.trim]: white space and line terminators below U+0100. *)
Definition isWhiteSpace (c : ascii) : bool :=
  match c with
  | "009" | "010" | "011" | "012" | "013" | " " | "160" => true
  | _ => false
  end%char.

Fixpoint trimStart (s : string) : string :=
  match s with
  | "" => ""
  | String c s' => if isWhiteSpace c then trimStart s' else s
  end.

Fixpoint trimEnd (s : string) : string :=
  match s with
  | "" => ""
  | String c s' =>
      match trimEnd s' with
      | "" => if isWhiteSpace c then "" else String c ""
      | t => String c t
      end
  end.

Definition trim (s : string) : string := trimEnd (trimStart s).

(** [s.startsWith(p)]. *)
Fixpoint startsWith (p s : string) : bool :=
  match p, s with
  | "", _ => true
  | String a p', String b s' => if Ascii.eqb a b then startsWith p' s' else false
  | String _ _, "" => false
  end.

(** [s.includes(p)]. *)
Fixpoint includes (p s : string) : bool :=
  startsWith p s ||
  match s with
  | "" => false
  | String _ s' => includes p s'
  end.

(** [s.endsWith(String c "")]. *)
Fixpoint endsWithChar (c : ascii) (s : string) : bool :=
  match s with
  | "" => false
  | String a "" => Ascii.eqb a c
  | String _ s' => endsWithChar c s'
  end.

(** [s.slice(0, -1)]. *)
Fixpoint dropLast (s : string) : string :=
  match s with
  | "" => ""
  | String _ "" => ""
  | String a s' => String a (dropLast s')
  end.

(** [s.indexOf(String c "")], [None] standing for [-1]. *)
Fixpoint indexOf (c : ascii) (s : string) : option nat :=
  match s with
  | "" => None
  | String a s' => if Ascii.eqb a c then Some 0 else S <$> indexOf c s'
  end.

(** [s.substring(0, n)]. *)
Fixpoint take (n : nat) (s : string) : string :=
  match n, s with
  | S n', String a s' => String a (take n' s')
  | _, _ => ""
  end.

Definition isDigit (c : ascii) : bool :=
  match c with
  | "0" | "1" | "2" | "3" | "4" | "5" | "6" | "7" | "8" | "9" => true
  | _ => false
  end%char.

(** The longest prefix of digits and what follows it. *)
Fixpoint spanDigits (s : string) : string * string :=
  match s with
  | "" => ("", "")
  | String c s' =>
      if isDigit c then let '(d, r) := spanDigits s' in (String c d, r)
      else ("", s)
  end.

Fixpoint allDigits (s : string) : bool :=
  match s with
  | "" => true
  | String c s' => isDigit c && allDigits s'
  end.

(** [toLowerCase] on one code unit below U+0100. *)
Definition lowerChar (c : ascii) : ascii :=
  let n := nat_of_ascii c in
  if (65 <=? n) && (n <=? 90) then ascii_of_nat (n + 32)
  else if (192 <=? n) && (n <=? 222) && negb (n =? 215) then ascii_of_nat (n + 32)
  else c.

Fixpoint toLowerCase (s : string) : string :=
  match s with
  | "" => ""
  | String c s' => String (lowerChar c) (toLowerCase s')
  end.

(** [s.split(String c "")]: the pieces between separators, at least one. *)
Fixpoint splitOn (sep : ascii) (s : string) : list string :=
  match s with
  | "" => [""]
  | String c s' =>
      if Ascii.eqb c sep then "" :: splitOn sep s'
      else match splitOn sep s' with
           | l :: ls => String c l :: ls
           | [] => [String c ""]
           end
  end.

(** Line terminators of the regex [.] below U+0100. *)
Definition isLineTerminator (c : ascii) : bool :=
  match c with
  | "010" | "013" => true
  | _ => false
  end%char.

Fixpoint takeWhile (f : ascii -> bool) (s : string) : string :=
  match s with
  | "" => ""
  | String c s' => if f c then String c (takeWhile f s') else ""
  end.

(** [s.split(/:(.+)/)[1]]: the capture of the leftmost match, that is the
    run of non-terminators after the first colon that has one; [None]
    stands for [undefined] (no match, the array has one element). *)
Fixpoint afterFirstColon (s : string) : option string :=
  match s with
  | "" => None
  | String c s' =>
      if Ascii.eqb c ":"%char then
        match s' with
        | "" => None
        | String d _ =>
            if isLineTerminator d then afterFirstColon s'
            else Some (takeWhile (fun x => negb (isLineTerminator x)) s')
        end
      else afterFirstColon s'
  end.

(** [s.replace(/[-_]/g, ' ')]. *)
Fixpoint dashesToSpaces (s : string) : string :=
  match s with
  | "" => ""
  | String c s' =>
      String (if Ascii.eqb c "-"%char || Ascii.eqb c "_"%char then " "%char else c)
             (dashesToSpaces s')
  end.

(** [s.split("\n")]: the pieces between line feeds, always at least one. *)
Definition splitLines (s : string) : list string := splitOn "010"%char s.

(** [s.substring(n)]. *)
Fixpoint drop (n : nat) (s : string) : string :=
  match n, s with
  | S n', String _ s' => drop n' s'
  | _, _ => s
  end.

End Str.

(** ** SHA-1 over UTF-8, as [crypto.subtle.digest('SHA-1', ...)] computes it *)

Module Sha1.
Local Open Scope Z_scope.

Definition w32 (x : Z) : Z := Z.land x 4294967295.

Definition rotl (n x : Z) : Z :=
  w32 (Z.lor (Z.shiftl x n) (Z.shiftr x (32 - n))).

Definition add32 (x y : Z) : Z := w32 (x + y).

(** [TextEncoder.encode] on code units below U+0100. *)
Definition utf8Char (c : ascii) : list Z :=
  let n := Z.of_nat (nat_of_ascii c) in
  if n <? 128 then [n]
  else [Z.lor 192 (Z.shiftr n 6); Z.lor 128 (Z.land n 63)].

Fixpoint utf8 (s : string) : list Z :=
  match s with
  | EmptyString => []
  | String c s' => utf8Char c ++ utf8 s'
  end.

(** Big-endian bytes of [x], [n] of them. *)
Fixpoint bytesBE (n : nat) (x : Z) : list Z :=
  match n with
  | O => []
  | S n' => Z.land (Z.shiftr x (8 * Z.of_nat n')) 255 :: bytesBE n' x
  end.

Definition pad (msg : list Z) : list Z :=
  let len := Z.of_nat (length msg) in
  let zeros := Z.to_nat ((55 - len) mod 64) in
  msg ++ 128 :: repeat 0 zeros ++ bytesBE 8 (8 * len).

Fixpoint wordsBE (fuel : nat) (bs : list Z) : list Z :=
  match fuel, bs with
  | S f, b0 :: b1 :: b2 :: b3 :: rest =>
      (b0 * 16777216 + b1 * 65536 + b2 * 256 + b3) :: wordsBE f rest
  | _, _ => []
  end.

(** The message schedule, newest word first. *)
Fixpoint schedule (n : nat) (wsRev : list Z) : list Z :=
  match n with
  | O => wsRev
  | S n' =>
      let w := rotl 1 (Z.lxor (Z.lxor (nth 2 wsRev 0) (nth 7 wsRev 0))
                              (Z.lxor (nth 13 wsRev 0) (nth 15 wsRev 0))) in
      schedule n' (w :: wsRev)
  end.

Definition State : Type := Z * Z * Z * Z * Z.

Definition round (t : nat) (st : State) (w : Z) : State :=
  let '(a, b, c, d, e) := st in
  let '(f, k) :=
    if (t <? 20)%nat then
      (Z.lor (Z.land b c) (Z.land (Z.lxor b 4294967295) d), 1518500249)
    else if (t <? 40)%nat then (Z.lxor (Z.lxor b c) d, 1859775393)
    else if (t <? 60)%nat then
      (Z.lor (Z.lor (Z.land b c) (Z.land b d)) (Z.land c d), 2400959708)
    else (Z.lxor (Z.lxor b c) d, 3395469782) in
  let temp := add32 (add32 (add32 (add32 (rotl 5 a) f) e) k) w in
  (temp, a, rotl 30 b, c, d).

Fixpoint rounds (t : nat) (st : State) (ws : list Z) : State :=
  match ws with
  | [] => st
  | w :: ws' => rounds (S t) (round t st w) ws'
  end.

Definition block (h : State) (ws16 : list Z) : State :=
  let ws := rev (schedule 64 (rev ws16)) in
  let '(h0, h1, h2, h3, h4) := h in
  let '(a, b, c, d, e) := rounds 0 h ws in
  (add32 h0 a, add32 h1 b, add32 h2 c, add32 h3 d, add32 h4 e).

Fixpoint blocks (fuel : nat) (h : State) (ws : list Z) : State :=
  match fuel with
  | O => h
  | S f =>
      match ws with
      | [] => h
      | _ => blocks f (block h (firstn 16 ws)) (skipn 16 ws)
      end
  end.

Definition initial : State :=
  (1732584193, 4023233417, 2562383102, 271733878, 3285377520).

Definition digest (msg : list Z) : list Z :=
  let bs := pad msg in
  let ws := wordsBE (length bs) bs in
  let '(h0, h1, h2, h3, h4) := blocks (length ws) initial ws in
  bytesBE 4 h0 ++ bytesBE 4 h1 ++ bytesBE 4 h2 ++ bytesBE 4 h3 ++ bytesBE 4 h4.

Definition hexDigit (n : Z) : ascii :=
  if n <? 10 then ascii_of_nat (Z.to_nat (48 + n))
  else ascii_of_nat (Z.to_nat (87 + n)).

(** [b.toString(16).padStart(2, '0')]. *)
Definition hexByte (b : Z) : string :=
  String (hexDigit (Z.shiftr b 4)) (String (hexDigit (Z.land b 15)) EmptyString).

Definition hex (bs : list Z) : string :=
  fold_right (fun b acc => hexByte b +:+ acc) EmptyString bs.

End Sha1.

(** ** Results of fallible calls, and the values of the XML parser *)

(** What a call that may throw (or a promise that may reject) delivers: a
    value, or the [message] of the error thrown. *)
Inductive Result (A : Type) : Type :=
| Ok (a : A)
| Throw (message : string).
Arguments Ok {A} a.
Arguments Throw {A} message.

Module Js.

(** The objects [XMLParser.parse] builds. *)
#[warnings="-register-all"] Inductive Val : Type :=
| Undefined
| Bool (b : bool)
| Num (n : Z)
| Str (s : string)
| Arr (xs : list Val)
| Obj (fields : list (string * Val)).

(** Truthiness, as [if (v)], [!v] and [filter(Boolean)] use it. *)
Definition truthy (v : Val) : bool :=
  match v with
  | Undefined => false
  | Bool b => b
  | Num n => negb (n =? 0)%Z
  | Str s => negb (String.eqb s "")
  | Arr _ | Obj _ => true
  end.

Fixpoint lookupField (name : string) (fields : list (string * Val)) : Val :=
  match fields with
  | [] => Undefined
  | (k, v) :: rest => if String.eqb k name then v else lookupField name rest
  end.

Definition typeErrorMessage : string := "Cannot read properties of undefined".

(** [v.name] for the names the scanner reads ([urlset], [sitemapindex],
    [url], [loc]), none of which is a built-in property. *)
Definition prop (name : string) (v : Val) : Result Val :=
  match v with
  | Undefined => Throw typeErrorMessage
  | Obj fields => Ok (lookupField name fields)
  | _ => Ok Undefined
  end.

End Js.

(** ** The platform: network, parser, URL reader, clock and storage faults *)

Inductive Key : Type := KEY_SITES | KEY_SEEN | KEY_NEW_ITEMS.

(** The calls that leave the process. *)
Inductive Event : Type :=
| EvGet (k : Key)
| EvSet (k : Key)
| EvFetch (url : string)
| EvTitle (url : string).

Record Platform : Type := {
  (** [axios.get(url, { timeout, validateStatus })] as its caller sees it: a
      rejection, or a response with its [status] and [data].  The first
      argument tells whether [validateStatus: () => true] was passed. *)
  axiosGet : bool -> Z -> string -> Result (Z * string);
  (** [fetch(url)] followed by [res.text()]: a rejection, or status and body. *)
  fetch : string -> Result (Z * string);
  (** [parser.parse(text)]. *)
  xmlParse : string -> Result Js.Val;
  (** [new URL(url).pathname]; [None] when the constructor throws. *)
  urlPathname : string -> option string;
  (** [utils.fetchPageTitle(url)], whose body is one try/catch that returns
      [undefined] on any failure. *)
  fetchPageTitle : string -> option string;
  (** The instant the n-th reading of the clock returns, in milliseconds. *)
  clock : nat -> Z;
  (** The n-th [uuid()]. *)
  randomId : nat -> string;
  (** [storageFault e n]: the storage call [e], made when [n] calls have
      already left the process, rejects with this message. *)
  storageFault : Event -> nat -> option string
}.

(** [n.toString()] inside a template literal. *)
Definition showZ (n : Z) : string := DecimalString.NilZero.string_of_int (Z.to_int n).

(** ** types.ts *)

Inductive SiteStatus : Type := unknown | ok | failed | unsupported.

Inductive ReviewStatus : Type := pending | confirmed | ignored | not_game.

Module UrlType.
Inductive t : Type := game | tag | category | home | unknown.

Definition eqb (a b : t) : bool :=
  match a, b with
  | game, game | tag, tag | category, category | home, home | unknown, unknown => true
  | _, _ => false
  end.
End UrlType.

Inductive Outcome : Type := success | failure.

Module ScanSummary.
Record t : Type := mk {
  outcome : Outcome;
  parsedCount : nat;
  newOrInsertedCount : nat;
  durationMs : Z;
  error : option string;
  sampleUrls : list string
}.
End ScanSummary.

(** Instants ([new Date().toISOString()]) are kept as the milliseconds they
    render. *)
Module Site.
Record t : Type := mk {
  id : string;
  domain : string;
  sitemapUrl : string;
  status : SiteStatus;
  errorMessage : string;
  baselineReady : bool;
  baselineAt : option Z;
  lastScanAt : option Z;
  seenCount : nat;
  lastNewFound : nat;
  lastResult : option ScanSummary.t;
  createdAt : Z
}.
End Site.

Module NewItem.
Record t : Type := mk {
  id : string;
  siteId : string;
  domain : string;
  url : string;
  keywordAuto : string;
  keywordFinal : string;
  reviewStatus : ReviewStatus;
  urlType : UrlType.t;
  title : option string;
  discoveredAt : Z;
  sourceSitemapUrl : string
}.
End NewItem.

(** ** utils.ts *)

Module Utils.
Import Str.

(** One [[0-9]{1,3}] group: the digit run is maximal because the pattern
    continues with a character that is not a digit. *)
Definition octet (s : string) : option string :=
  let '(d, r) := spanDigits s in
  if (1 <=? String.length d) && (String.length d <=? 3) then Some r else None.

Definition dottedOctet (s : string) : option string :=
  match octet s with
  | Some (String "."%char r) => Some r
  | _ => None
  end.

(** [/^(?:[0-9]{1,3}\.){3}[0-9]{1,3}(?::[0-9]+)?$/.test(domain)]. *)
Definition isBareIPv4 (domain : string) : bool :=
  match dottedOctet domain with
  | Some r1 =>
      match dottedOctet r1 with
      | Some r2 =>
          match dottedOctet r2 with
          | Some r3 =>
              match octet r3 with
              | Some "" => true
              | Some (String ":"%char port) =>
                  negb (String.eqb port "") && allDigits port
              | _ => false
              end
          | None => false
          end
      | None => false
      end
  | None => false
  end.

Definition isLocal (domain : string) : bool :=
  startsWith "localhost" domain
  || startsWith "127.0.0.1" domain
  || startsWith "0.0.0.0" domain
  || includes "localhost:" domain
  || isBareIPv4 domain.

Definition getProtocol (domain : string) : string :=
  if isLocal domain then "http://" else "https://".

(** [hashUrl]: lower-case hexadecimal SHA-1 of the UTF-8 bytes; the digest
    is taken to be available, so the promise never rejects. *)
Definition hashUrl (url : string) : string := Sha1.hex (Sha1.digest (Sha1.utf8 url)).

Definition normalizeUrl (url : string) : string :=
  let clean := trim url in
  let clean :=
    match indexOf "#" clean with
    | Some anchorIdx => take anchorIdx clean
    | None => clean
    end in
  if endsWithChar "/" clean then dropLast clean else clean.

(** [normalizeUrl] on a value that need not be a string: [url.trim()] throws
    a [TypeError] on anything else. *)
Definition normalizeUrlOf (rawUrl : Js.Val) : Result string :=
  match rawUrl with
  | Js.Str url => Ok (normalizeUrl url)
  | _ => Throw "url.trim is not a function"
  end.

Fixpoint lastOr (d : string) (l : list string) : string :=
  match l with
  | [] => d
  | x :: rest => lastOr x rest
  end.

Definition extractGameKeyword (p : Platform) (url : string) : string :=
  match urlPathname p url with
  | None => ""
  | Some pathname =>
      let pathParts :=
        filter (fun part => String.length part ≠ 0) (splitOn "/" pathname) in
      match pathParts with
      | [] => ""
      | _ => toLowerCase (trim (dashesToSpaces (lastOr "" pathParts)))
      end
  end.

Definition classifyUrl (p : Platform) (url : string) : UrlType.t :=
  match urlPathname p url with
  | None => UrlType.unknown
  | Some path =>
      if String.eqb path "/" || String.eqb path "" then UrlType.home
      else if startsWith "/c/" path || includes "/category/" path then UrlType.category
      else if startsWith "/t/" path || includes "/tag/" path then UrlType.tag
      else UrlType.game
  end.

(** [normalizeDomain]: [/^https?:\/\//] removes one leading scheme and
    [/\/$/] one trailing slash, after trimming and lower-casing. *)
Definition normalizeDomain (input : string) : string :=
  let domain := toLowerCase (trim input) in
  let domain :=
    if startsWith "https://" domain then drop 8 domain
    else if startsWith "http://" domain then drop 7 domain
    else domain in
  if endsWithChar "/" domain then dropLast domain else domain.

End Utils.

(** ** server/scanner.ts: locating the sitemap *)

Module Scanner.
Import Str.

Record Discovery : Type := {
  url : string;
  status : SiteStatus;
  error : option string
}.

(** What one line of robots.txt does to the loop: nothing, an assignment
    to [targetSitemapUrl] followed by [break], or a [TypeError]. *)
Inductive LineEffect : Type :=
| Skip
| Found (target : string)
| Raise.

Definition robotsLine (protocol domain line : string) : LineEffect :=
  if startsWith "sitemap:" (toLowerCase (trim line)) then
    match afterFirstColon line with
    | None => Raise
    | Some captured =>
        let foundUrl := trim captured in
        if String.eqb foundUrl "" then Skip
        else if startsWith "http://" (toLowerCase foundUrl)
                || startsWith "https://" (toLowerCase foundUrl)
             then Found foundUrl
             else
               let foundUrl :=
                 if startsWith "/" foundUrl then foundUrl else "/" +:+ foundUrl in
               Found (protocol +:+ domain +:+ foundUrl)
    end
  else Skip.

(** The [for (const line of lines)] loop inside the first try block; the
    catch leaves [targetSitemapUrl] as it is, which is still the default
    when a line throws, since an assignment is always followed by [break]. *)
Fixpoint robotsLoop (protocol domain : string) (lines : list string) (target : string)
  : string :=
  match lines with
  | [] => target
  | line :: rest =>
      match robotsLine protocol domain line with
      | Skip => robotsLoop protocol domain rest target
      | Found t => t
      | Raise => target
      end
  end.

Definition defaultSitemapUrl (domain : string) : string :=
  Utils.getProtocol domain +:+ domain +:+ "/sitemap.xml".

(** Step 1 of [discoverSitemap]: the value of [targetSitemapUrl] when the
    second try block is entered. *)
Definition targetSitemapUrl (p : Platform) (domain : string) : string :=
  let protocol := Utils.getProtocol domain in
  let robotsUrl := protocol +:+ domain +:+ "/robots.txt" in
  match axiosGet p true 5000 robotsUrl with
  | Ok (robotsStatus, data) =>
      if (robotsStatus =? 200)%Z
      then robotsLoop protocol domain (splitLines data) (defaultSitemapUrl domain)
      else defaultSitemapUrl domain
  | Throw _ => defaultSitemapUrl domain
  end.

(** [e.message || 'Network error']. *)
Definition messageOr (message : string) : string :=
  if String.eqb message "" then "Network error" else message.

Definition caught (target message : string) : Discovery :=
  {| url := target; status := failed; error := Some (messageOr message) |}.

(** Step 2: what the sitemap response is mapped to. *)
Definition validateSitemap (p : Platform) (target : string) : Discovery :=
  match axiosGet p false 10000 target with
  | Throw message => caught target message
  | Ok (code, data) =>
      if negb (code =? 200)%Z then
        {| url := target; status := failed; error := Some ("HTTP " +:+ showZ code) |}
      else
        match xmlParse p data with
        | Throw message => caught target message
        | Ok xmlData =>
            match Js.prop "urlset" xmlData with
            | Throw message => caught target message
            | Ok urlset =>
                if Js.truthy urlset then
                  {| url := target; status := ok; error := None |}
                else
                  match Js.prop "sitemapindex" xmlData with
                  | Throw message => caught target message
                  | Ok sitemapindex =>
                      if Js.truthy sitemapindex then
                        {| url := target; status := unsupported;
                           error := Some "Type: sitemapindex" |}
                      else
                        {| url := target; status := unsupported;
                           error := Some "Unknown XML structure" |}
                  end
            end
        end
  end.

Definition discoverSitemap (p : Platform) (domain : string) : Discovery :=
  validateSitemap p (targetSitemapUrl p domain).

End Scanner.

(** ** The machine: persisted stores, the calls made, clock and id counters *)

Record Machine : Type := {
  sites : list Site.t;
  seen : gmap string (gmap string string);
  newItems : list NewItem.t;
  trace : list Event;
  clockReads : nat;
  idsDrawn : nat
}.

(** An asynchronous computation: it may throw, and what it did to the
    machine before throwing stays done. *)
Definition M (A : Type) : Type := Machine -> Result A * Machine.

Definition ret {A} (a : A) : M A := fun m => (Ok a, m).

Definition throw {A} (message : string) : M A := fun m => (Throw message, m).

Definition bind {A B} (c : M A) (k : A -> M B) : M B :=
  fun m =>
    match c m with
    | (Ok a, m') => k a m'
    | (Throw message, m') => (Throw message, m')
    end.

(** [try { body } catch (e) { handler(e.message) }]. *)
Definition tryCatch {A} (body : M A) (handler : string -> M A) : M A :=
  fun m =>
    match body m with
    | (Ok a, m') => (Ok a, m')
    | (Throw message, m') => handler message m'
    end.

Definition lift {A} (r : Result A) : M A := fun m => (r, m).

Notation "x <- c ;; k" := (bind c (fun x => k))
  (at level 100, c at next level, right associativity).
Notation "c ;;; k" := (bind c (fun _ => k))
  (at level 100, right associativity).

Definition logged (e : Event) (m : Machine) : Machine :=
  {| sites := sites m; seen := seen m; newItems := newItems m;
     trace := trace m ++ [e]; clockReads := clockReads m; idsDrawn := idsDrawn m |}.

(** [Date.now()] and [new Date()]. *)
Definition now (p : Platform) : M Z :=
  fun m =>
    (Ok (clock p (clockReads m)),
     {| sites := sites m; seen := seen m; newItems := newItems m;
        trace := trace m; clockReads := S (clockReads m); idsDrawn := idsDrawn m |}).

(** [uuid()]. *)
Definition uuid (p : Platform) : M string :=
  fun m =>
    (Ok (randomId p (idsDrawn m)),
     {| sites := sites m; seen := seen m; newItems := newItems m;
        trace := trace m; clockReads := clockReads m; idsDrawn := S (idsDrawn m) |}).

(** [Partial<NewItem>], the second argument of [updateNewItem]: each field
    of an item is left out ([None]) or given a value of its type.  [title],
    the optional field of [NewItem], can also be given as [undefined]
    ([Some None]).  A required field given as [undefined] would leave an
    object that is no [NewItem]; such an update has no counterpart here. *)
Module ItemUpdate.
Record t : Type := mk {
  id : option string;
  siteId : option string;
  domain : option string;
  url : option string;
  keywordAuto : option string;
  keywordFinal : option string;
  reviewStatus : option ReviewStatus;
  urlType : option UrlType.t;
  title : option (option string);
  discoveredAt : option Z;
  sourceSitemapUrl : option string
}.

End ItemUpdate.

(** ** Storage: [get] and [set] on the key-value store *)

Module Storage.

(** One [get] or [set] on the key-value store: the call is made, and it
    either goes through or rejects leaving the stored value as it was. *)
Definition call (p : Platform) (e : Event) : M unit :=
  fun m =>
    match storageFault p e (length (trace m)) with
    | Some message => (Throw message, logged e m)
    | None => (Ok tt, logged e m)
    end.

Definition loadSites (p : Platform) : M (list Site.t) :=
  call p (EvGet KEY_SITES) ;;; fun m => (Ok (sites m), m).

Definition saveSites (p : Platform) (ss : list Site.t) : M unit :=
  call p (EvSet KEY_SITES) ;;;
  fun m =>
    (Ok tt,
     {| sites := ss; seen := seen m; newItems := newItems m;
        trace := trace m; clockReads := clockReads m; idsDrawn := idsDrawn m |}).

Definition loadSeen (p : Platform) : M (gmap string (gmap string string)) :=
  call p (EvGet KEY_SEEN) ;;; fun m => (Ok (seen m), m).

Definition saveSeen (p : Platform) (seenData : gmap string (gmap string string)) : M unit :=
  call p (EvSet KEY_SEEN) ;;;
  fun m =>
    (Ok tt,
     {| sites := sites m; seen := seenData; newItems := newItems m;
        trace := trace m; clockReads := clockReads m; idsDrawn := idsDrawn m |}).

Definition loadNewItems (p : Platform) : M (list NewItem.t) :=
  call p (EvGet KEY_NEW_ITEMS) ;;; fun m => (Ok (newItems m), m).

Definition saveNewItems (p : Platform) (items : list NewItem.t) : M unit :=
  call p (EvSet KEY_NEW_ITEMS) ;;;
  fun m =>
    (Ok tt,
     {| sites := sites m; seen := seen m; newItems := items;
        trace := trace m; clockReads := clockReads m; idsDrawn := idsDrawn m |}).

(** [`${i.siteId}|${i.url}`]. *)
Definition itemKey (i : NewItem.t) : string :=
  NewItem.siteId i +:+ "|" +:+ NewItem.url i.

Definition appendNewItems (p : Platform) (items : list NewItem.t) : M unit :=
  current <- loadNewItems p ;;
  let existingKeys := map itemKey current in
  let toAdd :=
    List.filter (fun i => negb (existsb (String.eqb (itemKey i)) existingKeys)) items in
  if 0 <? length toAdd then saveNewItems p (current ++ toAdd) else ret tt.

(** [items.findIndex(i => i.id === id)]. *)
Fixpoint findItem (id : string) (items : list NewItem.t) : option nat :=
  match items with
  | [] => None
  | i :: rest =>
      if String.eqb (NewItem.id i) id then Some 0 else S <$> findItem id rest
  end.

(** [{ ...item, ...updates }]. *)
Definition merged (item : NewItem.t) (updates : ItemUpdate.t) : NewItem.t :=
  {| NewItem.id := default (NewItem.id item) (ItemUpdate.id updates);
     NewItem.siteId := default (NewItem.siteId item) (ItemUpdate.siteId updates);
     NewItem.domain := default (NewItem.domain item) (ItemUpdate.domain updates);
     NewItem.url := default (NewItem.url item) (ItemUpdate.url updates);
     NewItem.keywordAuto :=
       default (NewItem.keywordAuto item) (ItemUpdate.keywordAuto updates);
     NewItem.keywordFinal :=
       default (NewItem.keywordFinal item) (ItemUpdate.keywordFinal updates);
     NewItem.reviewStatus :=
       default (NewItem.reviewStatus item) (ItemUpdate.reviewStatus updates);
     NewItem.urlType := default (NewItem.urlType item) (ItemUpdate.urlType updates);
     NewItem.title := default (NewItem.title item) (ItemUpdate.title updates);
     NewItem.discoveredAt :=
       default (NewItem.discoveredAt item) (ItemUpdate.discoveredAt updates);
     NewItem.sourceSitemapUrl :=
       default (NewItem.sourceSitemapUrl item) (ItemUpdate.sourceSitemapUrl updates) |}.

(** [updateNewItem]; [None] stands for the [null] it returns when no item
    has the id. *)
Definition updateNewItem (p : Platform) (id : string) (updates : ItemUpdate.t)
  : M (option NewItem.t) :=
  items <- loadNewItems p ;;
  match findItem id items with
  | Some index =>
      match items !! index with
      | Some item =>
          saveNewItems p (<[index := merged item updates]> items) ;;;
          ret (Some (merged item updates))
      | None => ret None
      end
  | None => ret None
  end.

(** [arr.slice(start, end)] for integers. *)
Definition slice {A} (first last : Z) (l : list A) : list A :=
  let len := Z.of_nat (length l) in
  let k := if (first <? 0)%Z then Z.max (len + first) 0 else Z.min first len in
  let final := if (last <? 0)%Z then Z.max (len + last) 0 else Z.min last len in
  firstn (Z.to_nat (final - k)) (skipn (Z.to_nat k) l).

(** One step of [sort((a, b) => time(b) - time(a))], which is stable: [x]
    goes before the first item that is not newer than it. *)
Fixpoint insertByDate (x : NewItem.t) (sorted : list NewItem.t) : list NewItem.t :=
  match sorted with
  | [] => [x]
  | y :: rest =>
      if (NewItem.discoveredAt x <? NewItem.discoveredAt y)%Z
      then y :: insertByDate x rest
      else x :: y :: rest
  end.

Fixpoint sortByDateDesc (items : list NewItem.t) : list NewItem.t :=
  match items with
  | [] => []
  | x :: rest => insertByDate x (sortByDateDesc rest)
  end.

(** [getSiteNewItems]: the pair is [{ data, total }]. *)
Definition getSiteNewItems (p : Platform) (siteId : string) (limit offset : Z)
  : M (list NewItem.t * nat) :=
  allItems <- loadNewItems p ;;
  let siteItems :=
    sortByDateDesc (List.filter (fun i => String.eqb (NewItem.siteId i) siteId) allItems) in
  ret (slice offset (offset + limit) siteItems, length siteItems).

End Storage.

(** ** The scanner of the [api] object: reading the sitemap *)

Module SiteScanner.

(** [fetchDirect]: the request leaves the process; [ok] is the status
    being in 200..299. *)
Definition fetchDirect (p : Platform) (url : string) : M (bool * Z * string) :=
  fun m =>
    match fetch p url with
    | Ok (code, text) =>
        (Ok ((200 <=? code)%Z && (code <=? 299)%Z, code, text), logged (EvFetch url) m)
    | Throw message => (Throw message, logged (EvFetch url) m)
    end.

(** [urlEntry.map(u => u.loc)]. *)
Fixpoint locs (entries : list Js.Val) : Result (list Js.Val) :=
  match entries with
  | [] => Ok []
  | u :: rest =>
      match Js.prop "loc" u with
      | Throw message => Throw message
      | Ok loc =>
          match locs rest with
          | Throw message => Throw message
          | Ok ls => Ok (loc :: ls)
          end
      end
  end.

Definition fetchSitemapUrls (p : Platform) (sitemapUrl : string) : M (list Js.Val) :=
  res <- fetchDirect p sitemapUrl ;;
  let '(resOk, code, text) := res in
  if negb resOk then throw ("HTTP " +:+ showZ code)
  else
    xmlData <- lift (xmlParse p text) ;;
    urlset <- lift (Js.prop "urlset" xmlData) ;;
    if negb (Js.truthy urlset) then throw "Not a urlset sitemap"
    else
      urlEntry <- lift (Js.prop "url" urlset) ;;
      match urlEntry with
      | Js.Arr entries =>
          ls <- lift (locs entries) ;;
          ret (List.filter Js.truthy ls)
      | _ =>
          if Js.truthy urlEntry then
            loc <- lift (Js.prop "loc" urlEntry) ;;
            if Js.truthy loc then ret [loc] else ret []
          else ret []
      end.

(** [discoverSitemap] of this scanner: the steps of [Scanner.discoverSitemap]
    with [fetchDirect] for the two requests and [!res.ok] for the status
    test. *)
Definition targetSitemapUrl (p : Platform) (domain : string) : M string :=
  let protocol := Utils.getProtocol domain in
  let robotsUrl := protocol +:+ domain +:+ "/robots.txt" in
  tryCatch
    (res <- fetchDirect p robotsUrl ;;
     let '(resOk, _, text) := res in
     if resOk
     then ret (Scanner.robotsLoop protocol domain (Str.splitLines text)
                                  (Scanner.defaultSitemapUrl domain))
     else ret (Scanner.defaultSitemapUrl domain))
    (fun _ => ret (Scanner.defaultSitemapUrl domain)).

Definition validateSitemap (p : Platform) (target : string) : M Scanner.Discovery :=
  tryCatch
    (res <- fetchDirect p target ;;
     let '(resOk, code, text) := res in
     if negb resOk then
       ret {| Scanner.url := target; Scanner.status := failed;
              Scanner.error := Some ("HTTP " +:+ showZ code) |}
     else
       xmlData <- lift (xmlParse p text) ;;
       urlset <- lift (Js.prop "urlset" xmlData) ;;
       if Js.truthy urlset then
         ret {| Scanner.url := target; Scanner.status := ok; Scanner.error := None |}
       else
         sitemapindex <- lift (Js.prop "sitemapindex" xmlData) ;;
         if Js.truthy sitemapindex then
           ret {| Scanner.url := target; Scanner.status := unsupported;
                  Scanner.error := Some "Type: sitemapindex" |}
         else
           ret {| Scanner.url := target; Scanner.status := unsupported;
                  Scanner.error := Some "Unknown XML structure" |})
    (fun message => ret (Scanner.caught target message)).

Definition discoverSitemap (p : Platform) (domain : string) : M Scanner.Discovery :=
  target <- targetSitemapUrl p domain ;;
  validateSitemap p target.

End SiteScanner.

(** ** scanner.ts of the server: [fetchSitemapUrls] *)

Module ServerScanner.

(** [axios.get] without [validateStatus]: the response reaches the caller,
    whose code does not look at its status. *)
Definition fetchSitemapUrls (p : Platform) (sitemapUrl : string) : Result (list Js.Val) :=
  match axiosGet p false 15000 sitemapUrl with
  | Throw message => Throw message
  | Ok (_, data) =>
      match xmlParse p data with
      | Throw message => Throw message
      | Ok xmlData =>
          match Js.prop "urlset" xmlData with
          | Throw message => Throw message
          | Ok urlset =>
              if negb (Js.truthy urlset) then Throw "Not a urlset sitemap"
              else
                match Js.prop "url" urlset with
                | Throw message => Throw message
                | Ok (Js.Arr entries) =>
                    match SiteScanner.locs entries with
                    | Throw message => Throw message
                    | Ok ls => Ok (List.filter Js.truthy ls)
                    end
                | Ok urlEntry =>
                    if Js.truthy urlEntry then
                      match Js.prop "loc" urlEntry with
                      | Throw message => Throw message
                      | Ok loc => if Js.truthy loc then Ok [loc] else Ok []
                      end
                    else Ok []
                end
          end
      end
  end.

End ServerScanner.

(** ** The [api] object: baseline and scan *)

Module Api.

(** [sites.findIndex(s => s.id === id)] together with [sites[index]]. *)
Fixpoint findIndex (id : string) (sites : list Site.t) : option (nat * Site.t) :=
  match sites with
  | [] => None
  | s :: rest =>
      if String.eqb (Site.id s) id then Some (0, s)
      else
        match findIndex id rest with
        | Some (index, site) => Some (S index, site)
        | None => None
        end
  end.

(** [!siteSeen[hash]]: the slot is missing, or holds the empty string. *)
Definition unseen (siteSeen : gmap string string) (hash : string) : bool :=
  match siteSeen !! hash with
  | Some url => String.eqb url ""
  | None => true
  end.

(** The catch block shared by [baseline] and [scan]: mark the site as it is
    in memory, save the site list, rethrow. *)
Definition failedSite (site : Site.t) (message : string) (duration : Z) : Site.t :=
  {| Site.id := Site.id site;
     Site.domain := Site.domain site;
     Site.sitemapUrl := Site.sitemapUrl site;
     Site.status := failed;
     Site.errorMessage := message;
     Site.baselineReady := Site.baselineReady site;
     Site.baselineAt := Site.baselineAt site;
     Site.lastScanAt := Site.lastScanAt site;
     Site.seenCount := Site.seenCount site;
     Site.lastNewFound := Site.lastNewFound site;
     Site.lastResult :=
       Some {| ScanSummary.outcome := failure;
               ScanSummary.parsedCount := 0;
               ScanSummary.newOrInsertedCount := 0;
               ScanSummary.durationMs := duration;
               ScanSummary.error := Some message;
               ScanSummary.sampleUrls := [] |};
     Site.createdAt := Site.createdAt site |}.

Definition recordFailure {A} (p : Platform) (sites : list Site.t) (index : nat)
    (site : Site.t) (start : Z) (message : string) : M A :=
  finish <- now p ;;
  Storage.saveSites p (<[index := failedSite site message (finish - start)%Z]> sites) ;;;
  throw message.

(** *** baseline *)

Definition baselineStep (acc : gmap string string * nat * list string) (url : string)
  : gmap string string * nat * list string :=
  let '(siteSeen, addedCount, sampleUrls) := acc in
  let hash := Utils.hashUrl url in
  let '(siteSeen, addedCount) :=
    if unseen siteSeen hash then (<[hash := url]> siteSeen, S addedCount)
    else (siteSeen, addedCount) in
  let sampleUrls := if length sampleUrls <? 5 then sampleUrls ++ [url] else sampleUrls in
  (siteSeen, addedCount, sampleUrls).

Fixpoint baselineLoop (urls : list Js.Val) (acc : gmap string string * nat * list string)
  : Result (gmap string string * nat * list string) :=
  match urls with
  | [] => Ok acc
  | rawUrl :: rest =>
      match Utils.normalizeUrlOf rawUrl with
      | Throw message => Throw message
      | Ok url => baselineLoop rest (baselineStep acc url)
      end
  end.

Definition baselinedSite (site : Site.t) (baselineAt : Z) (siteSeen : gmap string string)
    (parsed addedCount : nat) (duration : Z) (sampleUrls : list string) : Site.t :=
  {| Site.id := Site.id site;
     Site.domain := Site.domain site;
     Site.sitemapUrl := Site.sitemapUrl site;
     Site.status := ok;
     Site.errorMessage := "";
     Site.baselineReady := true;
     Site.baselineAt := Some baselineAt;
     Site.lastScanAt := Site.lastScanAt site;
     Site.seenCount := size siteSeen;
     Site.lastNewFound := Site.lastNewFound site;
     Site.lastResult :=
       Some {| ScanSummary.outcome := success;
               ScanSummary.parsedCount := parsed;
               ScanSummary.newOrInsertedCount := addedCount;
               ScanSummary.durationMs := duration;
               ScanSummary.error := None;
               ScanSummary.sampleUrls := sampleUrls |};
     Site.createdAt := Site.createdAt site |}.

(** The try block up to [saveSeen]; [site] is not yet touched. *)
Definition baselineMerge (p : Platform) (site : Site.t)
  : M (list Js.Val * (gmap string string * nat * list string)) :=
  urls <- SiteScanner.fetchSitemapUrls p (Site.sitemapUrl site) ;;
  seenData <- Storage.loadSeen p ;;
  let siteSeen := default ∅ (seenData !! Site.id site) in
  acc <- lift (baselineLoop urls (siteSeen, 0, [])) ;;
  Storage.saveSeen p (<[Site.id site := fst (fst acc)]> seenData) ;;;
  ret (urls, acc).

(** The one catch block is written twice: an error raised before the site
    is updated finds [site] as loaded, an error raised by the last
    [saveSites] finds it updated. *)
Definition baseline (p : Platform) (id : string) : M Site.t :=
  start <- now p ;;
  sites <- Storage.loadSites p ;;
  match findIndex id sites with
  | None => throw "Site not found"
  | Some (index, site) =>
      r <- tryCatch (baselineMerge p site) (recordFailure p sites index site start) ;;
      let '(urls, (siteSeen, addedCount, sampleUrls)) := r in
      baselineAt <- now p ;;
      finish <- now p ;;
      let site' :=
        baselinedSite site baselineAt siteSeen (length urls) addedCount
                      (finish - start)%Z sampleUrls in
      tryCatch (Storage.saveSites p (<[index := site']> sites) ;;; ret site')
               (recordFailure p sites index site' start)
  end.

(** *** scan *)

Definition scanStep (acc : gmap string string * list string) (url : string)
  : gmap string string * list string :=
  let '(siteSeen, newUrls) := acc in
  let hash := Utils.hashUrl url in
  if unseen siteSeen hash then (<[hash := url]> siteSeen, newUrls ++ [url])
  else (siteSeen, newUrls).

Fixpoint scanLoop (urls : list Js.Val) (acc : gmap string string * list string)
  : Result (gmap string string * list string) :=
  match urls with
  | [] => Ok acc
  | rawUrl :: rest =>
      match Utils.normalizeUrlOf rawUrl with
      | Throw message => Throw message
      | Ok url => scanLoop rest (scanStep acc url)
      end
  end.

Definition reviewStatusOf (classification : UrlType.t) : ReviewStatus :=
  if UrlType.eqb classification UrlType.game then pending else not_game.

(** The body of [for (const url of newUrls)]. *)
Definition buildItem (p : Platform) (site : Site.t) (url : string) : M NewItem.t :=
  let classification := Utils.classifyUrl p url in
  let keyword := Utils.extractGameKeyword p url in
  let reviewStatus := reviewStatusOf classification in
  title <- (fun m => (Ok (fetchPageTitle p url), logged (EvTitle url) m)) ;;
  newId <- uuid p ;;
  discoveredAt <- now p ;;
  ret {| NewItem.id := "new_" +:+ newId;
         NewItem.siteId := Site.id site;
         NewItem.domain := Site.domain site;
         NewItem.url := url;
         NewItem.keywordAuto := keyword;
         NewItem.keywordFinal := keyword;
         NewItem.reviewStatus := reviewStatus;
         NewItem.urlType := classification;
         NewItem.title := title;
         NewItem.discoveredAt := discoveredAt;
         NewItem.sourceSitemapUrl := Site.sitemapUrl site |}.

Fixpoint buildItems (p : Platform) (site : Site.t) (newUrls : list string)
  : M (list NewItem.t) :=
  match newUrls with
  | [] => ret []
  | url :: rest =>
      item <- buildItem p site url ;;
      items <- buildItems p site rest ;;
      ret (item :: items)
  end.

(** [for (const item of newItemsFound) siteSeen[hash(item.url)] = item.url]. *)
Definition mergeSeen (newItemsFound : list NewItem.t) (siteSeen : gmap string string)
  : gmap string string :=
  fold_left (fun acc item => <[Utils.hashUrl (NewItem.url item) := NewItem.url item]> acc)
            newItemsFound siteSeen.

Definition scannedSite (site : Site.t) (lastScanAt : Z) (siteSeen : gmap string string)
    (parsed : nat) (newItemsFound : list NewItem.t) (duration : Z) : Site.t :=
  {| Site.id := Site.id site;
     Site.domain := Site.domain site;
     Site.sitemapUrl := Site.sitemapUrl site;
     Site.status := ok;
     Site.errorMessage := Site.errorMessage site;
     Site.baselineReady := Site.baselineReady site;
     Site.baselineAt := Site.baselineAt site;
     Site.lastScanAt := Some lastScanAt;
     Site.seenCount := size siteSeen;
     Site.lastNewFound := length newItemsFound;
     Site.lastResult :=
       Some {| ScanSummary.outcome := success;
               ScanSummary.parsedCount := parsed;
               ScanSummary.newOrInsertedCount := length newItemsFound;
               ScanSummary.durationMs := duration;
               ScanSummary.error := None;
               ScanSummary.sampleUrls := map NewItem.url (firstn 5 newItemsFound) |};
     Site.createdAt := Site.createdAt site |}.

(** The try block up to [appendNewItems]; [site] is not yet touched. *)
Definition scanDiff (p : Platform) (site : Site.t)
  : M (list Js.Val * gmap string string * list NewItem.t) :=
  urls <- SiteScanner.fetchSitemapUrls p (Site.sitemapUrl site) ;;
  seenData <- Storage.loadSeen p ;;
  let siteSeen := default ∅ (seenData !! Site.id site) in
  acc <- lift (scanLoop urls (siteSeen, [])) ;;
  let '(siteSeen, newUrls) := acc in
  newItemsFound <- buildItems p site newUrls ;;
  if 0 <? length newItemsFound then
    let siteSeen := mergeSeen newItemsFound siteSeen in
    Storage.saveSeen p (<[Site.id site := siteSeen]> seenData) ;;;
    Storage.appendNewItems p newItemsFound ;;;
    ret (urls, siteSeen, newItemsFound)
  else ret (urls, siteSeen, newItemsFound).

Definition scan (p : Platform) (id : string) : M (Site.t * list NewItem.t) :=
  start <- now p ;;
  sites <- Storage.loadSites p ;;
  match findIndex id sites with
  | None => throw "Site not found"
  | Some (index, site) =>
      if negb (Site.baselineReady site) then throw "Baseline not ready"
      else
        r <- tryCatch (scanDiff p site) (recordFailure p sites index site start) ;;
        let '(urls, siteSeen, newItemsFound) := r in
        lastScanAt <- now p ;;
        finish <- now p ;;
        let site' :=
          scannedSite site lastScanAt siteSeen (length urls) newItemsFound
                      (finish - start)%Z in
        tryCatch (Storage.saveSites p (<[index := site']> sites) ;;;
                  ret (site', newItemsFound))
                 (recordFailure p sites index site' start)
  end.

(** *** importSites, discover, getSiteNew, updateNewItem *)

(** The site [importSites] pushes. *)
Definition importedSite (newId cleanDomain : string) (createdAt : Z) : Site.t :=
  {| Site.id := "site_" +:+ newId;
     Site.domain := cleanDomain;
     Site.sitemapUrl := Utils.getProtocol cleanDomain +:+ cleanDomain +:+ "/sitemap.xml";
     Site.status := unknown;
     Site.errorMessage := "";
     Site.baselineReady := false;
     Site.baselineAt := None;
     Site.lastScanAt := None;
     Site.seenCount := 0;
     Site.lastNewFound := 0;
     Site.lastResult := None;
     Site.createdAt := createdAt |}.

(** [for (const rawDomain of domains)], on [sites] and [existingDomains]. *)
Fixpoint importLoop (p : Platform) (domains : list string)
    (sites : list Site.t) (existingDomains : gset string) : M (list Site.t) :=
  match domains with
  | [] => ret sites
  | rawDomain :: rest =>
      if String.eqb rawDomain "" then importLoop p rest sites existingDomains
      else
        let cleanDomain := Utils.normalizeDomain rawDomain in
        if negb (String.eqb cleanDomain "")
           && negb (bool_decide (cleanDomain ∈ existingDomains))
        then
          newId <- uuid p ;;
          createdAt <- now p ;;
          importLoop p rest (sites ++ [importedSite newId cleanDomain createdAt])
                     ({[ cleanDomain ]} ∪ existingDomains)
        else importLoop p rest sites existingDomains
  end.

Definition importSites (p : Platform) (domains : list string) : M unit :=
  sites <- Storage.loadSites p ;;
  sites' <- importLoop p domains sites (list_to_set (map Site.domain sites)) ;;
  Storage.saveSites p sites'.

(** [site] after [discover] has copied [result] into it. *)
Definition discoveredSite (site : Site.t) (result : Scanner.Discovery) : Site.t :=
  {| Site.id := Site.id site;
     Site.domain := Site.domain site;
     Site.sitemapUrl := Scanner.url result;
     Site.status := Scanner.status result;
     Site.errorMessage := default "" (Scanner.error result);
     Site.baselineReady := Site.baselineReady site;
     Site.baselineAt := Site.baselineAt site;
     Site.lastScanAt := Site.lastScanAt site;
     Site.seenCount := Site.seenCount site;
     Site.lastNewFound := Site.lastNewFound site;
     Site.lastResult := Site.lastResult site;
     Site.createdAt := Site.createdAt site |}.

Definition discover (p : Platform) (id : string) : M Site.t :=
  sites <- Storage.loadSites p ;;
  match findIndex id sites with
  | None => throw "Site not found"
  | Some (index, site) =>
      result <- SiteScanner.discoverSitemap p (Site.domain site) ;;
      let site' := discoveredSite site result in
      Storage.saveSites p (<[index := site']> sites) ;;;
      ret site'
  end.

(** [getSiteNew]: [{ data, total, page, limit }] without the two echoes. *)
Definition getSiteNew (p : Platform) (id : string) (page limit : Z)
  : M (list NewItem.t * nat) :=
  Storage.getSiteNewItems p id limit ((page - 1) * limit)%Z.

Definition updateNewItem (p : Platform) (id : string) (data : ItemUpdate.t)
  : M NewItem.t :=
  updated <- Storage.updateNewItem p id data ;;
  match updated with
  | None => throw "Item not found"
  | Some item => ret item
  end.

End Api.

(** * Vocabulary of the statements *)

(** ** Shapes of strings *)

Module StrSpec.
Import Str.

(** The string does not begin with white space. *)
Definition headOk (s : string) : Prop :=
  match s with
  | "" => True
  | String c _ => isWhiteSpace c = false
  end.

Fixpoint lastChar (s : string) : option ascii :=
  match s with
  | "" => None
  | String c "" => Some c
  | String _ s' => lastChar s'
  end.

(** The string ends neither with white space nor with a slash. *)
Definition endsClean (s : string) : bool :=
  match lastChar s with
  | Some c => negb (isWhiteSpace c) && negb (Ascii.eqb c "/")
  | None => true
  end.

(** Nothing, or something that does not start with a digit. *)
Definition stopsDigits (r : string) : Prop :=
  match r with
  | "" => True
  | String c _ => isDigit c = false
  end.

(** One to three decimal digits. *)
Definition isOctetText (d : string) : Prop :=
  allDigits d = true /\ 1 <= String.length d <= 3.

(** A bare IPv4 address with an optional port: four groups of one to three
    digits separated by dots, then nothing or a colon and at least one
    digit. *)
Definition BareIPv4 (s : string) : Prop :=
  exists a b c d,
    isOctetText a /\ isOctetText b /\ isOctetText c /\ isOctetText d /\
    (s = a +:+ "." +:+ b +:+ "." +:+ c +:+ "." +:+ d
     \/ exists port, allDigits port = true /\ port <> "" /\
          s = a +:+ "." +:+ b +:+ "." +:+ c +:+ "." +:+ d +:+ ":" +:+ port).

(** The domains for which the specification announces [http://]. *)
Definition announcedLocal (domain : string) : Prop :=
  domain = "localhost" \/ domain = "127.0.0.1" \/ domain = "0.0.0.0" \/ BareIPv4 domain.

End StrSpec.

(** ** Parsed documents *)

(** [xmlData.name] is truthy. *)
Definition hasRoot (name : string) (xmlData : Js.Val) : Prop :=
  exists v, Js.prop name xmlData = Ok v /\ Js.truthy v = true.

(** ** Machines and seen-sets *)

(** The three persisted stores of a machine. *)
Definition stores (m : Machine)
  : list Site.t * gmap string (gmap string string) * list NewItem.t :=
  (sites m, seen m, newItems m).

(** Reading and writing the item store never rejects. *)
Definition itemStoreReliable (p : Platform) : Prop :=
  forall n, storageFault p (EvGet KEY_NEW_ITEMS) n = None
            /\ storageFault p (EvSet KEY_NEW_ITEMS) n = None.

(** Writing the site list never rejects. *)
Definition siteStoreWritable (p : Platform) : Prop :=
  forall n, storageFault p (EvSet KEY_SITES) n = None.

Definition noStorageFaults (p : Platform) : Prop :=
  forall e n, storageFault p e n = None.

(** Every slot of [a] is still a slot of [b], and holds the same URL unless
    it held the empty string. *)
Definition keeps (a b : gmap string string) : Prop :=
  forall k v, a !! k = Some v -> exists v', b !! k = Some v' /\ (v <> "" -> v' = v).

(** Every site's seen-set of [m] is kept in [m']. *)
Definition seenGrows (m m' : Machine) : Prop :=
  forall sid ss, seen m !! sid = Some ss ->
    exists ss', seen m' !! sid = Some ss' /\ keeps ss ss'.

Definition nonEmptyValues (mp : gmap string string) : Prop :=
  forall k v, mp !! k = Some v -> v <> "".

(** Every URL of the sitemap has a slot holding a non-empty string. *)
Definition covered (s : gmap string string) (urls : list Js.Val) : Prop :=
  Forall (fun v => exists u w, Utils.normalizeUrlOf v = Ok u
                               /\ s !! Utils.hashUrl u = Some w /\ w <> "") urls.

(** [site.lastResult.newOrInsertedCount]. *)
Definition addedCount (s : Site.t) : option nat :=
  ScanSummary.newOrInsertedCount <$> Site.lastResult s.

(** ** Concrete platforms, sites and machines *)

Module Fixture.

(** A reader of plain [http(s)://host/path?query#fragment] URLs, standing
    for the platform's URL parser in the examples. *)
Definition plainPathname (url : string) : option string :=
  let rest :=
    if Str.startsWith "http://" url then Some (String.substring 7 (String.length url) url)
    else if Str.startsWith "https://" url
         then Some (String.substring 8 (String.length url) url)
         else None in
  match rest with
  | None | Some "" => None
  | Some r =>
      let host :=
        Str.takeWhile
          (fun c => negb (Ascii.eqb c "/" || Ascii.eqb c "?" || Ascii.eqb c "#")) r in
      let tail := String.substring (String.length host) (String.length r) r in
      let path := Str.takeWhile (fun c => negb (Ascii.eqb c "?" || Ascii.eqb c "#")) tail in
      Some (if String.eqb path "" then "/" else path)
  end.

(** The object the parser builds for a urlset with these [<loc>] values. *)
Definition urlsetDoc (ls : list string) : Js.Val :=
  Js.Obj [("urlset",
           Js.Obj [("url", Js.Arr (map (fun l => Js.Obj [("loc", Js.Str l)]) ls))])].

(** Every URL answers 200 with a urlset of [ls]; storage rejects the calls
    [faulty] selects. *)
Definition servingWith (faulty : Event -> option string) (ls : list string) : Platform :=
  {| axiosGet := fun _ _ _ => Ok (200%Z, "<urlset/>");
     fetch := fun _ => Ok (200%Z, "<urlset/>");
     xmlParse := fun _ => Ok (urlsetDoc ls);
     urlPathname := plainPathname;
     fetchPageTitle := fun _ => None;
     clock := fun n => (1700000000000 + Z.of_nat n)%Z;
     randomId := fun n => showZ (Z.of_nat n);
     storageFault := fun e _ => faulty e |}.

Definition serving (ls : list string) : Platform := servingWith (fun _ => None) ls.

(** The item store is full: [localStorage.setItem] throws inside [set], so
    writing [new_items] rejects. *)
Definition itemStoreFull (e : Event) : option string :=
  match e with
  | EvSet KEY_NEW_ITEMS => Some "The quota has been exceeded."
  | _ => None
  end.

(** No network. *)
Definition offline : Platform :=
  {| axiosGet := fun _ _ _ => Throw "Network Error";
     fetch := fun _ => Throw "Failed to fetch";
     xmlParse := fun _ => Throw "unreachable";
     urlPathname := plainPathname;
     fetchPageTitle := fun _ => None;
     clock := fun n => (1700000000000 + Z.of_nat n)%Z;
     randomId := fun n => showZ (Z.of_nat n);
     storageFault := fun _ _ => None |}.

(** Every request is rejected with an error whose message is empty. *)
Definition silentFailure : Platform :=
  {| axiosGet := fun _ _ _ => Throw "";
     fetch := fun _ => Throw "";
     xmlParse := fun _ => Throw "";
     urlPathname := plainPathname;
     fetchPageTitle := fun _ => None;
     clock := fun _ => 0%Z;
     randomId := fun _ => "";
     storageFault := fun _ _ => None |}.

(** robots.txt of example.com names [/s1.xml], which is a sitemap index. *)
Definition indexBehindRobots : Platform :=
  {| axiosGet := fun _ _ url =>
       if String.eqb url "https://example.com/robots.txt"
       then Ok (200%Z, "User-agent: *" +:+ String "010" "Sitemap: /s1.xml")
       else Ok (200%Z, "<sitemapindex><sitemap><loc>https://example.com/a.xml</loc>"
                        +:+ "</sitemap></sitemapindex>");
     fetch := fun _ => Throw "Failed to fetch";
     xmlParse := fun _ =>
       Ok (Js.Obj [("sitemapindex",
                    Js.Obj [("sitemap", Js.Obj [("loc", Js.Str "https://example.com/a.xml")])])]);
     urlPathname := plainPathname;
     fetchPageTitle := fun _ => None;
     clock := fun _ => 0%Z;
     randomId := fun _ => "";
     storageFault := fun _ _ => None |}.

(** A site as [importSites] creates it. *)
Definition newSite : Site.t :=
  {| Site.id := "site_1";
     Site.domain := "x.com";
     Site.sitemapUrl := "https://x.com/sitemap.xml";
     Site.status := unknown;
     Site.errorMessage := "";
     Site.baselineReady := false;
     Site.baselineAt := None;
     Site.lastScanAt := None;
     Site.seenCount := 0;
     Site.lastNewFound := 0;
     Site.lastResult := None;
     Site.createdAt := 1690000000000%Z |}.

(** The same site after a baseline over the one URL [https://x.com/a]. *)
Definition readySite : Site.t :=
  {| Site.id := "site_1";
     Site.domain := "x.com";
     Site.sitemapUrl := "https://x.com/sitemap.xml";
     Site.status := ok;
     Site.errorMessage := "";
     Site.baselineReady := true;
     Site.baselineAt := Some 1695000000000%Z;
     Site.lastScanAt := None;
     Site.seenCount := 1;
     Site.lastNewFound := 0;
     Site.lastResult :=
       Some {| ScanSummary.outcome := success;
               ScanSummary.parsedCount := 1;
               ScanSummary.newOrInsertedCount := 1;
               ScanSummary.durationMs := 12;
               ScanSummary.error := None;
               ScanSummary.sampleUrls := ["https://x.com/a"] |};
     Site.createdAt := 1690000000000%Z |}.

Definition fresh : Machine :=
  {| sites := [newSite]; seen := ∅; newItems := []; trace := [];
     clockReads := 0; idsDrawn := 0 |}.

Definition ready : Machine :=
  {| sites := [readySite];
     seen := {[ "site_1" := {[ Utils.hashUrl "https://x.com/a" := "https://x.com/a" ]} ]};
     newItems := []; trace := []; clockReads := 0; idsDrawn := 0 |}.

(** A sitemap that lists the known page and one new page. *)
Definition oneNewPage : list string := ["https://x.com/a"; "https://x.com/super-cool-game"].

(** A sitemap that lists the known page and the relative location [/]. *)
Definition withRootLocation : list string := ["https://x.com/a"; "/"].

(** The site record a scan of [ready] over a sitemap returns, if it returns
    one. *)
Definition scannedRecord (p : Platform) : Site.t :=
  match fst (Api.scan p "site_1" ready) with
  | Ok (site, _) => site
  | Throw _ => readySite
  end.

Definition scannedItems (p : Platform) : list NewItem.t :=
  match fst (Api.scan p "site_1" ready) with
  | Ok (_, items) => items
  | Throw _ => []
  end.

End Fixture.

(** ** Vocabulary of the further properties *)

(** *** Shapes of strings *)

Module Chars.

(** A digit of lower-case hexadecimal. *)
Definition isHexChar (c : ascii) : bool :=
  match c with
  | "0" | "1" | "2" | "3" | "4" | "5" | "6" | "7" | "8" | "9"
  | "a" | "b" | "c" | "d" | "e" | "f" => true
  | _ => false
  end%char.

Fixpoint allChars (f : ascii -> bool) (s : string) : bool :=
  match s with
  | "" => true
  | String c s' => f c && allChars f s'
  end.

(** A character a keyword can hold: no separator of words or of path
    segments, and nothing [toLowerCase] would change. *)
Definition keywordChar (c : ascii) : bool :=
  negb (Ascii.eqb c "-" || Ascii.eqb c "_" || Ascii.eqb c "/")
  && Ascii.eqb (Str.lowerChar c) c.

(** No character of the string ends a line. *)
Definition onOneLine (s : string) : bool :=
  allChars (fun c => negb (Str.isLineTerminator c)) s.

End Chars.

(** *** The HTTP client of the server *)

(** axios as its documentation describes it: a response settles the
    promise when [validateStatus] accepts its status, by default a status
    from 200 to 299, and rejects it otherwise with the message below; a
    request without response rejects with its own message. *)
Module Axios.

Definition validStatus (code : Z) : bool := (200 <=? code)%Z && (code <? 300)%Z.

Definition statusError (code : Z) : string :=
  "Request failed with status code " +:+ showZ code.

(** What the caller of [axios.get] sees when the network delivered
    [answer]; [validateAll] tells whether [validateStatus: () => true] was
    passed. *)
Definition settle (validateAll : bool) (answer : Result (Z * string)) : Result (Z * string) :=
  match answer with
  | Ok (code, data) =>
      if validateAll || validStatus code then Ok (code, data)
      else Throw (statusError code)
  | Throw message => Throw message
  end.

End Axios.

(** What [discoverSitemap] makes of a body it received with status 200 and
    reports as [d]. *)
Definition readsDocument (p : Platform) (data : string) (d : Scanner.Discovery) : Prop :=
  (forall message,
     xmlParse p data = Throw message ->
     Scanner.status d = failed /\ Scanner.error d = Some (Scanner.messageOr message))
  /\ (forall xmlData,
        xmlParse p data = Ok xmlData ->
        (hasRoot "urlset" xmlData ->
         Scanner.status d = ok /\ Scanner.error d = None)
        /\ (~ hasRoot "urlset" xmlData -> hasRoot "sitemapindex" xmlData ->
            Scanner.status d = unsupported
            /\ Scanner.error d = Some "Type: sitemapindex")
        /\ (xmlData <> Js.Undefined ->
            ~ hasRoot "urlset" xmlData -> ~ hasRoot "sitemapindex" xmlData ->
            Scanner.status d = unsupported
            /\ Scanner.error d = Some "Unknown XML structure")
        /\ (xmlData = Js.Undefined ->
            Scanner.status d = failed
            /\ Scanner.error d = Some Js.typeErrorMessage)).

(** *** Items and sites *)

(** The URLs of the list that are not the empty string. *)
Definition nonEmptyUrls (urls : list string) : list string :=
  List.filter (fun u => negb (String.eqb u "")) urls.

(** [a] may stand before [b] in a list ordered newest first. *)
Definition notOlder (a b : NewItem.t) : Prop :=
  (NewItem.discoveredAt b <= NewItem.discoveredAt a)%Z.

(** The key of [i] is not among the keys of [current]: the filter of
    [appendNewItems]. *)
Definition freshFor (current : list NewItem.t) (i : NewItem.t) : bool :=
  negb (existsb (String.eqb (Storage.itemKey i)) (map Storage.itemKey current)).

(** A site record as [importSites] creates it for [Site.domain]. *)
Definition justImported (s : Site.t) : Prop :=
  Site.domain s <> ""
  /\ Site.sitemapUrl s
     = Utils.getProtocol (Site.domain s) +:+ Site.domain s +:+ "/sitemap.xml"
  /\ Site.status s = unknown /\ Site.errorMessage s = ""
  /\ Site.baselineReady s = false /\ Site.baselineAt s = None
  /\ Site.lastScanAt s = None /\ Site.seenCount s = 0
  /\ Site.lastNewFound s = 0 /\ Site.lastResult s = None.

(** The normalized forms of the locations, in order. *)
Definition normalizedAs (urls : list Js.Val) (us : list string) : Prop :=
  Forall2 (fun v u => Utils.normalizeUrlOf v = Ok u) urls us.

(** What [baseline] and [scan] of site [id] may change: the seen-set of
    [id], and one record of the site list, whose id and domain stay. *)
Definition touchesOnly (id : string) (m m' : Machine) : Prop :=
  (forall sid, sid <> id -> seen m' !! sid = seen m !! sid)
  /\ map Site.id (sites m') = map Site.id (sites m)
  /\ map Site.domain (sites m') = map Site.domain (sites m)
  /\ map Site.sitemapUrl (sites m') = map Site.sitemapUrl (sites m)
  /\ (forall j s, sites m !! j = Some s -> Site.id s <> id -> sites m' !! j = Some s).

(** A change that leaves the site list alone, touches no seen-set but that
    of [id], and only appends to the item store. *)
Definition innerStep (id : string) (m m' : Machine) : Prop :=
  sites m' = sites m
  /\ (forall sid, sid <> id -> seen m' !! sid = seen m !! sid)
  /\ exists added, newItems m' = newItems m ++ added
                   /\ Forall (fun i => NewItem.siteId i = id) added.

(** An item as [scan] builds it for a URL of [site]. *)
Definition builtFor (p : Platform) (site : Site.t) (i : NewItem.t) : Prop :=
  NewItem.siteId i = Site.id site
  /\ NewItem.domain i = Site.domain site
  /\ NewItem.sourceSitemapUrl i = Site.sitemapUrl site
  /\ NewItem.keywordAuto i = Utils.extractGameKeyword p (NewItem.url i)
  /\ NewItem.keywordFinal i = NewItem.keywordAuto i
  /\ Str.startsWith "new_" (NewItem.id i) = true.

(** *** Further platforms and machines *)

Module Cases.

(** robots.txt of example.com, with CRLF line ends, has a [Sitemap:] line
    without a value before the one that names [/real.xml]. *)
Definition emptyDirective : Platform :=
  {| axiosGet := fun _ _ url =>
       if String.eqb url "https://example.com/robots.txt"
       then Ok (200%Z, "Sitemap:" +:+ String "013" (String "010" "Sitemap: /real.xml"))
       else Ok (200%Z, "<urlset/>");
     fetch := fun _ => Throw "Failed to fetch";
     xmlParse := fun _ => Ok (Js.Obj [("urlset", Js.Str "")]);
     urlPathname := Fixture.plainPathname;
     fetchPageTitle := fun _ => None;
     clock := fun _ => 0%Z;
     randomId := fun _ => "";
     storageFault := fun _ _ => None |}.

(** Every URL answers 200 with an empty [urlset] element, for which the
    parser delivers an empty string under [urlset]. *)
Definition emptyUrlset : Platform :=
  {| axiosGet := fun _ _ _ => Ok (200%Z, "<urlset/>");
     fetch := fun _ => Ok (200%Z, "<urlset/>");
     xmlParse := fun _ => Ok (Js.Obj [("urlset", Js.Str "")]);
     urlPathname := Fixture.plainPathname;
     fetchPageTitle := fun _ => None;
     clock := fun _ => 0%Z;
     randomId := fun _ => "";
     storageFault := fun _ _ => None |}.

(** The server of example.com answers 404 to every request, and axios is
    the client. *)
Definition notFound : Platform :=
  {| axiosGet := fun validateAll _ _ => Axios.settle validateAll (Ok (404%Z, "Not Found"));
     fetch := fun _ => Ok (404%Z, "Not Found");
     xmlParse := fun _ => Throw "unreachable";
     urlPathname := Fixture.plainPathname;
     fetchPageTitle := fun _ => None;
     clock := fun _ => 0%Z;
     randomId := fun _ => "";
     storageFault := fun _ _ => None |}.

(** A sitemap that lists the relative location [/] twice. *)
Definition rootTwice : list string := ["/"; "/"].

(** [{ reviewStatus: 'confirmed' }]. *)
Definition confirmIt : ItemUpdate.t :=
  {| ItemUpdate.id := None; ItemUpdate.siteId := None; ItemUpdate.domain := None;
     ItemUpdate.url := None; ItemUpdate.keywordAuto := None;
     ItemUpdate.keywordFinal := None; ItemUpdate.reviewStatus := Some confirmed;
     ItemUpdate.urlType := None; ItemUpdate.title := None;
     ItemUpdate.discoveredAt := None; ItemUpdate.sourceSitemapUrl := None |}.

(** One HTTP stack behind both clients: [axios.get] and [fetch] deliver the
    same answers, those of [Fixture.indexBehindRobots]. *)
Definition sameClient : Platform :=
  {| axiosGet := axiosGet Fixture.indexBehindRobots;
     fetch := axiosGet Fixture.indexBehindRobots true 0%Z;
     xmlParse := xmlParse Fixture.indexBehindRobots;
     urlPathname := Fixture.plainPathname;
     fetchPageTitle := fun _ => None;
     clock := fun _ => 0%Z;
     randomId := fun _ => "";
     storageFault := fun _ _ => None |}.

(** An item of [site_1] waiting for review. *)
Definition gameItem (id url : string) (discoveredAt : Z) : NewItem.t :=
  {| NewItem.id := id;
     NewItem.siteId := "site_1";
     NewItem.domain := "x.com";
     NewItem.url := url;
     NewItem.keywordAuto := "super cool game";
     NewItem.keywordFinal := "super cool game";
     NewItem.reviewStatus := pending;
     NewItem.urlType := UrlType.game;
     NewItem.title := None;
     NewItem.discoveredAt := discoveredAt;
     NewItem.sourceSitemapUrl := "https://x.com/sitemap.xml" |}.

(** [Fixture.ready] with three items found by earlier scans. *)
Definition reviewing : Machine :=
  {| sites := sites Fixture.ready; seen := seen Fixture.ready;
     newItems := [gameItem "new_1" "https://x.com/g1" 1700000000010;
                  gameItem "new_2" "https://x.com/g2" 1700000000030;
                  gameItem "new_3" "https://x.com/g3" 1700000000020];
     trace := []; clockReads := 0; idsDrawn := 0 |}.

(** The items a scan of [Fixture.ready] finds in [Fixture.oneNewPage]. *)
Definition foundItems : list NewItem.t :=
  Fixture.scannedItems (Fixture.serving Fixture.oneNewPage).

(** The record a baseline of [Fixture.fresh] over a sitemap returns, if it
    returns one. *)
Definition baselinedRecord : Site.t :=
  match fst (Api.baseline (Fixture.serving Fixture.oneNewPage) "site_1" Fixture.fresh) with
  | Ok site => site
  | Throw _ => Fixture.newSite
  end.

Definition firstBaseline : Result Site.t * Machine :=
  Api.baseline (Fixture.serving Fixture.oneNewPage) "site_1" Fixture.fresh.

(** A scan of the same sitemap right after [firstBaseline]. *)
Definition rescan : Result (Site.t * list NewItem.t) * Machine :=
  Api.scan (Fixture.serving Fixture.oneNewPage) "site_1" (snd firstBaseline).

Definition rescannedRecord : Site.t :=
  match fst rescan with
  | Ok (site, _) => site
  | Throw _ => Fixture.newSite
  end.

Definition rescannedItems : list NewItem.t :=
  match fst rescan with
  | Ok (_, items) => items
  | Throw _ => []
  end.

(** A second scan of [Fixture.ready] over [Fixture.oneNewPage]. *)
Definition scanAgain : Result (Site.t * list NewItem.t) * Machine :=
  Api.scan (Fixture.serving Fixture.oneNewPage) "site_1"
    (snd (Api.scan (Fixture.serving Fixture.oneNewPage) "site_1" Fixture.ready)).

Definition scannedAgainRecord : Site.t :=
  match fst scanAgain with
  | Ok (site, _) => site
  | Throw _ => Fixture.readySite
  end.

Definition scannedAgainItems : list NewItem.t :=
  match fst scanAgain with
  | Ok (_, items) => items
  | Throw _ => []
  end.

End Cases.

(** * Properties *)

(** Run the next storage call of the goal both ways. *)
Tactic Notation "storage_call" "as" simple_intropattern(e) ident(m) "eqn" ":" ident(H) :=
  match goal with
  | |- context [Storage.call ?p ?ev ?mm] =>
      destruct (Storage.call p ev mm) as [[[]|e] m] eqn:H
  end.

(** Run the catch block of the goal, which [lemma] describes. *)
Tactic Notation "catch_block" "using" constr(lemma) "as" simple_intropattern(pat) :=
  match goal with
  | |- context [@Api.recordFailure ?A ?p ?ss ?i ?s ?st ?ee ?mm] =>
      destruct (lemma A p ss i s st ee mm) as pat
  end.

(** ** Checks against known values *)

Example normalize_frag : Utils.normalizeUrl "http://x.com/a/#frag" = "http://x.com/a".
Proof. reflexivity. Qed.
Example proto1 : Utils.getProtocol "10.0.0.1:8080" = "http://".
Proof. reflexivity. Qed.
Example proto2 : Utils.getProtocol "example.com" = "https://".
Proof. reflexivity. Qed.
Example proto3 : Utils.getProtocol "localhost.evil.com" = "http://".
Proof. reflexivity. Qed.
Example proto4 : Utils.getProtocol "1234.0.0.1" = "https://".
Proof. reflexivity. Qed.
Example lines1 : Str.splitLines ("a" +:+ String "010" "b" +:+ String "010" "") = ["a"; "b"; ""].
Proof. reflexivity. Qed.
Example sha_abc : Utils.hashUrl "abc" = "a9993e364706816aba3e25717850c26c9cd0d89d".
Proof. vm_compute. reflexivity. Qed.
Example sha_empty : Utils.hashUrl "" = "da39a3ee5e6b4b0d3255bfef95601890afd80709".
Proof. vm_compute. reflexivity. Qed.
Example sha_long :
  Utils.hashUrl "abcdbcdecdefdefgefghfghighijhijkijkljklmklmnlmnomnopnopq"
  = "84983e441c3bd26ebaae4aa1f95129e5e54670f1".
Proof. vm_compute. reflexivity. Qed.
Example classify_examples :
  Utils.classifyUrl (Fixture.serving []) "https://site.com/" = UrlType.home
  /\ Utils.classifyUrl (Fixture.serving []) "https://site.com/c/puzzle" = UrlType.category
  /\ Utils.classifyUrl (Fixture.serving []) "https://site.com/t/fun" = UrlType.tag
  /\ Utils.classifyUrl (Fixture.serving []) "https://site.com/super-cool-game" = UrlType.game
  /\ Utils.classifyUrl (Fixture.serving []) "" = UrlType.unknown.
Proof. repeat split; reflexivity. Qed.
Example keyword_example :
  Utils.extractGameKeyword (Fixture.serving []) "https://site.com/super-cool-game"
  = "super cool game".
Proof. reflexivity. Qed.
Example robots_scenario :
  Scanner.discoverSitemap Fixture.indexBehindRobots "example.com"
  = {| Scanner.url := "https://example.com/s1.xml";
       Scanner.status := unsupported;
       Scanner.error := Some "Type: sitemapindex" |}.
Proof. reflexivity. Qed.
Example baseline_then_scan_scenario :
  match Api.baseline (Fixture.serving ["https://x.com/a"; "https://x.com/b"; "https://x.com/c"])
                     "site_1" Fixture.fresh with
  | (Ok site, m1) =>
      Site.seenCount site = 3
      /\ (ScanSummary.sampleUrls <$> Site.lastResult site)
         = Some ["https://x.com/a"; "https://x.com/b"; "https://x.com/c"]
      /\ match Api.scan (Fixture.serving ["https://x.com/a"; "https://x.com/b";
                                          "https://x.com/c"; "https://x.com/d"])
                        "site_1" m1 with
         | (Ok (_, items), _) =>
             map NewItem.url items = ["https://x.com/d"]
             /\ map NewItem.reviewStatus items = [pending]
         | _ => False
         end
  | _ => False
  end.
Proof. vm_compute. repeat split; reflexivity. Qed.
Example sha_latin1 :
  Utils.hashUrl ("http://x.com/" +:+ String "233" "") = "4bb257abdd103fcb9f7e674fcd35ae05aa436030".
Proof. vm_compute. reflexivity. Qed.

(** ** Strings, [normalizeUrl] and [getProtocol] *)

Module StrFacts.
Import Str StrSpec.

Lemma app_cons c a b : String c a +:+ b = String c (a +:+ b).
Proof. reflexivity. Qed.

Lemma app_nil_l b : "" +:+ b = b.
Proof. reflexivity. Qed.

Lemma trimStart_headOk s : headOk (trimStart s).
Proof.
  induction s as [|c s IH]; simpl; [done|].
  destruct (isWhiteSpace c) eqn:E; [done|]. simpl. done.
Qed.

Lemma trimStart_id s : headOk s -> trimStart s = s.
Proof. destruct s as [|c s]; simpl; [done|]. by intros ->. Qed.

Lemma trimEnd_cons c s : isWhiteSpace c = false -> trimEnd (String c s) = String c (trimEnd s).
Proof. intros H. simpl. rewrite H. by destruct (trimEnd s). Qed.

Lemma trimEnd_headOk s : headOk s -> headOk (trimEnd s).
Proof. destruct s as [|c s]; [done|]. intros H. rewrite trimEnd_cons by done. done. Qed.

Lemma take_headOk n s : headOk s -> headOk (take n s).
Proof. destruct s as [|c s], n; simpl; done. Qed.

Lemma dropLast_headOk s : headOk s -> headOk (dropLast s).
Proof. destruct s as [|c [|d s]]; simpl; done. Qed.

Lemma lastChar_cons c d s : lastChar (String c (String d s)) = lastChar (String d s).
Proof. reflexivity. Qed.

Lemma endsWithChar_lastChar c s : endsWithChar c s = true <-> lastChar s = Some c.
Proof.
  induction s as [|a s IH]; simpl; [done|].
  destruct s as [|d s].
  - rewrite Ascii.eqb_eq. split; congruence.
  - apply IH.
Qed.

Lemma trimEnd_id s :
  (forall c, lastChar s = Some c -> isWhiteSpace c = false) -> trimEnd s = s.
Proof.
  induction s as [|a s IH]; [done|]. intros H.
  destruct s as [|d s].
  - simpl. rewrite (H a) by done. done.
  - rewrite lastChar_cons in H. simpl. simpl in IH. rewrite IH by done. done.
Qed.

Lemma indexOf_take c s n : indexOf c s = Some n -> indexOf c (take n s) = None.
Proof.
  revert n. induction s as [|a s IH]; intros n; simpl; [done|].
  destruct (Ascii.eqb a c) eqn:E.
  - intros [= <-]. done.
  - destruct (indexOf c s) as [k|] eqn:Ek; simpl; [|done].
    intros [= <-]. simpl. rewrite E. by rewrite (IH k).
Qed.

Lemma indexOf_dropLast c s : indexOf c s = None -> indexOf c (dropLast s) = None.
Proof.
  induction s as [|a s IH]; simpl; [done|].
  destruct (Ascii.eqb a c) eqn:E; [done|].
  destruct (indexOf c s) eqn:Ek; simpl; [done|]. intros _.
  destruct s as [|d s]; [done|]. simpl. rewrite E. simpl in IH. by rewrite IH.
Qed.

Lemma normalizeUrl_headOk x : headOk (Utils.normalizeUrl x).
Proof.
  unfold Utils.normalizeUrl, trim.
  assert (H : headOk (trimEnd (trimStart x))) by (apply trimEnd_headOk, trimStart_headOk).
  destruct (indexOf _ _); destruct (endsWithChar _ _);
    auto using take_headOk, dropLast_headOk.
Qed.

Lemma normalizeUrl_noHash x : indexOf "#" (Utils.normalizeUrl x) = None.
Proof.
  unfold Utils.normalizeUrl.
  destruct (indexOf "#" (trim x)) as [n|] eqn:E.
  - apply indexOf_take in E. destruct (endsWithChar _ _); auto using indexOf_dropLast.
  - destruct (endsWithChar _ _); auto using indexOf_dropLast.
Qed.

Lemma normalizeUrl_fixed r :
  headOk r -> indexOf "#" r = None -> endsClean r = true -> Utils.normalizeUrl r = r.
Proof.
  intros Hh Hn Hc. unfold endsClean in Hc.
  assert (Ht : trim r = r).
  { unfold trim. rewrite trimStart_id by done. apply trimEnd_id.
    intros c Hl. rewrite Hl in Hc. by destruct (isWhiteSpace c). }
  unfold Utils.normalizeUrl. rewrite Ht, Hn.
  destruct (endsWithChar "/" r) eqn:E; [|done].
  apply endsWithChar_lastChar in E. rewrite E in Hc. simpl in Hc. done.
Qed.

Lemma trimEnd_app a b : trimEnd b <> "" -> trimEnd (a +:+ b) = a +:+ trimEnd b.
Proof.
  intros Hb. induction a as [|c a IH]; [done|].
  rewrite !app_cons. simpl. rewrite IH.
  destruct (a +:+ trimEnd b) eqn:E; [|done].
  destruct a; [|done]. by rewrite app_nil_l in E.
Qed.

Lemma indexOf_app c a b :
  indexOf c a = None -> indexOf c (a +:+ String c b) = Some (String.length a).
Proof.
  induction a as [|d a IH]; simpl.
  - intros _. cbn. by rewrite Ascii.eqb_refl.
  - destruct (Ascii.eqb d c); [done|].
    destruct (indexOf c a); [done|]. intros _. by rewrite IH.
Qed.

Lemma take_app a b : take (String.length a) (a +:+ b) = a.
Proof. induction a as [|c a IH]; [by destruct b|]. rewrite app_cons. simpl. by rewrite IH. Qed.

Lemma endsWithChar_snoc c a : endsWithChar c (a +:+ String c "") = true.
Proof.
  induction a as [|d a IH]; [simpl; by rewrite Ascii.eqb_refl|].
  rewrite app_cons. simpl. destruct (a +:+ String c "") eqn:E; [|done].
  by destruct a.
Qed.

Lemma dropLast_snoc c a : dropLast (a +:+ String c "") = a.
Proof.
  induction a as [|d a IH]; [done|].
  rewrite app_cons. simpl. destruct (a +:+ String c "") eqn:E.
  - by destruct a.
  - by rewrite IH.
Qed.

Lemma app_assoc' a b c : (a +:+ b) +:+ c = a +:+ (b +:+ c).
Proof. induction a as [|x a IH]; [done|]. rewrite !app_cons. by rewrite IH. Qed.

Lemma normalizeUrl_slash_fragment s t :
  headOk s -> indexOf "#" s = None -> Utils.normalizeUrl (s +:+ "/#" +:+ t) = s.
Proof.
  intros Hh Hn. unfold Utils.normalizeUrl, trim.
  assert (Hs : trimStart (s +:+ "/#" +:+ t) = s +:+ "/#" +:+ t).
  { apply trimStart_id. destruct s; done. }
  rewrite Hs.
  assert (Ht : trimEnd ("/#" +:+ t) = "/#" +:+ trimEnd t).
  { change ("/#" +:+ t) with (String "/" (String "#" t)). by rewrite !trimEnd_cons. }
  rewrite trimEnd_app by (rewrite Ht; done). rewrite Ht.
  change ("/#" +:+ trimEnd t) with ("/" +:+ String "#" (trimEnd t)).
  rewrite <- app_assoc'.
  rewrite indexOf_app.
  2:{ clear -Hn. induction s as [|c s IH]; [done|]. rewrite app_cons. simpl in *.
      destruct (Ascii.eqb c "#"); [done|]. destruct (indexOf "#" s); [done|]. by rewrite IH. }
  rewrite take_app. rewrite endsWithChar_snoc. apply dropLast_snoc.
Qed.

Lemma trimStart_split s :
  exists pre, s = pre +:+ trimStart s /\ Chars.allChars isWhiteSpace pre = true.
Proof.
  induction s as [|c s (pre & Hs & Hp)]; [by exists ""|]. cbn [trimStart].
  destruct (isWhiteSpace c) eqn:E; [|by exists ""].
  exists (String c pre). rewrite app_cons, <- Hs. cbn. by rewrite E, Hp.
Qed.

Lemma trimEnd_split s :
  exists post, s = trimEnd s +:+ post /\ Chars.allChars isWhiteSpace post = true.
Proof.
  induction s as [|c s (post & Hs & Hp)]; [by exists ""|]. cbn [trimEnd].
  destruct (trimEnd s) as [|d t] eqn:Et.
  - rewrite app_nil_l in Hs. subst post. destruct (isWhiteSpace c) eqn:E.
    + exists (String c s). rewrite app_nil_l. cbn. by rewrite E, Hp.
    + exists s. by rewrite app_cons, app_nil_l.
  - exists post. by rewrite app_cons, <- Hs.
Qed.

Lemma trimEnd_lastChar s c : lastChar (trimEnd s) = Some c -> isWhiteSpace c = false.
Proof.
  induction s as [|a s IH]; [done|]. cbn [trimEnd].
  destruct (trimEnd s) as [|d t] eqn:Et.
  - destruct (isWhiteSpace a) eqn:E; [done|]. cbn. by intros [= <-].
  - rewrite lastChar_cons. exact IH.
Qed.

Lemma indexOf_split c s n :
  indexOf c s = Some n -> exists rest, s = take n s +:+ String c rest.
Proof.
  revert n. induction s as [|a s IH]; intros n; cbn [indexOf]; [done|].
  destruct (Ascii.eqb_spec a c) as [->|Hne].
  - intros [= <-]. by exists s.
  - destruct (indexOf c s) as [k|]; [|done]. intros [= <-].
    destruct (IH k eq_refl) as [rest Hr]. exists rest. cbn [take].
    by rewrite app_cons, <- Hr.
Qed.

Lemma endsWithChar_split c s : endsWithChar c s = true -> s = dropLast s +:+ String c "".
Proof.
  induction s as [|a s IH]; [done|]. cbn [endsWithChar dropLast].
  destruct s as [|b s].
  - intros ->%Ascii.eqb_eq. done.
  - intros H. rewrite app_cons. by rewrite <- IH.
Qed.

(** C2 (amended).  [normalizeUrl] trims, drops everything from the first
    '#' onward and then drops exactly one trailing slash.  For every input
    [x] this is said in full: [x] is white space, a core that neither
    begins nor ends with white space, and white space; what is kept of the
    core is what stands before its first '#', or all of it when it has
    none; the result is what is kept without its last character when that
    is a slash, and what is kept otherwise.  So
    normalize("http://x.com/a/#frag") = "http://x.com/a" and, for every [s]
    without leading white space and without '#', the input [s/#t] is
    normalised to [s] (one slash removed even when [s] itself ends with
    slashes).  It is idempotent on every input whose normal form ends
    neither with a slash nor with white space. *)
Theorem normalizeUrl_strips_one_slash_and_fragment :
  Utils.normalizeUrl "http://x.com/a/#frag" = "http://x.com/a"
  /\ (forall s t, headOk s -> indexOf "#" s = None ->
        Utils.normalizeUrl (s +:+ "/#" +:+ t) = s)
  /\ (forall x, endsClean (Utils.normalizeUrl x) = true ->
        Utils.normalizeUrl (Utils.normalizeUrl x) = Utils.normalizeUrl x)
  /\ (forall x,
        exists pre core post kept,
          x = pre +:+ core +:+ post
          /\ Chars.allChars isWhiteSpace pre = true
          /\ Chars.allChars isWhiteSpace post = true
          /\ headOk core
          /\ (forall c, lastChar core = Some c -> isWhiteSpace c = false)
          /\ indexOf "#" kept = None
          /\ (core = kept \/ exists fragment, core = kept +:+ "#" +:+ fragment)
          /\ (kept = Utils.normalizeUrl x +:+ "/"
              \/ (endsWithChar "/" kept = false /\ kept = Utils.normalizeUrl x))).
Proof.
  split; [reflexivity|]. split; [exact normalizeUrl_slash_fragment|]. split.
  { intros x Hc.
    apply normalizeUrl_fixed; [apply normalizeUrl_headOk|apply normalizeUrl_noHash|done]. }
  intros x.
  destruct (trimStart_split x) as (pre & Hx & Hpre).
  destruct (trimEnd_split (trimStart x)) as (post & Ht & Hpost).
  fold (trim x) in Ht.
  set (kept := match indexOf "#" (trim x) with
               | Some anchorIdx => take anchorIdx (trim x)
               | None => trim x
               end).
  exists pre, (trim x), post, kept.
  split; [by rewrite <- Ht|]. split; [exact Hpre|]. split; [exact Hpost|].
  split; [apply trimEnd_headOk, trimStart_headOk|].
  split; [intros c; apply trimEnd_lastChar|].
  split; [|split].
  - unfold kept. destruct (indexOf "#" (trim x)) as [n|] eqn:E; [|exact E].
    by apply indexOf_take.
  - unfold kept. destruct (indexOf "#" (trim x)) as [n|] eqn:E; [|by left].
    right. destruct (indexOf_split _ _ _ E) as [rest Hr]. by exists rest.
  - unfold Utils.normalizeUrl. fold kept.
    destruct (endsWithChar "/" kept) eqn:E; [left|by right].
    by apply endsWithChar_split.
Qed.

(** C2, the instance used as witness: a padded URL with a slash and a
    fragment. *)
Lemma normalizeUrl_stable_witness :
  endsClean (Utils.normalizeUrl " http://x.com/a/#frag ") = true
  /\ Utils.normalizeUrl (Utils.normalizeUrl " http://x.com/a/#frag ")
     = Utils.normalizeUrl " http://x.com/a/#frag ".
Proof.
  split; [reflexivity|].
  apply (proj1 (proj2 (proj2 normalizeUrl_strips_one_slash_and_fragment))). reflexivity.
Defined.

(** C2 as stated fails: with two trailing slashes the second application
    removes one more. *)
Lemma normalizeUrl_not_idempotent :
  Utils.normalizeUrl "http://x.com/a//" = "http://x.com/a/"
  /\ Utils.normalizeUrl (Utils.normalizeUrl "http://x.com/a//") = "http://x.com/a"
  /\ Utils.normalizeUrl (Utils.normalizeUrl "http://x.com/a//")
     <> Utils.normalizeUrl "http://x.com/a//".
Proof. split; [reflexivity|]. split; [reflexivity|]. vm_compute. discriminate. Qed.

Lemma startsWith_spec p s : startsWith p s = true <-> exists r, s = p +:+ r.
Proof.
  revert s. induction p as [|a p IH]; intros s; simpl.
  - split; [eauto|done].
  - destruct s as [|b s].
    + split; [done|]. by intros [r Hr].
    + destruct (Ascii.eqb a b) eqn:E.
      * apply Ascii.eqb_eq in E as ->. rewrite IH.
        split; intros [r Hr]; exists r; rewrite ?app_cons in *; congruence.
      * apply Ascii.eqb_neq in E. split; [done|]. intros [r Hr]. rewrite app_cons in Hr. congruence.
Qed.

Lemma includes_spec p s : includes p s = true <-> exists a b, s = a +:+ p +:+ b.
Proof.
  induction s as [|c s IH].
  - cbn [includes]. rewrite orb_false_r, startsWith_spec. split.
    + intros [r Hr]. by exists "", r.
    + intros [a [b Hab]]. destruct a; [by exists b|done].
  - cbn [includes]. rewrite orb_true_iff, startsWith_spec, IH. split.
    + intros [[r Hr]|[a [b Hab]]]; [by exists "", r|]. exists (String c a), b. by rewrite Hab.
    + intros [a [b Hab]]. destruct a as [|x a]; [left; by exists b|].
      right. exists a, b. rewrite app_cons in Hab. congruence.
Qed.

Lemma spanDigits_spec s d r :
  spanDigits s = (d, r) -> s = d +:+ r /\ allDigits d = true /\ stopsDigits r.
Proof.
  revert d r. induction s as [|c s IH]; intros d r; simpl.
  - intros [= <- <-]. done.
  - destruct (isDigit c) eqn:E.
    + destruct (spanDigits s) as [d' r'] eqn:Es. intros [= <- <-].
      destruct (IH d' r' eq_refl) as (-> & Hd & Hr). simpl. rewrite E. done.
    + intros [= <- <-]. simpl. done.
Qed.

Lemma spanDigits_app d r :
  allDigits d = true -> stopsDigits r -> spanDigits (d +:+ r) = (d, r).
Proof.
  intros Hd Hr. induction d as [|c d IH]; simpl in *.
  - destruct r as [|c r]; simpl in *; [done|]. by rewrite Hr.
  - apply andb_true_iff in Hd as [Hc Hd]. rewrite Hc, IH by done. done.
Qed.

Lemma octet_spec s r :
  Utils.octet s = Some r <-> exists d, isOctetText d /\ stopsDigits r /\ s = d +:+ r.
Proof.
  unfold Utils.octet, isOctetText. split.
  - destruct (spanDigits s) as [d r'] eqn:E. apply spanDigits_spec in E as (-> & Hd & Hr).
    destruct (_ && _) eqn:Hl; [|done]. intros [= <-].
    apply andb_true_iff in Hl as [H1 H2]. apply Nat.leb_le in H1, H2. eauto 10.
  - intros (d & [Hd Hl] & Hr & ->). rewrite spanDigits_app by done.
    destruct Hl as [H1 H2]. apply Nat.leb_le in H1, H2. by rewrite H1, H2.
Qed.

Lemma dottedOctet_spec s r :
  Utils.dottedOctet s = Some r <-> exists d, isOctetText d /\ s = d +:+ "." +:+ r.
Proof.
  unfold Utils.dottedOctet. split.
  - destruct (Utils.octet s) as [r'|] eqn:E; [|done].
    apply octet_spec in E as (d & Hd & Hr & ->).
    destruct r' as [|c r']; [done|].
    destruct (Ascii.eqb_spec c "."%char) as [->|Hne].
    + intros [= <-]. eauto.
    + intros H. exfalso. revert H.
      destruct c as [[] [] [] [] [] [] [] []]; try done.
  - intros (d & Hd & ->).
    assert (E : Utils.octet (d +:+ "." +:+ r) = Some ("." +:+ r)).
    { apply octet_spec. exists d. done. }
    rewrite E. done.
Qed.

Lemma app_nil_r' a : a +:+ "" = a.
Proof. induction a as [|c a IH]; [done|]. rewrite app_cons. by rewrite IH. Qed.

Lemma isBareIPv4_spec s : Utils.isBareIPv4 s = true <-> BareIPv4 s.
Proof.
  unfold Utils.isBareIPv4, BareIPv4. split.
  - destruct (Utils.dottedOctet s) as [r1|] eqn:E1; [|done].
    destruct (Utils.dottedOctet r1) as [r2|] eqn:E2; [|done].
    destruct (Utils.dottedOctet r2) as [r3|] eqn:E3; [|done].
    destruct (Utils.octet r3) as [r4|] eqn:E4; [|done].
    apply dottedOctet_spec in E1 as (a & Ha & ->).
    apply dottedOctet_spec in E2 as (b & Hb & ->).
    apply dottedOctet_spec in E3 as (c & Hc & ->).
    apply octet_spec in E4 as (d & Hd & Hr & ->).
    intros H. exists a, b, c, d. do 4 (split; [done|]).
    destruct r4 as [|x port].
    + left. by rewrite app_nil_r'.
    + destruct (Ascii.eqb_spec x ":"%char) as [->|Hne].
      * apply andb_true_iff in H as [Hp Hq]. right. exists port. split; [done|].
        split; [|done]. intros ->. done.
      * exfalso. revert H. destruct x as [[] [] [] [] [] [] [] []]; try done.
  - intros (a & b & c & d & Ha & Hb & Hc & Hd & H).
    assert (forall r, Utils.dottedOctet (a +:+ "." +:+ b +:+ "." +:+ c +:+ "." +:+ r)
                      = Some (b +:+ "." +:+ c +:+ "." +:+ r)) as E1
      by (intros r; apply dottedOctet_spec; eauto).
    assert (forall r, Utils.dottedOctet (b +:+ "." +:+ c +:+ "." +:+ r)
                      = Some (c +:+ "." +:+ r)) as E2
      by (intros r; apply dottedOctet_spec; eauto).
    assert (forall r, Utils.dottedOctet (c +:+ "." +:+ r) = Some r) as E3
      by (intros r; apply dottedOctet_spec; eauto).
    destruct H as [->|(port & Hp & Hne & ->)]; rewrite E1, E2, E3.
    + assert (Utils.octet d = Some "") as ->; [|done].
      apply octet_spec. exists d. by rewrite app_nil_r'.
    + assert (Utils.octet (d +:+ ":" +:+ port) = Some (":" +:+ port)) as ->.
      { apply octet_spec. exists d. done. }
      change (":" +:+ port) with (String ":" port). cbn. rewrite Hp. destruct port; done.
Qed.

Lemma getProtocol_cases domain :
  Utils.getProtocol domain = (if Utils.isLocal domain then "http://" else "https://").
Proof. reflexivity. Qed.

Lemma isLocal_spec domain :
  Utils.isLocal domain = true <->
  (exists r, domain = "localhost" +:+ r)
  \/ (exists r, domain = "127.0.0.1" +:+ r)
  \/ (exists r, domain = "0.0.0.0" +:+ r)
  \/ (exists a b, domain = a +:+ "localhost:" +:+ b)
  \/ BareIPv4 domain.
Proof.
  unfold Utils.isLocal. rewrite !orb_true_iff, !startsWith_spec, includes_spec, isBareIPv4_spec.
  tauto.
Qed.

(** C4 (amended).  The scheme is "http://" exactly when the domain starts
    with localhost, 127.0.0.1 or 0.0.0.0, contains "localhost:", or is a
    bare IPv4 address with an optional port; it is "https://" for every
    other domain.  In particular the four cases the specification names get
    "http://". *)
Theorem getProtocol_http_iff_local_prefix domain :
  (Utils.getProtocol domain = "http://" <->
     (exists r, domain = "localhost" +:+ r)
     \/ (exists r, domain = "127.0.0.1" +:+ r)
     \/ (exists r, domain = "0.0.0.0" +:+ r)
     \/ (exists a b, domain = a +:+ "localhost:" +:+ b)
     \/ BareIPv4 domain)
  /\ (Utils.getProtocol domain <> "http://" <-> Utils.getProtocol domain = "https://")
  /\ (announcedLocal domain -> Utils.getProtocol domain = "http://").
Proof.
  assert (H : Utils.getProtocol domain = "http://" <-> Utils.isLocal domain = true).
  { rewrite getProtocol_cases. destruct (Utils.isLocal domain); split; done. }
  split; [by rewrite H, isLocal_spec|].
  split.
  { rewrite getProtocol_cases. destruct (Utils.isLocal domain); split; done. }
  intros Ha. apply H, isLocal_spec.
  destruct Ha as [->|[->|[->|Hip]]].
  - left. by exists "".
  - right. left. by exists "".
  - do 2 right. left. by exists "".
  - by do 4 right.
Qed.

(** C4, the instance used as witness: a bare IPv4 address with a port. *)
Lemma getProtocol_ipv4_witness :
  announcedLocal "10.0.0.1:8080" /\ Utils.getProtocol "10.0.0.1:8080" = "http://".
Proof.
  assert (H : announcedLocal "10.0.0.1:8080").
  { do 3 right. apply isBareIPv4_spec. reflexivity. }
  split; [exact H|].
  exact (proj2 (proj2 (getProtocol_http_iff_local_prefix "10.0.0.1:8080")) H).
Defined.

(** C4 as stated fails: a public host name that merely starts with
    "localhost" is given "http://". *)
Lemma getProtocol_localhost_prefix_counterexample :
  Utils.getProtocol "localhost.example.com" = "http://"
  /\ ~ announcedLocal "localhost.example.com".
Proof.
  split; [reflexivity|]. intros [H|[H|[H|H]]]; try discriminate H.
  apply isBareIPv4_spec in H. vm_compute in H. discriminate H.
Qed.

End StrFacts.

(** ** [discoverSitemap] *)

Module ScannerFacts.

Lemma not_hasRoot name xmlData v :
  Js.prop name xmlData = Ok v -> ~ hasRoot name xmlData -> Js.truthy v = false.
Proof.
  intros Hp Hn. destruct (Js.truthy v) eqn:E; [|done]. exfalso. apply Hn. by exists v.
Qed.

(** C3 (amended).  What [discoverSitemap] makes of the answer for the
    candidate URL.  A response that axios hands over with a status other
    than 200, which by its default status check is a status from 201 to
    299, gives [failed] with "HTTP {code}".  A body received with status 200
    gives [ok] when the parsed document has a truthy [urlset] entry;
    otherwise [unsupported] with "Type: sitemapindex" when it has a truthy
    [sitemapindex] entry; [unsupported] with "Unknown XML structure" for any
    other document.  A request without response and a parser that throws
    give [failed] with the message of the exception, or with "Network error"
    when the message is empty.  Nothing is said here of an answer whose
    status axios rejects. *)
Theorem discoverSitemap_maps_response p domain :
  let target := Scanner.targetSitemapUrl p domain in
  let d := Scanner.discoverSitemap p domain in
  Scanner.url d = target
  /\ (Scanner.messageOr "" = "Network error"
      /\ forall message, message <> "" -> Scanner.messageOr message = message)
  /\ (forall message,
        axiosGet p false 10000 target = Throw message ->
        Scanner.status d = failed /\ Scanner.error d = Some (Scanner.messageOr message))
  /\ (forall code data,
        axiosGet p false 10000 target = Ok (code, data) ->
        (code <> 200%Z ->
         Scanner.status d = failed /\ Scanner.error d = Some ("HTTP " +:+ showZ code))
        /\ (code = 200%Z -> readsDocument p data d))
  /\ (forall answer,
        axiosGet p false 10000 target = Axios.settle false answer ->
        (forall message,
           answer = Throw message ->
           Scanner.status d = failed /\ Scanner.error d = Some (Scanner.messageOr message))
        /\ (forall code data,
              answer = Ok (code, data) ->
              ((200 < code < 300)%Z ->
               Scanner.status d = failed
               /\ Scanner.error d = Some ("HTTP " +:+ showZ code))
              /\ (code = 200%Z -> readsDocument p data d))).
Proof.
  intros target d.
  assert (Hclient :
    (forall message,
       axiosGet p false 10000 target = Throw message ->
       Scanner.status d = failed /\ Scanner.error d = Some (Scanner.messageOr message))
    /\ (forall code data,
          axiosGet p false 10000 target = Ok (code, data) ->
          (code <> 200%Z ->
           Scanner.status d = failed /\ Scanner.error d = Some ("HTTP " +:+ showZ code))
          /\ (code = 200%Z -> readsDocument p data d))).
  { subst d. unfold Scanner.discoverSitemap. fold target. unfold Scanner.validateSitemap.
    split; [by intros message ->|].
    intros code data ->. split.
    { intros Hne. destruct (Z.eqb_spec code 200); done. }
    intros ->. cbn [Z.eqb Pos.eqb negb]. split.
    { intros message ->. done. }
    intros xmlData ->. split; [|split; [|split]].
    - intros (v & -> & ->). done.
    - intros Hn (v & Hv & Ht).
      destruct (Js.prop "urlset" xmlData) as [u|] eqn:Eu.
      + rewrite (not_hasRoot _ _ _ Eu Hn), Hv, Ht. done.
      + destruct xmlData; done.
    - intros Hu Hn1 Hn2. destruct xmlData; try done.
      all: cbn [Js.prop] in *.
      all: try (assert (Js.truthy Js.Undefined = false) as -> by done; done).
      rewrite (not_hasRoot "urlset" (Js.Obj fields) _ eq_refl Hn1).
      rewrite (not_hasRoot "sitemapindex" (Js.Obj fields) _ eq_refl Hn2). done.
    - intros ->. done. }
  destruct Hclient as [Hthrow Hresponse].
  split.
  { subst d. unfold Scanner.discoverSitemap. fold target. unfold Scanner.validateSitemap.
    destruct (axiosGet p false 10000 target) as [[code data]|msg]; [|done].
    destruct (negb _); [done|].
    destruct (xmlParse p data) as [x|]; [|done].
    destruct (Js.prop "urlset" x) as [u|]; [|done].
    destruct (Js.truthy u); [done|].
    destruct (Js.prop "sitemapindex" x) as [s|]; [|done].
    by destruct (Js.truthy s). }
  split.
  { split; [done|]. intros message Hne. unfold Scanner.messageOr.
    by destruct (String.eqb_spec message ""). }
  split; [exact Hthrow|]. split; [exact Hresponse|].
  intros answer Hsettle. split.
  - intros message ->. by apply Hthrow.
  - intros code data ->. unfold Axios.settle in Hsettle. cbn [orb] in Hsettle. split.
    + intros Hcode.
      replace (Axios.validStatus code) with true in Hsettle
        by (unfold Axios.validStatus; symmetry; apply andb_true_intro; lia).
      destruct (Hresponse code data Hsettle) as [H _]. apply H. lia.
    + intros ->. change (axiosGet p false 10000 target = Ok (200%Z, data)) in Hsettle.
      destruct (Hresponse 200%Z data Hsettle) as [_ H]. by apply H.
Qed.

(** C3, the instance used as witness: robots.txt of example.com names
    /s1.xml, whose root is a sitemap index with one entry. *)
Lemma discoverSitemap_index_witness :
  axiosGet Fixture.indexBehindRobots false 10000
    (Scanner.targetSitemapUrl Fixture.indexBehindRobots "example.com")
    = Axios.settle false
        (Ok (200%Z, "<sitemapindex><sitemap><loc>https://example.com/a.xml</loc>"
                    +:+ "</sitemap></sitemapindex>"))
  /\ Scanner.status (Scanner.discoverSitemap Fixture.indexBehindRobots "example.com")
     = unsupported
  /\ Scanner.error (Scanner.discoverSitemap Fixture.indexBehindRobots "example.com")
     = Some "Type: sitemapindex".
Proof.
  split; [reflexivity|].
  destruct (discoverSitemap_maps_response Fixture.indexBehindRobots "example.com")
    as (_ & _ & _ & _ & H).
  destruct (H (Ok (200%Z, "<sitemapindex><sitemap><loc>https://example.com/a.xml</loc>"
                          +:+ "</sitemap></sitemapindex>")) eq_refl) as [_ Hanswer].
  destruct (Hanswer _ _ eq_refl) as [_ H200].
  destruct (H200 eq_refl) as [_ Hdoc].
  destruct (Hdoc _ eq_refl) as (_ & Hindex & _).
  apply Hindex.
  - intros (v & Hv & Ht). vm_compute in Hv. injection Hv as <-. discriminate Ht.
  - eexists. split; reflexivity.
Defined.

(** C3 as stated fails twice.  For an exception whose message is empty the
    error recorded is the fallback text, not the message.  For an empty
    [urlset] element, which the parser delivers as an empty string, the root
    is [urlset] and the answer is [unsupported], not [ok]. *)
Lemma discoverSitemap_empty_message_and_empty_root_counterexample :
  (axiosGet Fixture.silentFailure false 10000
     (Scanner.targetSitemapUrl Fixture.silentFailure "example.com") = Throw ""
   /\ Scanner.status (Scanner.discoverSitemap Fixture.silentFailure "example.com") = failed
   /\ Scanner.error (Scanner.discoverSitemap Fixture.silentFailure "example.com")
      = Some "Network error"
   /\ Scanner.error (Scanner.discoverSitemap Fixture.silentFailure "example.com")
      <> Some "")
  /\ (axiosGet Cases.emptyUrlset false 10000
        (Scanner.targetSitemapUrl Cases.emptyUrlset "example.com") = Ok (200%Z, "<urlset/>")
      /\ xmlParse Cases.emptyUrlset "<urlset/>" = Ok (Js.Obj [("urlset", Js.Str "")])
      /\ Scanner.status (Scanner.discoverSitemap Cases.emptyUrlset "example.com")
         = unsupported
      /\ Scanner.error (Scanner.discoverSitemap Cases.emptyUrlset "example.com")
         = Some "Unknown XML structure"
      /\ Scanner.status (Scanner.discoverSitemap Cases.emptyUrlset "example.com") <> ok).
Proof.
  split.
  - split; [reflexivity|]. split; [reflexivity|]. split; [reflexivity|].
    vm_compute. discriminate.
  - split; [reflexivity|]. split; [reflexivity|]. split; [reflexivity|].
    split; [reflexivity|]. vm_compute. discriminate.
Qed.

Lemma app_nonempty_r a b : b <> "" -> a +:+ b <> "".
Proof. intros Hb. destruct a; [done|]. rewrite StrFacts.app_cons. done. Qed.

Lemma defaultSitemapUrl_nonempty domain : Scanner.defaultSitemapUrl domain <> "".
Proof. unfold Scanner.defaultSitemapUrl. apply app_nonempty_r, app_nonempty_r. done. Qed.

Lemma robotsLine_found_nonempty protocol domain line t :
  Scanner.robotsLine protocol domain line = Scanner.Found t -> t <> "".
Proof.
  unfold Scanner.robotsLine. destruct (Str.startsWith "sitemap:" _); [|done].
  destruct (Str.afterFirstColon line) as [captured|]; [|done].
  destruct (String.eqb_spec (Str.trim captured) "") as [|Hne]; [done|].
  match goal with |- context [if ?b || ?c then _ else _] => destruct (b || c) end.
  - by intros [= <-].
  - intros [= <-]. apply app_nonempty_r, app_nonempty_r.
    match goal with |- context [if ?b then _ else _] => destruct b end; done.
Qed.

Lemma discoverSitemap_url p domain :
  Scanner.url (Scanner.discoverSitemap p domain) = Scanner.targetSitemapUrl p domain.
Proof.
  unfold Scanner.discoverSitemap, Scanner.validateSitemap.
  destruct (axiosGet p false 10000 _) as [[code data]|msg]; [|done].
  destruct (negb _); [done|].
  destruct (xmlParse p data) as [x|]; [|done].
  destruct (Js.prop "urlset" x) as [u|]; [|done].
  destruct (Js.truthy u); [done|].
  destruct (Js.prop "sitemapindex" x) as [s|]; [|done].
  by destruct (Js.truthy s).
Qed.

Lemma robotsLoop_cases protocol domain lines target :
  Scanner.robotsLoop protocol domain lines target = target
  \/ exists pre line post t,
       lines = pre ++ line :: post
       /\ Forall (fun l => Scanner.robotsLine protocol domain l = Scanner.Skip) pre
       /\ Scanner.robotsLine protocol domain line = Scanner.Found t
       /\ Scanner.robotsLoop protocol domain lines target = t.
Proof.
  induction lines as [|l lines IH]; [by left|]. cbn [Scanner.robotsLoop].
  destruct (Scanner.robotsLine protocol domain l) as [|t|] eqn:E.
  - destruct IH as [IH|(pre & line & post & t & -> & Hp & Hl & Ht)]; [by left|].
    right. exists (l :: pre), line, post, t. repeat split; try done. by constructor.
  - right. exists [], l, lines, t. repeat split; try done.
  - by left.
Qed.





Example discover_falls_back_offline :
  Scanner.discoverSitemap Fixture.offline "example.com"
  = {| Scanner.url := "https://example.com/sitemap.xml";
       Scanner.status := failed;
       Scanner.error := Some "Network Error" |}.
Proof. reflexivity. Qed.

End ScannerFacts.

(** ** [baseline] and [scan] *)

Module ApiFacts.

Lemma logged_stores e m : stores (logged e m) = stores m.
Proof. reflexivity. Qed.

Lemma call_stores p e m r m' :
  Storage.call p e m = (r, m') ->
  stores m' = stores m /\ trace m' = trace m ++ [e]
  /\ clockReads m' = clockReads m /\ idsDrawn m' = idsDrawn m.
Proof. unfold Storage.call. destruct (storageFault _ _ _); intros [= <- <-]; done. Qed.

Lemma call_ok p e m :
  storageFault p e (length (trace m)) = None -> Storage.call p e m = (Ok tt, logged e m).
Proof. unfold Storage.call. by intros ->. Qed.

Lemma fetchSitemapUrls_machine p u m r m' :
  SiteScanner.fetchSitemapUrls p u m = (r, m') -> m' = logged (EvFetch u) m.
Proof.
  unfold SiteScanner.fetchSitemapUrls, bind, SiteScanner.fetchDirect, lift, throw, ret.
  destruct (fetch p u) as [[code text]|msg]; [|by intros [= <- <-]].
  destruct (negb _); [by intros [= <- <-]|].
  destruct (xmlParse p text); [|by intros [= <- <-]].
  destruct (Js.prop "urlset" a); [|by intros [= <- <-]].
  destruct (negb _); [by intros [= <- <-]|].
  destruct (Js.prop "url" a0) as [v|]; [|by intros [= <- <-]].
  destruct v; try (destruct (Js.truthy _); [|by intros [= <- <-]];
    destruct (Js.prop "loc" _); [|by intros [= <- <-]];
    destruct (Js.truthy _); by intros [= <- <-]).
  destruct (SiteScanner.locs xs); by intros [= <- <-].
Qed.

Lemma buildItems_spec p site newUrls m :
  exists items m',
    Api.buildItems p site newUrls m = (Ok items, m')
    /\ stores m' = stores m
    /\ trace m' = trace m ++ map EvTitle newUrls
    /\ map NewItem.url items = newUrls
    /\ Forall (fun i => NewItem.urlType i = Utils.classifyUrl p (NewItem.url i)
                        /\ NewItem.reviewStatus i = Api.reviewStatusOf (NewItem.urlType i)) items.
Proof.
  revert m. induction newUrls as [|u rest IH]; intros m.
  - exists [], m. simpl. rewrite app_nil_r. done.
  - destruct (IH {| sites := sites m; seen := seen m; newItems := newItems m;
                    trace := trace m ++ [EvTitle u]; clockReads := S (clockReads m);
                    idsDrawn := S (idsDrawn m) |}) as (items & m' & He & Hs & Ht & Hu & Hf).
    eexists (_ :: items), m'. 
    cbn [Api.buildItems]. unfold bind at 1. unfold Api.buildItem, bind, uuid, now, ret, logged. cbn.
    unfold bind in He. rewrite He. split; [reflexivity|].
    split; [done|]. split; [rewrite Ht; cbn; by rewrite <- app_assoc|].
    split; [cbn; by rewrite Hu|]. constructor; [done|done].
Qed.

Lemma appendNewItems_stores p items m r m' :
  Storage.appendNewItems p items m = (r, m') ->
  sites m' = sites m /\ seen m' = seen m
  /\ (forall e, r = Throw e -> newItems m' = newItems m).
Proof.
  unfold Storage.appendNewItems, Storage.loadNewItems, Storage.saveNewItems, bind, ret.
  destruct (Storage.call p (EvGet KEY_NEW_ITEMS) m) as [[[]|e1] m1] eqn:E1;
    apply call_stores in E1 as (Hs1 & _); injection Hs1 as H1 H2 H3.
  2:{ intros [= <- <-]. done. }
  destruct (0 <? _).
  - destruct (Storage.call p (EvSet KEY_NEW_ITEMS) m1) as [[[]|e2] m2] eqn:E2;
      apply call_stores in E2 as (Hs2 & _); injection Hs2 as H4 H5 H6;
      intros [= <- <-]; cbn; repeat split; first [congruence | done].
  - intros [= <- <-]. repeat split; first [congruence | done].
Qed.

Lemma appendNewItems_ok p items m :
  itemStoreReliable p -> exists m', Storage.appendNewItems p items m = (Ok tt, m').
Proof.
  intros Hrel.
  unfold Storage.appendNewItems, Storage.loadNewItems, Storage.saveNewItems, bind, ret.
  rewrite call_ok by apply Hrel.
  destruct (0 <? _); [|eauto].
  rewrite call_ok by apply Hrel. eauto.
Qed.

Lemma scanDiff_throw p site m e m' :
  itemStoreReliable p ->
  Api.scanDiff p site m = (Throw e, m') -> stores m' = stores m.
Proof.
  intros Hrel. unfold Api.scanDiff. unfold bind at 1.
  destruct (SiteScanner.fetchSitemapUrls _ _ m) as [[urls|e0] m1] eqn:E0;
    apply fetchSitemapUrls_machine in E0 as ->; [|by intros [= <- <-]].
  unfold bind at 1. unfold Storage.loadSeen. unfold bind at 1.
  destruct (Storage.call p (EvGet KEY_SEEN) _) as [[[]|e1] m2] eqn:E1;
    apply call_stores in E1 as (Hs1 & _); rewrite logged_stores in Hs1;
    [|by intros [= <- <-]].
  assert (Hseen : seen m2 = seen m) by (injection Hs1; congruence).
  unfold bind at 1, lift.
  destruct (Api.scanLoop urls _) as [[siteSeen newUrls]|e2]; [|by intros [= <- <-]].
  unfold bind at 1.
  destruct (buildItems_spec p site newUrls m2) as (items & m3 & -> & Hs3 & _).
  destruct (0 <? length items); [|by intros [= <- <-]].
  unfold Storage.saveSeen. unfold bind at 1. unfold bind at 1.
  destruct (Storage.call p (EvSet KEY_SEEN) m3) as [[[]|e3] m4] eqn:E3;
    apply call_stores in E3 as (Hs4 & _).
  2:{ intros [= <- <-]. congruence. }
  unfold bind.
  match goal with |- context [Storage.appendNewItems p items ?mm] =>
    destruct (appendNewItems_ok p items mm Hrel) as [m5 ->] end.
  unfold ret. done.
Qed.

Lemma findIndex_Some id l i s :
  Api.findIndex id l = Some (i, s) -> l !! i = Some s /\ Site.id s = id.
Proof.
  revert i. induction l as [|x l IH]; intros i; simpl; [done|].
  destruct (String.eqb_spec (Site.id x) id) as [E|E].
  - intros [= <- <-]. done.
  - destruct (Api.findIndex id l) as [[j t]|]; [|done].
    intros [= <- <-]. by apply IH.
Qed.

Lemma findIndex_insert id l i s s' :
  Api.findIndex id l = Some (i, s) -> Site.id s' = Site.id s ->
  Api.findIndex id (<[i := s']> l) = Some (i, s').
Proof.
  revert i. induction l as [|x l IH]; intros i; simpl; [done|].
  destruct (String.eqb_spec (Site.id x) id) as [E|E].
  - intros [= <- <-] Hid. simpl. rewrite Hid, E. by rewrite String.eqb_refl.
  - destruct (Api.findIndex id l) as [[j t]|] eqn:Ej; [|done].
    intros [= <- <-] Hid. simpl.
    destruct (String.eqb_spec (Site.id x) id); [done|].
    by rewrite (IH j eq_refl Hid).
Qed.

Lemma recordFailure_run {A} p ss index site start e m :
  exists e' m',
    @Api.recordFailure A p ss index site start e m = (Throw e', m')
    /\ seen m' = seen m /\ newItems m' = newItems m
    /\ (sites m' = sites m \/
        sites m' = <[index := Api.failedSite site e (clock p (clockReads m) - start)%Z]> ss)
    /\ (siteStoreWritable p ->
        e' = e /\
        sites m' = <[index := Api.failedSite site e (clock p (clockReads m) - start)%Z]> ss).
Proof.
  unfold Api.recordFailure, bind, now, Storage.saveSites, bind, throw.
  storage_call as e1 m1 eqn:E1.
  - apply call_stores in E1 as (Hs & _). injection Hs as H1 H2 H3. cbn in *.
    eexists _, _. split; [reflexivity|]. cbn.
    split; [done|]. split; [done|]. split; [by right|]. done.
  - pose proof E1 as E1'. apply call_stores in E1 as (Hs & _). injection Hs as H1 H2 H3. cbn in *.
    eexists _, _. split; [reflexivity|].
    split; [done|]. split; [done|]. split; [by left|].
    intros Hw. unfold Storage.call in E1'. cbn in E1'. rewrite Hw in E1'. done.
Qed.

(** C1 (amended).  A scan that fails while the item store and the site list
    can be written, that is a scan that fails at the site lookup, at the
    precondition, on the network, on parsing, or on reading or writing the
    seen-set, leaves the seen-set store and the item store exactly as they
    were, and the site's [seenCount] and [lastNewFound] as they were. *)
Theorem failed_scan_keeps_seen_and_items p id m e m' :
  itemStoreReliable p -> siteStoreWritable p ->
  Api.scan p id m = (Throw e, m') ->
  seen m' = seen m /\ newItems m' = newItems m /\
  forall index site,
    Api.findIndex id (sites m) = Some (index, site) ->
    exists site',
      Api.findIndex id (sites m') = Some (index, site')
      /\ Site.seenCount site' = Site.seenCount site
      /\ Site.lastNewFound site' = Site.lastNewFound site.
Proof.
  intros Hrel Hw. unfold Api.scan. unfold bind at 1. unfold now at 1.
  unfold bind at 1. unfold Storage.loadSites. unfold bind at 1.
  storage_call as e1 m1 eqn:E1;
    apply call_stores in E1 as (Hs & _); injection Hs as H1 H2 H3; cbn in H1, H2, H3.
  all: cbv beta iota.
  2:{ intros [= <- <-]. rewrite H1. eauto 10. }
  rewrite H1.
  destruct (Api.findIndex id (sites m)) as [[index site]|] eqn:Ef.
  2:{ unfold throw. intros [= <- <-]. done. }
  destruct (negb (Site.baselineReady site)).
  { unfold throw. intros [= <- <-]. rewrite H1, Ef. split; [done|]. split; [done|].
    intros ? ? [= <- <-]. eauto. }
  unfold bind at 1. unfold tryCatch at 1.
  destruct (Api.scanDiff p site m1) as [[[[urls siteSeen] items]|e2] m2] eqn:Ed.
  - (* the diff went through: the last save cannot fail *)
    unfold bind at 1, now at 1. unfold bind at 1, now at 1.
    unfold tryCatch, bind, Storage.saveSites, bind. cbn.
    rewrite call_ok by apply Hw. unfold ret. done.
  - apply scanDiff_throw in Ed; [|done]. injection Ed as H4 H5 H6. cbv beta iota.
    catch_block using (@recordFailure_run) as (e' & m3 & -> & H7 & H8 & _ & H9).
    destruct (H9 Hw) as [-> H10].
    intros [= <- <-]. split; [congruence|]. split; [congruence|].
    intros ? ? [= <- <-]. eexists.
    rewrite H10. split; [by eapply findIndex_insert|done].
Qed.

Lemma fetchSitemapUrls_result p u m m0 :
  fst (SiteScanner.fetchSitemapUrls p u m) = fst (SiteScanner.fetchSitemapUrls p u m0).
Proof.
  unfold SiteScanner.fetchSitemapUrls, bind, SiteScanner.fetchDirect, lift, throw, ret.
  destruct (fetch p u) as [[code text]|msg]; [|done].
  destruct (negb _); [done|].
  destruct (xmlParse p text); [|done].
  destruct (Js.prop "urlset" a); [|done].
  destruct (negb _); [done|].
  destruct (Js.prop "url" a0) as [v|]; [|done].
  destruct v; try (destruct (Js.truthy _); [|done];
    destruct (Js.prop "loc" _); [|done]; by destruct (Js.truthy _)).
  by destruct (SiteScanner.locs xs).
Qed.

Lemma fetchSitemapUrls_run p u m :
  SiteScanner.fetchSitemapUrls p u m
  = (fst (SiteScanner.fetchSitemapUrls p u m), logged (EvFetch u) m).
Proof.
  destruct (SiteScanner.fetchSitemapUrls p u m) as [r m'] eqn:E.
  by apply fetchSitemapUrls_machine in E as ->.
Qed.

Lemma buildItems_nil p site newUrls m m' :
  Api.buildItems p site newUrls m = (Ok [], m') -> newUrls = [] /\ m' = m.
Proof.
  destruct newUrls as [|u rest]; [by intros [= <-]|].
  cbn [Api.buildItems]. unfold bind at 1. unfold Api.buildItem, bind, uuid, now, ret, logged. cbn.
  match goal with |- context [Api.buildItems p site rest ?mm] =>
    destruct (buildItems_spec p site rest mm) as (items & m3 & He & _) end.
  unfold bind in He. rewrite He. done.
Qed.

(** What a scan that went through has done. *)
Lemma scanDiff_ok p site m urls siteSeen items m' :
  Api.scanDiff p site m = (Ok (urls, siteSeen, items), m') ->
  exists seen1 newUrls,
    fst (SiteScanner.fetchSitemapUrls p (Site.sitemapUrl site) m) = Ok urls
    /\ Api.scanLoop urls (default ∅ (seen m !! Site.id site), []) = Ok (seen1, newUrls)
    /\ map NewItem.url items = newUrls
    /\ Forall (fun i => NewItem.urlType i = Utils.classifyUrl p (NewItem.url i)
                        /\ NewItem.reviewStatus i = Api.reviewStatusOf (NewItem.urlType i)) items
    /\ sites m' = sites m
    /\ (items = [] ->
        siteSeen = seen1 /\ seen m' = seen m /\ newItems m' = newItems m
        /\ trace m' = trace m ++ [EvFetch (Site.sitemapUrl site); EvGet KEY_SEEN]
        /\ clockReads m' = clockReads m)
    /\ (items <> [] ->
        siteSeen = Api.mergeSeen items seen1
        /\ seen m' = <[Site.id site := siteSeen]> (seen m)).
Proof.
  unfold Api.scanDiff. unfold bind at 1.
  rewrite fetchSitemapUrls_run.
  destruct (fst (SiteScanner.fetchSitemapUrls _ _ m)) as [urls0|e0]; [|done].
  unfold bind at 1. unfold Storage.loadSeen. unfold bind at 1.
  destruct (Storage.call p (EvGet KEY_SEEN) _) as [[[]|e1] m2] eqn:E1; [|done].
  apply call_stores in E1 as (Hs1 & Ht1 & Hc1 & _). injection Hs1 as H1 H2 H3.
  cbn in H1, H2, H3, Ht1, Hc1.
  cbv beta iota. rewrite H2.
  unfold bind at 1, lift.
  destruct (Api.scanLoop urls0 _) as [[seen1 newUrls]|e2] eqn:El; [|done].
  unfold bind at 1.
  destruct (buildItems_spec p site newUrls m2) as (its & m3 & Hb & Hs3 & Ht3 & Hu & Hf).
  rewrite Hb. injection Hs3 as H4 H5 H6.
  destruct its as [|it its].
  - cbn. intros [= <- <- <- <-]. apply buildItems_nil in Hb as [-> ->].
    exists seen1, []. rewrite <- app_assoc in Ht1. repeat split; try done; congruence.
  - cbn [length Nat.ltb Nat.leb].
    unfold Storage.saveSeen. unfold bind at 1. unfold bind at 1.
    destruct (Storage.call p (EvSet KEY_SEEN) m3) as [[[]|e3] m4] eqn:E3; [|done].
    apply call_stores in E3 as (Hs4 & _). injection Hs4 as H7 H8 H9.
    unfold bind at 1.
    match goal with |- context [Storage.appendNewItems p ?its ?mm] =>
      destruct (Storage.appendNewItems p its mm) as [[[]|e4] m5] eqn:E4 end; [|done].
    apply appendNewItems_stores in E4 as (H10 & H11 & _). cbn in H10, H11.
    unfold ret. intros [= <- <- <- <-].
    exists seen1, newUrls. repeat split; try done; try congruence.
Qed.

Lemma scan_ok p id m site' items m' :
  Api.scan p id m = (Ok (site', items), m') ->
  exists index site urls siteSeen m2,
    Api.findIndex id (sites m) = Some (index, site)
    /\ Site.baselineReady site = true
    /\ storageFault p (EvGet KEY_SITES) (length (trace m)) = None
    /\ Api.scanDiff p site (logged (EvGet KEY_SITES)
         {| sites := sites m; seen := seen m; newItems := newItems m; trace := trace m;
            clockReads := S (clockReads m); idsDrawn := idsDrawn m |})
       = (Ok (urls, siteSeen, items), m2)
    /\ site' = Api.scannedSite site (clock p (clockReads m2)) siteSeen (length urls) items
                 (clock p (S (clockReads m2)) - clock p (clockReads m))%Z
    /\ sites m' = <[index := site']> (sites m)
    /\ seen m' = seen m2 /\ newItems m' = newItems m2
    /\ trace m' = trace m2 ++ [EvSet KEY_SITES].
Proof.
  unfold Api.scan. unfold bind at 1. unfold now at 1.
  unfold bind at 1. unfold Storage.loadSites. unfold bind at 1.
  unfold Storage.call at 1. cbn [trace].
  destruct (storageFault p (EvGet KEY_SITES) (length (trace m))) eqn:Hf; [done|].
  cbv beta iota. cbn [sites logged].
  destruct (Api.findIndex id (sites m)) as [[index site]|] eqn:Ef; [|done].
  destruct (Site.baselineReady site) eqn:Hb; [|done]. cbn [negb].
  unfold bind at 1. unfold tryCatch at 1.
  match goal with |- context [Api.scanDiff p site ?mm] =>
    destruct (Api.scanDiff p site mm) as [[[[urls siteSeen] its]|e2] m2] eqn:Ed end.
  2:{ intros H. exfalso. revert H.
      catch_block using (@recordFailure_run) as (e' & m3 & -> & _). done. }
  unfold bind at 1, now at 1. unfold bind at 1, now at 1.
  unfold tryCatch at 1. unfold bind at 1. unfold Storage.saveSites. unfold bind at 1.
  storage_call as e1 m3 eqn:E1.
  - apply call_stores in E1 as (Hs & Ht & _). injection Hs as H1 H2 H3. cbn in H1, H2, H3, Ht.
    unfold ret. intros [= <- <- <-]. exists index, site, urls, siteSeen, m2. cbn. done.
  - intros H. exfalso. revert H. cbv beta iota.
    catch_block using (@recordFailure_run) as (e' & m4 & -> & _). done.
Qed.

(** C9.  A scan that succeeds with no new URL writes neither the seen-set
    nor the item store: the only calls are the reads of the site list and of
    the seen-set, the sitemap request and one write of the site list.  The
    site record is updated: [lastScanAt] is the instant read after the
    diff, [status] is [ok], [lastNewFound] is 0 and [lastResult] is a
    success summary with no sample URL. *)
Theorem scan_without_news_only_saves_site p id m site' m' :
  Api.scan p id m = (Ok (site', []), m') ->
  exists index site parsed calls,
    Api.findIndex id (sites m) = Some (index, site)
    /\ seen m' = seen m
    /\ newItems m' = newItems m
    /\ trace m' = trace m ++ calls
    /\ calls = [EvGet KEY_SITES; EvFetch (Site.sitemapUrl site); EvGet KEY_SEEN;
                EvSet KEY_SITES]
    /\ (forall e, e ∈ calls ->
          e <> EvSet KEY_SEEN /\ e <> EvGet KEY_NEW_ITEMS /\ e <> EvSet KEY_NEW_ITEMS)
    /\ sites m' = <[index := site']> (sites m)
    /\ Site.lastScanAt site' = Some (clock p (S (clockReads m)))
    /\ Site.status site' = ok
    /\ Site.lastNewFound site' = 0
    /\ Site.lastResult site' =
         Some {| ScanSummary.outcome := success;
                 ScanSummary.parsedCount := parsed;
                 ScanSummary.newOrInsertedCount := 0;
                 ScanSummary.durationMs :=
                   (clock p (S (S (clockReads m))) - clock p (clockReads m))%Z;
                 ScanSummary.error := None;
                 ScanSummary.sampleUrls := [] |}.
Proof.
  intros H.
  apply scan_ok in H
    as (index & site & urls & siteSeen & m2 & Hf & Hb & _ & Hd & -> & Hs & Hse & Hn & Ht).
  apply scanDiff_ok in Hd as (seen1 & newUrls & _ & _ & _ & _ & _ & Hnil & _).
  destruct (Hnil eq_refl) as (_ & H1 & H2 & H3 & H4). cbn in H1, H2, H3, H4.
  exists index, site, (length urls),
    [EvGet KEY_SITES; EvFetch (Site.sitemapUrl site); EvGet KEY_SEEN; EvSet KEY_SITES].
  split; [done|]. split; [congruence|]. split; [congruence|].
  split. { rewrite Ht, H3. rewrite <- !app_assoc. done. }
  split; [done|].
  split.
  { intros e He. repeat (apply elem_of_cons in He as [->|He]; [done|]).
    by apply elem_of_nil in He. }
  split; [done|]. cbn. rewrite H4. done.
Qed.

Lemma unseen_after_insert s u h :
  Api.unseen s (Utils.hashUrl u) = true ->
  Api.unseen (<[Utils.hashUrl u := u]> s) h = true ->
  Api.unseen s h = true.
Proof.
  intros Hu. unfold Api.unseen.
  destruct (decide (Utils.hashUrl u = h)) as [<-|Hne].
  - intros _. exact Hu.
  - by rewrite lookup_insert_ne.
Qed.

Lemma seen_after_insert s u :
  u <> "" -> Api.unseen (<[Utils.hashUrl u := u]> s) (Utils.hashUrl u) = false.
Proof.
  intros Hne. unfold Api.unseen. rewrite lookup_insert_eq.
  by destruct (String.eqb_spec u "").
Qed.

(** What the diff loop adds to the list of new URLs. *)
Lemma scanLoop_added urls : forall s0 n0 s1 n1,
  Api.scanLoop urls (s0, n0) = Ok (s1, n1) ->
  exists added,
    n1 = n0 ++ added
    /\ Forall (fun u => Api.unseen s0 (Utils.hashUrl u) = true
                        /\ exists v, v ∈ urls /\ Utils.normalizeUrlOf v = Ok u) added
    /\ NoDup (map Utils.hashUrl (nonEmptyUrls added))
    /\ (forall v u, v ∈ urls -> Utils.normalizeUrlOf v = Ok u ->
          Api.unseen s0 (Utils.hashUrl u) = true ->
          exists x, x ∈ added /\ Utils.hashUrl x = Utils.hashUrl u).
Proof.
  induction urls as [|v urls IH]; intros s0 n0 s1 n1; cbn [Api.scanLoop].
  - intros [= <- <-]. exists []. rewrite app_nil_r. split; [done|]. split; [constructor|].
    split; [constructor|]. by intros v u ?%elem_of_nil.
  - destruct (Utils.normalizeUrlOf v) as [u|] eqn:Ev; [|done]. unfold Api.scanStep.
    destruct (Api.unseen s0 (Utils.hashUrl u)) eqn:Eu.
    + intros H. apply IH in H as (added & -> & Hall & Hnd & Hcov).
      exists (u :: added). split; [by rewrite <- app_assoc|]. split; [|split].
      * constructor; [split; [done|]; exists v; split; [by left|done]|].
        eapply Forall_impl; [exact Hall|]. intros x [Hx (w & Hw & Hn)]. split.
        -- by eapply unseen_after_insert.
        -- exists w. split; [by right|done].
      * unfold nonEmptyUrls. cbn [List.filter].
        destruct (String.eqb_spec u "") as [E|E]; cbn [negb]; [exact Hnd|].
        cbn [map]. constructor; [|exact Hnd].
        intros Hin. apply list_elem_of_In, in_map_iff in Hin as (x & Hx & Hin).
        apply filter_In in Hin as [Hin _]. apply list_elem_of_In in Hin.
        rewrite Forall_forall in Hall. destruct (Hall x Hin) as [Hun _].
        rewrite Hx in Hun. by rewrite seen_after_insert in Hun.
      * intros w x [->|Hw]%elem_of_cons Hn Hx.
        -- exists u. split; [by left|]. congruence.
        -- destruct (Api.unseen (<[Utils.hashUrl u := u]> s0) (Utils.hashUrl x)) eqn:E.
           ++ destruct (Hcov w x Hw Hn E) as (y & Hy & Hh). exists y. split; [by right|done].
           ++ exists u. split; [by left|].
              destruct (decide (Utils.hashUrl u = Utils.hashUrl x)) as [|Hne]; [done|].
              unfold Api.unseen in E, Hx. rewrite lookup_insert_ne in E by done.
              by rewrite E in Hx.
    + intros H. apply IH in H as (added & -> & Hall & Hnd & Hcov).
      exists added. split; [done|]. split; [|split; [done|]].
      * eapply Forall_impl; [exact Hall|]. intros x [Hx (w & Hw & Hn)].
        split; [done|]. exists w. split; [by right|done].
      * intros w x [->|Hw]%elem_of_cons Hn Hx; [congruence|by eapply Hcov].
Qed.

(** C8.  A successful scan returns one item per entry of the list of new
    URLs that the diff loop produced, in the same order; the item's
    [urlType] is [classifyUrl] of its URL, and its [reviewStatus] is
    [pending] if and only if that type is [game], and [not_game] for every
    other type.  Every item stands for a location of the sitemap that was
    unseen before the scan; no two items whose URL is not the empty string
    have the same hash, hence none the same URL; and every location that
    was unseen before the scan has an item with its hash.  Yet a location
    that normalises to the empty string gets one item each time the sitemap
    lists it, because [!siteSeen[hash]] takes the empty string just stored in
    its slot for a missing slot: [/] listed twice gives two items for the
    one URL. *)
Theorem scan_builds_one_item_per_new_url_but_repeats_empty_url :
  (forall p id m site' items m',
     Api.scan p id m = (Ok (site', items), m') ->
     exists index site urls seen1 newUrls,
       Api.findIndex id (sites m) = Some (index, site)
       /\ fst (SiteScanner.fetchSitemapUrls p (Site.sitemapUrl site) m) = Ok urls
       /\ Api.scanLoop urls (default ∅ (seen m !! Site.id site), []) = Ok (seen1, newUrls)
       /\ map NewItem.url items = newUrls
       /\ Forall (fun i =>
                    NewItem.urlType i = Utils.classifyUrl p (NewItem.url i)
                    /\ (NewItem.reviewStatus i = pending <-> NewItem.urlType i = UrlType.game)
                    /\ (NewItem.urlType i <> UrlType.game -> NewItem.reviewStatus i = not_game))
                 items
       /\ Forall (fun i =>
                    Api.unseen (default ∅ (seen m !! Site.id site))
                               (Utils.hashUrl (NewItem.url i)) = true
                    /\ exists v, v ∈ urls /\ Utils.normalizeUrlOf v = Ok (NewItem.url i))
                 items
       /\ NoDup (map Utils.hashUrl (nonEmptyUrls (map NewItem.url items)))
       /\ (forall v u,
             v ∈ urls -> Utils.normalizeUrlOf v = Ok u ->
             Api.unseen (default ∅ (seen m !! Site.id site)) (Utils.hashUrl u) = true ->
             exists i, i ∈ items /\ Utils.hashUrl (NewItem.url i) = Utils.hashUrl u))
  /\ exists site' items m',
       Api.scan (Fixture.serving Cases.rootTwice) "site_1" Fixture.ready
       = (Ok (site', items), m')
       /\ map NewItem.url items = [""; ""]
       /\ map NewItem.url (newItems m') = [""; ""]
       /\ Site.lastNewFound site' = 2.
Proof.
  split.
  - intros p id m site' items m' H.
    apply scan_ok in H as (index & site & urls & siteSeen & m2 & Hf & Hb & _ & Hd & _).
    apply scanDiff_ok in Hd as (seen1 & newUrls & Hu & Hl & Hm & Hall & _).
    cbn in Hl.
    exists index, site, urls, seen1, newUrls. split; [done|].
    split. { rewrite <- Hu. apply fetchSitemapUrls_result. }
    split; [done|]. split; [done|].
    destruct (scanLoop_added _ _ _ _ _ Hl) as (added & Hadd & Hnew & Hnd & Hcov).
    cbn in Hadd. subst added. split; [|split; [|split]].
    + eapply Forall_impl; [exact Hall|]. intros i [Ht Hr]. split; [done|].
      rewrite Hr. unfold Api.reviewStatusOf. destruct (NewItem.urlType i); cbn; done.
    + apply Forall_forall. intros i Hi. rewrite Forall_forall in Hnew. apply Hnew.
      rewrite <- Hm. apply list_elem_of_In, in_map. by apply list_elem_of_In.
    + by rewrite Hm.
    + intros v u Hv Hn Hun. destruct (Hcov v u Hv Hn Hun) as (x & Hx & Hh).
      rewrite <- Hm in Hx. apply list_elem_of_In, in_map_iff in Hx as (i & <- & Hi).
      exists i. split; [by apply list_elem_of_In|done].
  - eexists _, _, _. split; [vm_compute; reflexivity|]. repeat split; reflexivity.
Qed.

(** C5 (amended).  For a site whose [baselineReady] is false, [scan] reads
    the site list, which is its only call to storage or network, and
    throws; no store is changed, so no failure summary is written either.
    When that read goes through, the error is the precondition error
    "Baseline not ready". *)
Theorem scan_before_baseline_is_rejected p id m index site :
  Api.findIndex id (sites m) = Some (index, site) ->
  Site.baselineReady site = false ->
  exists message m',
    Api.scan p id m = (Throw message, m')
    /\ sites m' = sites m /\ seen m' = seen m /\ newItems m' = newItems m
    /\ trace m' = trace m ++ [EvGet KEY_SITES]
    /\ (storageFault p (EvGet KEY_SITES) (length (trace m)) = None ->
        message = "Baseline not ready").
Proof.
  intros Hf Hb. unfold Api.scan. unfold bind at 1. unfold now at 1.
  unfold bind at 1. unfold Storage.loadSites. unfold bind at 1.
  unfold Storage.call at 1. cbn [trace].
  destruct (storageFault p (EvGet KEY_SITES) (length (trace m))) eqn:Hfault.
  - eexists _, _. split; [reflexivity|]. cbn. done.
  - cbv beta iota. cbn [sites logged]. rewrite Hf, Hb. cbn [negb]. unfold throw.
    eexists _, _. split; [reflexivity|]. cbn. done.
Qed.

Lemma keeps_refl a : keeps a a.
Proof. intros k v H. eauto. Qed.

Lemma keeps_trans a b c : keeps a b -> keeps b c -> keeps a c.
Proof.
  intros Hab Hbc k v H. destruct (Hab k v H) as (v1 & H1 & E1).
  destruct (Hbc k v1 H1) as (v2 & H2 & E2). exists v2. split; [done|].
  intros Hne. specialize (E1 Hne). subst v1. by apply E2.
Qed.

Lemma unseen_true mp k :
  Api.unseen mp k = true <-> mp !! k = None \/ mp !! k = Some "".
Proof.
  unfold Api.unseen. destruct (mp !! k) as [v|]; [|by split; auto].
  destruct (String.eqb_spec v "") as [->|Hne]; split; auto.
  - done.
  - intros [?|?]; congruence.
Qed.

Lemma keeps_insert_unseen mp k u : Api.unseen mp k = true -> keeps mp (<[k := u]> mp).
Proof.
  intros Hu j v Hj. destruct (decide (k = j)) as [->|Hne].
  - rewrite lookup_insert_eq. exists u. split; [done|].
    apply unseen_true in Hu as [Hu|Hu]; congruence.
  - rewrite lookup_insert_ne by done. eauto.
Qed.

Lemma keeps_unseen a b k : keeps a b -> Api.unseen b k = true -> Api.unseen a k = true.
Proof.
  intros Hk Hb. apply unseen_true. destruct (a !! k) as [v|] eqn:E; [|by left].
  right. destruct (Hk k v E) as (v' & Hv' & Hvv).
  destruct (String.eqb_spec v ""); [by subst|].
  rewrite Hvv in Hv' by done. apply unseen_true in Hb as [Hb|Hb]; congruence.
Qed.

Lemma scanStep_keeps s n u : keeps s (fst (Api.scanStep (s, n) u)).
Proof.
  unfold Api.scanStep. destruct (Api.unseen s _) eqn:E; cbn; [|apply keeps_refl].
  by apply keeps_insert_unseen.
Qed.

Lemma scanLoop_news urls s0 n0 s1 n1 :
  Api.scanLoop urls (s0, n0) = Ok (s1, n1) ->
  keeps s0 s1
  /\ exists added, n1 = n0 ++ added
       /\ Forall (fun u => Api.unseen s0 (Utils.hashUrl u) = true) added.
Proof.
  revert s0 n0. induction urls as [|v urls IH]; intros s0 n0; cbn [Api.scanLoop].
  - intros ?; simplify_eq. split; [apply keeps_refl|]. exists []. by rewrite app_nil_r.
  - destruct (Utils.normalizeUrlOf v) as [u|]; [|done].
    pose proof (scanStep_keeps s0 n0 u) as Hk.
    unfold Api.scanStep in *. destruct (Api.unseen s0 (Utils.hashUrl u)) eqn:E; cbn in Hk.
    + intros H. apply IH in H as (Hk' & added & -> & Hall).
      split; [by eapply keeps_trans|]. exists (u :: added).
      split; [by rewrite <- app_assoc|]. constructor; [done|].
      eapply Forall_impl; [exact Hall|]. intros x Hx. by eapply keeps_unseen.
    + intros H. apply IH in H as (Hk' & added & -> & Hall). split; [done|]. eauto.
Qed.

Lemma baselineLoop_keeps urls s0 a0 l0 s1 a1 l1 :
  Api.baselineLoop urls (s0, a0, l0) = Ok (s1, a1, l1) -> keeps s0 s1.
Proof.
  revert s0 a0 l0. induction urls as [|v urls IH]; intros s0 a0 l0; cbn [Api.baselineLoop].
  - intros ?; simplify_eq. apply keeps_refl.
  - destruct (Utils.normalizeUrlOf v) as [u|]; [|done].
    unfold Api.baselineStep. destruct (Api.unseen s0 (Utils.hashUrl u)) eqn:E.
    + intros H. apply IH in H. eapply keeps_trans; [|exact H]. by apply keeps_insert_unseen.
    + intros H. by apply IH in H.
Qed.

Lemma mergeSeen_keeps s0 items s1 :
  Forall (fun i => Api.unseen s0 (Utils.hashUrl (NewItem.url i)) = true) items ->
  keeps s0 s1 -> keeps s0 (Api.mergeSeen items s1).
Proof.
  unfold Api.mergeSeen. revert s1. induction items as [|i items IH]; intros s1 Hall Hk; [done|].
  cbn [fold_left]. apply Forall_cons in Hall as [Hi Hall]. apply IH; [done|].
  intros k v Hv. destruct (decide (Utils.hashUrl (NewItem.url i) = k)) as [<-|Hne].
  - rewrite lookup_insert_eq. eexists. split; [done|].
    apply unseen_true in Hi as [Hi|Hi]; congruence.
  - rewrite lookup_insert_ne by done. by apply Hk.
Qed.

Lemma seenGrows_same m m' : seen m' = seen m -> seenGrows m m'.
Proof. intros E sid ss H. exists ss. rewrite E. split; [done|apply keeps_refl]. Qed.

Lemma seenGrows_insert m m' sid ss' :
  seen m' = <[sid := ss']> (seen m) -> keeps (default ∅ (seen m !! sid)) ss' -> seenGrows m m'.
Proof.
  intros E Hk sid0 ss H. rewrite E. destruct (decide (sid = sid0)) as [->|Hne].
  - rewrite lookup_insert_eq. exists ss'. split; [done|]. by rewrite H in Hk.
  - rewrite lookup_insert_ne by done. exists ss. split; [done|apply keeps_refl].
Qed.

Lemma scanDiff_seenGrows p site m r m' :
  Api.scanDiff p site m = (r, m') -> seenGrows m m'.
Proof.
  unfold Api.scanDiff. unfold bind at 1. rewrite fetchSitemapUrls_run.
  destruct (fst (SiteScanner.fetchSitemapUrls _ _ m)) as [urls0|e0];
    [|intros [= <- <-]; by apply seenGrows_same].
  unfold bind at 1. unfold Storage.loadSeen. unfold bind at 1.
  destruct (Storage.call p (EvGet KEY_SEEN) _) as [[[]|e1] m2] eqn:E1;
    apply call_stores in E1 as (Hs1 & _); injection Hs1 as H1 H2 H3; cbn in H1, H2, H3;
    [|intros [= <- <-]; by apply seenGrows_same].
  cbv beta iota. rewrite H2. unfold bind at 1, lift.
  destruct (Api.scanLoop urls0 _) as [[seen1 newUrls]|e2] eqn:El;
    [|intros [= <- <-]; by apply seenGrows_same].
  apply scanLoop_news in El as (Hk & added & Hadd & Hall). cbn in Hadd. subst newUrls.
  unfold bind at 1.
  destruct (buildItems_spec p site added m2) as (its & m3 & Hb & Hs3 & Ht3 & Hu & Hf).
  rewrite Hb. injection Hs3 as H4 H5 H6.
  destruct (0 <? length its); [|intros [= <- <-]; apply seenGrows_same; congruence].
  unfold Storage.saveSeen. unfold bind at 1. unfold bind at 1.
  destruct (Storage.call p (EvSet KEY_SEEN) m3) as [[[]|e3] m4] eqn:E3;
    apply call_stores in E3 as (Hs4 & _); injection Hs4 as H7 H8 H9;
    [|intros [= <- <-]; apply seenGrows_same; congruence].
  unfold bind at 1.
  match goal with |- context [Storage.appendNewItems p ?its ?mm] =>
    destruct (Storage.appendNewItems p its mm) as [[[]|e4] m5] eqn:E4 end;
    apply appendNewItems_stores in E4 as (H10 & H11 & _); cbn in H10, H11;
    unfold ret; intros [= <- <-].
  all: eapply seenGrows_insert; [rewrite H11; reflexivity|].
  all: apply mergeSeen_keeps; [|done].
  all: apply Forall_forall; intros i Hi; rewrite Forall_forall in Hall; apply Hall;
       rewrite <- Hu; apply list_elem_of_In; apply in_map; by apply list_elem_of_In.
Qed.

Lemma seenGrows_trans m1 m2 m3 : seenGrows m1 m2 -> seenGrows m2 m3 -> seenGrows m1 m3.
Proof.
  intros H12 H23 sid ss H. destruct (H12 sid ss H) as (ss2 & H2 & K2).
  destruct (H23 sid ss2 H2) as (ss3 & H3 & K3). exists ss3. split; [done|].
  by eapply keeps_trans.
Qed.

Lemma scan_seenGrows p id m r m' : Api.scan p id m = (r, m') -> seenGrows m m'.
Proof.
  unfold Api.scan. unfold bind at 1. unfold now at 1.
  unfold bind at 1. unfold Storage.loadSites. unfold bind at 1.
  storage_call as e1 m1 eqn:E1;
    apply call_stores in E1 as (Hs & _); injection Hs as H1 H2 H3; cbn in H1, H2, H3;
    cbv beta iota.
  2:{ intros [= <- <-]. by apply seenGrows_same. }
  destruct (Api.findIndex id (sites m1)) as [[index site]|] eqn:Ef.
  2:{ unfold throw. intros [= <- <-]. by apply seenGrows_same. }
  destruct (negb (Site.baselineReady site)).
  { unfold throw. intros [= <- <-]. by apply seenGrows_same. }
  unfold bind at 1. unfold tryCatch at 1.
  destruct (Api.scanDiff p site m1) as [[[[urls siteSeen] items]|e2] m2] eqn:Ed;
    apply scanDiff_seenGrows in Ed;
    assert (Hg : seenGrows m m2)
      by (eapply seenGrows_trans; [apply seenGrows_same; exact H2|exact Ed]).
  - unfold bind at 1, now at 1. unfold bind at 1, now at 1.
    unfold tryCatch at 1. unfold bind at 1. unfold Storage.saveSites. unfold bind at 1.
    storage_call as e3 m3 eqn:E3;
      apply call_stores in E3 as (Hs3 & _); injection Hs3 as H4 H5 H6; cbn in H4, H5, H6;
      cbv beta iota.
    + unfold ret. intros [= <- <-]. eapply seenGrows_trans; [exact Hg|]. by apply seenGrows_same.
    + catch_block using (@recordFailure_run) as (e' & m4 & -> & H7 & _).
      intros [= <- <-]. eapply seenGrows_trans; [exact Hg|]. apply seenGrows_same. congruence.
  - catch_block using (@recordFailure_run) as (e' & m4 & -> & H7 & _).
    intros [= <- <-]. eapply seenGrows_trans; [exact Hg|]. by apply seenGrows_same.
Qed.

Lemma baselineMerge_seenGrows p site m r m' :
  Api.baselineMerge p site m = (r, m') -> seenGrows m m'.
Proof.
  unfold Api.baselineMerge. unfold bind at 1. rewrite fetchSitemapUrls_run.
  destruct (fst (SiteScanner.fetchSitemapUrls _ _ m)) as [urls0|e0];
    [|intros [= <- <-]; by apply seenGrows_same].
  unfold bind at 1. unfold Storage.loadSeen. unfold bind at 1.
  destruct (Storage.call p (EvGet KEY_SEEN) _) as [[[]|e1] m2] eqn:E1;
    apply call_stores in E1 as (Hs1 & _); injection Hs1 as H1 H2 H3; cbn in H1, H2, H3;
    [|intros [= <- <-]; by apply seenGrows_same].
  cbv beta iota. rewrite H2. unfold bind at 1, lift.
  destruct (Api.baselineLoop urls0 _) as [[[seen1 added] sample]|e2] eqn:El;
    [|intros [= <- <-]; by apply seenGrows_same].
  apply baselineLoop_keeps in El.
  unfold Storage.saveSeen. unfold bind at 1. unfold bind at 1.
  destruct (Storage.call p (EvSet KEY_SEEN) m2) as [[[]|e3] m4] eqn:E3;
    apply call_stores in E3 as (Hs4 & _); injection Hs4 as H7 H8 H9;
    [|intros [= <- <-]; apply seenGrows_same; congruence].
  unfold bind, ret. intros [= <- <-]. by eapply seenGrows_insert.
Qed.

Lemma baseline_seenGrows p id m r m' : Api.baseline p id m = (r, m') -> seenGrows m m'.
Proof.
  unfold Api.baseline. unfold bind at 1. unfold now at 1.
  unfold bind at 1. unfold Storage.loadSites. unfold bind at 1.
  storage_call as e1 m1 eqn:E1;
    apply call_stores in E1 as (Hs & _); injection Hs as H1 H2 H3; cbn in H1, H2, H3;
    cbv beta iota.
  2:{ intros [= <- <-]. by apply seenGrows_same. }
  destruct (Api.findIndex id (sites m1)) as [[index site]|] eqn:Ef.
  2:{ unfold throw. intros [= <- <-]. by apply seenGrows_same. }
  unfold bind at 1. unfold tryCatch at 1.
  destruct (Api.baselineMerge p site m1) as [[[urls [[siteSeen added] sample]]|e2] m2] eqn:Ed;
    apply baselineMerge_seenGrows in Ed;
    assert (Hg : seenGrows m m2)
      by (eapply seenGrows_trans; [apply seenGrows_same; exact H2|exact Ed]).
  - unfold bind at 1, now at 1. unfold bind at 1, now at 1.
    unfold tryCatch at 1. unfold bind at 1. unfold Storage.saveSites. unfold bind at 1.
    storage_call as e3 m3 eqn:E3;
      apply call_stores in E3 as (Hs3 & _); injection Hs3 as H4 H5 H6; cbn in H4, H5, H6;
      cbv beta iota.
    + unfold ret. intros [= <- <-]. eapply seenGrows_trans; [exact Hg|]. by apply seenGrows_same.
    + catch_block using (@recordFailure_run) as (e' & m4 & -> & H7 & _).
      intros [= <- <-]. eapply seenGrows_trans; [exact Hg|]. apply seenGrows_same. congruence.
  - catch_block using (@recordFailure_run) as (e' & m4 & -> & H7 & _).
    intros [= <- <-]. eapply seenGrows_trans; [exact Hg|]. by apply seenGrows_same.
Qed.

Lemma baselineLoop_strings S acc :
  Api.baselineLoop (map Js.Str S) acc
  = Ok (fold_left Api.baselineStep (map Utils.normalizeUrl S) acc).
Proof. revert acc. induction S as [|u S IH]; intros acc; cbn; [done|]. apply IH. Qed.

Lemma unseen_nonEmpty mp k :
  nonEmptyValues mp -> Api.unseen mp k = true -> mp !! k = None.
Proof.
  intros Hne Hu. apply unseen_true in Hu as [Hu|Hu]; [done|]. by apply Hne in Hu.
Qed.

Lemma baseline_fold us : forall mp a l,
  nonEmptyValues mp -> Forall (fun u => u <> "") us ->
  exists mp' a' l',
    fold_left Api.baselineStep us (mp, a, l) = (mp', a', l')
    /\ nonEmptyValues mp'
    /\ (forall k, is_Some (mp !! k) -> is_Some (mp' !! k))
    /\ (forall u, u ∈ us -> is_Some (mp' !! Utils.hashUrl u))
    /\ size mp' + a = size mp + a'
    /\ (NoDup (map Utils.hashUrl us) ->
        (forall u, u ∈ us -> mp !! Utils.hashUrl u = None) ->
        a' = a + length us).
Proof.
  induction us as [|u us IH]; intros mp a l Hne Hall.
  - exists mp, a, l. cbn. split; [done|]. split; [done|]. split; [done|].
    split; [intros u Hu; by apply elem_of_nil in Hu|]. split; [done|].
    intros _ _. lia.
  - apply Forall_cons in Hall as [Hu Hall]. cbn [fold_left].
    unfold Api.baselineStep at 2.
    destruct (Api.unseen mp (Utils.hashUrl u)) eqn:E.
    + apply unseen_nonEmpty in E; [|done].
      destruct (IH (<[Utils.hashUrl u := u]> mp) (S a)
                  (if length l <? 5 then l ++ [u] else l)) as
        (mp' & a' & l' & Hf & H1 & H2 & H3 & H4 & H5); [|done|].
      { intros k v. destruct (decide (Utils.hashUrl u = k)) as [<-|Hk].
        - rewrite lookup_insert_eq. congruence.
        - rewrite lookup_insert_ne by done. apply Hne. }
      exists mp', a', l'. split; [done|]. split; [done|].
      split. { intros k Hk. apply H2. destruct (decide (Utils.hashUrl u = k)) as [<-|Hk'].
               - rewrite lookup_insert_eq. eauto.
               - by rewrite lookup_insert_ne. }
      split. { intros x Hx. apply elem_of_cons in Hx as [->|Hx]; [|by apply H3].
               apply H2. rewrite lookup_insert_eq. eauto. }
      split. { rewrite map_size_insert_None in H4 by done. lia. }
      intros Hnd Hfresh. cbn in Hnd. apply NoDup_cons in Hnd as [Hnotin Hnd].
      rewrite H5; [cbn; lia|done|].
      intros x Hx. rewrite lookup_insert_ne.
      * apply Hfresh. by right.
      * intros Heq. apply Hnotin. rewrite Heq. apply list_elem_of_In, in_map.
        by apply list_elem_of_In.
    + destruct (IH mp a (if length l <? 5 then l ++ [u] else l)) as
        (mp' & a' & l' & Hf & H1 & H2 & H3 & H4 & H5); [done|done|].
      exists mp', a', l'. split; [done|]. split; [done|]. split; [done|].
      split. { intros x Hx. apply elem_of_cons in Hx as [->|Hx]; [|by apply H3].
               apply H2. unfold Api.unseen in E. destruct (mp !! Utils.hashUrl u); [eauto|done]. }
      split; [done|].
      intros Hnd Hfresh. exfalso.
      assert (mp !! Utils.hashUrl u = None) as Hn by (apply Hfresh; by left).
      unfold Api.unseen in E. by rewrite Hn in E.
Qed.

Lemma baseline_fold_again us : forall mp a l,
  nonEmptyValues mp -> (forall u, u ∈ us -> is_Some (mp !! Utils.hashUrl u)) ->
  exists l', fold_left Api.baselineStep us (mp, a, l) = (mp, a, l').
Proof.
  induction us as [|u us IH]; intros mp a l Hne Hin; [by exists l|].
  cbn [fold_left]. unfold Api.baselineStep at 2.
  destruct (Api.unseen mp (Utils.hashUrl u)) eqn:E.
  - apply unseen_nonEmpty in E; [|done].
    destruct (Hin u) as [v Hv]; [by left|]. congruence.
  - apply IH; [done|]. intros x Hx. apply Hin. by right.
Qed.

Lemma baseline_run p id m index site S :
  noStorageFaults p ->
  Api.findIndex id (sites m) = Some (index, site) ->
  (forall m0, fst (SiteScanner.fetchSitemapUrls p (Site.sitemapUrl site) m0) = Ok (map Js.Str S)) ->
  forall mp a l,
  fold_left Api.baselineStep (map Utils.normalizeUrl S)
            (default ∅ (seen m !! Site.id site), 0, []) = (mp, a, l) ->
  exists t d m',
    Api.baseline p id m = (Ok (Api.baselinedSite site t mp (length S) a d l), m')
    /\ sites m' = <[index := Api.baselinedSite site t mp (length S) a d l]> (sites m)
    /\ seen m' = <[Site.id site := mp]> (seen m).
Proof.
  intros Hnf Hfind Hfetch mp a l Hfold.
  unfold Api.baseline. unfold bind at 1. unfold now at 1.
  unfold bind at 1. unfold Storage.loadSites. unfold bind at 1.
  rewrite call_ok by apply Hnf. cbv beta iota. cbn [sites logged]. rewrite Hfind.
  unfold bind at 1. unfold tryCatch at 1.
  unfold Api.baselineMerge. unfold bind at 1. rewrite fetchSitemapUrls_run, Hfetch.
  unfold bind at 1. unfold Storage.loadSeen. unfold bind at 1.
  rewrite call_ok by apply Hnf. cbv beta iota. cbn [seen logged].
  unfold bind at 1, lift. rewrite baselineLoop_strings, Hfold.
  unfold Storage.saveSeen. unfold bind at 1. unfold bind at 1.
  rewrite call_ok by apply Hnf. cbv beta iota.
  unfold ret at 1. cbv beta iota.
  unfold bind at 1, now at 1. unfold bind at 1, now at 1.
  unfold tryCatch at 1. unfold bind at 1. unfold Storage.saveSites. unfold bind at 1.
  rewrite call_ok by apply Hnf. cbv beta iota. unfold ret.
  rewrite length_map. eexists _, _, _. split; [reflexivity|]. cbn. done.
Qed.

(** C6 (amended).  Let the sitemap deliver the locations [S], none of which
    normalises to the empty string, to a site whose seen-set is empty, and
    let storage work.  Two baselines in a row both succeed; the second
    inserts nothing and reports the same [seenCount] as the first; and when
    the normalised locations have pairwise distinct hashes, the first
    inserts [|S|] entries. *)
Theorem baseline_twice p id m index site S :
  noStorageFaults p ->
  Api.findIndex id (sites m) = Some (index, site) ->
  default ∅ (seen m !! Site.id site) = ∅ ->
  (forall m0, fst (SiteScanner.fetchSitemapUrls p (Site.sitemapUrl site) m0) = Ok (map Js.Str S)) ->
  Forall (fun u => Utils.normalizeUrl u <> "") S ->
  exists site1 m1 site2 m2,
    Api.baseline p id m = (Ok site1, m1)
    /\ Api.baseline p id m1 = (Ok site2, m2)
    /\ addedCount site2 = Some 0
    /\ Site.seenCount site2 = Site.seenCount site1
    /\ (NoDup (map (fun u => Utils.hashUrl (Utils.normalizeUrl u)) S) ->
        addedCount site1 = Some (length S) /\ Site.seenCount site1 = length S).
Proof.
  intros Hnf Hfind Hempty Hfetch Hne.
  assert (Hne' : Forall (fun u => u <> "") (map Utils.normalizeUrl S)).
  { apply Forall_forall. intros u Hu. apply list_elem_of_In, in_map_iff in Hu as (x & <- & Hx).
    rewrite Forall_forall in Hne. by apply Hne, list_elem_of_In. }
  destruct (baseline_fold (map Utils.normalizeUrl S) ∅ 0 [])
    as (mp & a & l & Hfold & H1 & H2 & H3 & H4 & H5); [done|done|].
  destruct (baseline_run p id m index site S Hnf Hfind Hfetch mp a l)
    as (t & d & m1 & Hrun1 & Hs1 & Hse1).
  { by rewrite Hempty. }
  set (site1 := Api.baselinedSite site t mp (length S) a d l) in *.
  assert (Hfind1 : Api.findIndex id (sites m1) = Some (index, site1)).
  { rewrite Hs1. by eapply findIndex_insert. }
  destruct (baseline_fold_again (map Utils.normalizeUrl S) mp 0 []) as [l2 Hfold2]; [done|done|].
  destruct (baseline_run p id m1 index site1 S Hnf Hfind1 Hfetch mp 0 l2)
    as (t2 & d2 & m2 & Hrun2 & _).
  { cbn [site1 Api.baselinedSite Site.id]. rewrite Hse1, lookup_insert_eq. done. }
  eexists _, _, _, _. split; [exact Hrun1|]. split; [exact Hrun2|].
  split; [done|]. split; [done|].
  intros Hnd. rewrite map_size_empty in H4.
  assert (Ha : a = 0 + length (map Utils.normalizeUrl S))
    by (apply H5; [by rewrite map_map|intros; apply lookup_empty]).
  rewrite length_map in Ha. cbn. split; [by rewrite Ha|lia].
Qed.

Lemma covered_keeps s s' urls : keeps s s' -> covered s urls -> covered s' urls.
Proof.
  intros Hk Hc. eapply Forall_impl; [exact Hc|]. intros v (u & w & Hu & Hw & Hne).
  destruct (Hk _ _ Hw) as (w' & Hw' & E). rewrite (E Hne) in Hw'. eauto.
Qed.

Lemma scanLoop_covers urls : forall s0 n0 s1 n1,
  Api.scanLoop urls (s0, n0) = Ok (s1, n1) ->
  Forall (fun v => forall u, Utils.normalizeUrlOf v = Ok u -> u <> "") urls ->
  covered s1 urls.
Proof.
  induction urls as [|v urls IH]; intros s0 n0 s1 n1; cbn [Api.scanLoop]; [constructor|].
  destruct (Utils.normalizeUrlOf v) as [u|] eqn:Ev; [|done].
  intros Hl Hall. apply Forall_cons in Hall as [Hv Hall].
  pose proof (Hl) as Hl'. 
  destruct (Api.scanStep (s0, n0) u) as [sa na] eqn:Es.
  pose proof (scanLoop_news _ _ _ _ _ Hl) as [Hk _].
  constructor; [|by eapply IH].
  assert (exists w, sa !! Utils.hashUrl u = Some w /\ w <> "") as (w & Hw & Hne).
  { unfold Api.scanStep in Es. destruct (Api.unseen s0 (Utils.hashUrl u)) eqn:E.
    - injection Es as <- <-. exists u. rewrite lookup_insert_eq. split; [done|by apply Hv].
    - injection Es as <- <-. unfold Api.unseen in E.
      destruct (s0 !! Utils.hashUrl u) as [w|]; [|done]. exists w. split; [done|].
      intros ->. done. }
  destruct (Hk _ _ Hw) as (w' & Hw' & E). rewrite (E Hne) in Hw'. eauto.
Qed.

Lemma scanLoop_covered urls : forall s n,
  covered s urls -> Api.scanLoop urls (s, n) = Ok (s, n).
Proof.
  induction urls as [|v urls IH]; intros s n Hc; [done|].
  apply Forall_cons in Hc as [(u & w & Hu & Hw & Hne) Hc].
  cbn [Api.scanLoop]. rewrite Hu. unfold Api.scanStep, Api.unseen. rewrite Hw.
  destruct (String.eqb_spec w ""); [done|]. by apply IH.
Qed.

Lemma mergeSeen_covered items s urls :
  Forall (fun i => NewItem.url i <> "") items -> covered s urls ->
  covered (Api.mergeSeen items s) urls.
Proof.
  unfold Api.mergeSeen. revert s. induction items as [|i items IH]; intros s Hi Hc; [done|].
  apply Forall_cons in Hi as [Hi Hall]. cbn [fold_left]. apply IH; [done|].
  eapply Forall_impl; [exact Hc|]. intros v (u & w & Hu & Hw & Hne).
  destruct (decide (Utils.hashUrl (NewItem.url i) = Utils.hashUrl u)) as [E|E].
  - exists u, (NewItem.url i). rewrite <- E, lookup_insert_eq. done.
  - exists u, w. by rewrite lookup_insert_ne.
Qed.

Lemma scanLoop_news_normal urls : forall s0 n0 s1 n1,
  Api.scanLoop urls (s0, n0) = Ok (s1, n1) ->
  Forall (fun v => forall u, Utils.normalizeUrlOf v = Ok u -> u <> "") urls ->
  Forall (fun u => u <> "") n0 -> Forall (fun u => u <> "") n1.
Proof.
  induction urls as [|v urls IH]; intros s0 n0 s1 n1; cbn [Api.scanLoop].
  - intros ? _ ?. by simplify_eq.
  - destruct (Utils.normalizeUrlOf v) as [u|] eqn:Ev; [|done].
    intros Hl Hall Hn. apply Forall_cons in Hall as [Hv Hall].
    unfold Api.scanStep in Hl. destruct (Api.unseen s0 (Utils.hashUrl u)).
    + eapply IH; [exact Hl|done|]. apply Forall_app. split; [done|].
      constructor; [by apply Hv|done].
    + by eapply IH.
Qed.

Lemma scanLoop_nothing_new urls : forall s0 n0 s1,
  Api.scanLoop urls (s0, n0) = Ok (s1, n0) -> s1 = s0.
Proof.
  induction urls as [|v urls IH]; intros s0 n0 s1; cbn [Api.scanLoop].
  - intros ?. by simplify_eq.
  - destruct (Utils.normalizeUrlOf v) as [u|]; [|done]. unfold Api.scanStep.
    destruct (Api.unseen s0 (Utils.hashUrl u)); [|apply IH].
    intros Hl. apply scanLoop_news in Hl as (_ & added & Ha & _).
    apply (f_equal length) in Ha. rewrite !length_app in Ha. cbn in Ha. lia.
Qed.

(** With no URL normalising to the empty string, a scan repeated on the same
    sitemap finds nothing new. *)
Lemma repeated_scan_reports_nothing p id m site1 items1 m1 site2 items2 m2 :
  Api.scan p id m = (Ok (site1, items1), m1) ->
  Api.scan p id m1 = (Ok (site2, items2), m2) ->
  (forall index site urls,
     Api.findIndex id (sites m) = Some (index, site) ->
     fst (SiteScanner.fetchSitemapUrls p (Site.sitemapUrl site) m) = Ok urls ->
     Forall (fun v => forall u, Utils.normalizeUrlOf v = Ok u -> u <> "") urls) ->
  items2 = [].
Proof.
  intros H1 H2 Hne.
  apply scan_ok in H1
    as (index & site & urls & siteSeen & ma & Hf & Hb & _ & Hd & -> & Hs & Hse & _).
  apply scanDiff_ok in Hd as (seen1 & newUrls & Hu & Hl & Hm & _ & _ & Hnil & Hcons).
  cbn in Hu, Hl, Hnil, Hcons.
  erewrite fetchSitemapUrls_result in Hu.
  specialize (Hne index site urls Hf Hu).
  assert (Hid := proj2 (findIndex_Some _ _ _ _ Hf)).
  assert (Hcov : covered (default ∅ (seen m1 !! Site.id site)) urls).
  { pose proof (scanLoop_covers _ _ _ _ _ Hl Hne) as Hc.
    destruct items1 as [|i items1].
    - destruct (Hnil eq_refl) as (_ & E & _). rewrite Hse, E.
      cbn in Hm. subst newUrls. by rewrite <- (scanLoop_nothing_new _ _ _ _ Hl).
    - destruct Hcons as [-> E]; [done|]. rewrite Hse, E, lookup_insert_eq.
      apply mergeSeen_covered; [|exact Hc].
      pose proof (scanLoop_news_normal _ _ _ _ _ Hl Hne (Forall_nil_2 _)) as Hn.
      rewrite <- Hm in Hn. apply Forall_forall. intros x Hx.
      rewrite Forall_forall in Hn. apply Hn. apply list_elem_of_In, in_map.
      by apply list_elem_of_In. }
  apply scan_ok in H2 as (index2 & site2' & urls2 & siteSeen2 & mb & Hf2 & _ & _ & Hd2 & _).
  rewrite Hs in Hf2. erewrite findIndex_insert in Hf2; [|exact Hf|reflexivity].
  injection Hf2 as <- <-.
  apply scanDiff_ok in Hd2 as (seen2 & newUrls2 & Hu2 & Hl2 & Hm2 & _).
  cbn in Hu2, Hl2. erewrite fetchSitemapUrls_result in Hu2. rewrite Hu in Hu2.
  injection Hu2 as <-.
  rewrite scanLoop_covered in Hl2 by done. injection Hl2 as <- <-.
  by destruct items2.
Qed.

(** C1, the instance used as witness: the network is down. *)
Lemma failed_scan_offline_witness :
  itemStoreReliable Fixture.offline
  /\ siteStoreWritable Fixture.offline
  /\ fst (Api.scan Fixture.offline "site_1" Fixture.ready) = Throw "Failed to fetch"
  /\ seen (snd (Api.scan Fixture.offline "site_1" Fixture.ready)) = seen Fixture.ready
  /\ newItems (snd (Api.scan Fixture.offline "site_1" Fixture.ready))
     = newItems Fixture.ready.
Proof.
  assert (Hi : itemStoreReliable Fixture.offline) by (intros n; split; reflexivity).
  assert (Hw : siteStoreWritable Fixture.offline) by (intros n; reflexivity).
  assert (Hrun : Api.scan Fixture.offline "site_1" Fixture.ready
                 = (Throw "Failed to fetch",
                    snd (Api.scan Fixture.offline "site_1" Fixture.ready)))
    by (vm_compute; reflexivity).
  destruct (failed_scan_keeps_seen_and_items _ _ _ _ _ Hi Hw Hrun) as (Hs & Hn & _).
  split; [exact Hi|]. split; [exact Hw|]. split; [by rewrite Hrun|]. split; [exact Hs|exact Hn].
Defined.

(** C1 as stated fails for a persistence error raised after the seen-set
    was written: the item store is full, the scan fails, and the new URL
    stays in the seen-set without an item. *)
Lemma failed_scan_after_seen_write_counterexample :
  exists message m',
    Api.scan (Fixture.servingWith Fixture.itemStoreFull Fixture.oneNewPage)
             "site_1" Fixture.ready = (Throw message, m')
    /\ message = "The quota has been exceeded."
    /\ seen Fixture.ready !! "site_1"
         ≫= (fun ss => ss !! Utils.hashUrl "https://x.com/super-cool-game") = None
    /\ seen m' !! "site_1"
         ≫= (fun ss => ss !! Utils.hashUrl "https://x.com/super-cool-game")
       = Some "https://x.com/super-cool-game"
    /\ seen m' <> seen Fixture.ready
    /\ newItems m' = [].
Proof.
  eexists _, _. split; [vm_compute; reflexivity|].
  split; [reflexivity|]. split; [vm_compute; reflexivity|]. split; [vm_compute; reflexivity|].
  split; [|reflexivity].
  intros H.
  apply (f_equal (fun s => s !! "site_1"
                    ≫= (fun ss => ss !! Utils.hashUrl "https://x.com/super-cool-game"))) in H.
  vm_compute in H. discriminate H.
Qed.

(** C5, the instance used as witness: a site that was just imported. *)
Lemma scan_before_baseline_witness :
  Api.findIndex "site_1" (sites Fixture.fresh) = Some (0, Fixture.newSite)
  /\ Site.baselineReady Fixture.newSite = false
  /\ exists message m',
       Api.scan (Fixture.serving Fixture.oneNewPage) "site_1" Fixture.fresh
       = (Throw message, m')
       /\ sites m' = sites Fixture.fresh /\ seen m' = seen Fixture.fresh
       /\ newItems m' = newItems Fixture.fresh.
Proof.
  split; [reflexivity|]. split; [reflexivity|].
  destruct (scan_before_baseline_is_rejected (Fixture.serving Fixture.oneNewPage)
              "site_1" Fixture.fresh 0 Fixture.newSite eq_refl eq_refl)
    as (message & m' & Hrun & Hs & Hseen & Hitems & _).
  exists message, m'.
  split; [exact Hrun|]. split; [exact Hs|]. split; [exact Hseen|exact Hitems].
Defined.

(** C5 as stated fails on "before performing any I/O": the site list is
    read from storage before the precondition is tested. *)
Lemma scan_before_baseline_reads_site_list :
  exists message m',
    Api.scan (Fixture.serving Fixture.oneNewPage) "site_1" Fixture.fresh
    = (Throw message, m')
    /\ message = "Baseline not ready"
    /\ trace m' = [EvGet KEY_SITES]
    /\ trace m' <> trace Fixture.fresh.
Proof.
  eexists _, _. split; [vm_compute; reflexivity|]. split; [reflexivity|].
  split; [reflexivity|]. discriminate.
Qed.

(** C6, the instance used as witness: two pages, one listed with a
    trailing slash. *)
Lemma baseline_twice_witness :
  noStorageFaults (Fixture.serving ["https://x.com/a"; "https://x.com/b/"])
  /\ Api.findIndex "site_1" (sites Fixture.fresh) = Some (0, Fixture.newSite)
  /\ default ∅ (seen Fixture.fresh !! Site.id Fixture.newSite) = ∅
  /\ Forall (fun u => Utils.normalizeUrl u <> "") ["https://x.com/a"; "https://x.com/b/"]
  /\ exists site1 m1 site2 m2,
       Api.baseline (Fixture.serving ["https://x.com/a"; "https://x.com/b/"])
                    "site_1" Fixture.fresh = (Ok site1, m1)
       /\ Api.baseline (Fixture.serving ["https://x.com/a"; "https://x.com/b/"])
                       "site_1" m1 = (Ok site2, m2)
       /\ addedCount site2 = Some 0
       /\ Site.seenCount site2 = Site.seenCount site1.
Proof.
  assert (H1 : noStorageFaults (Fixture.serving ["https://x.com/a"; "https://x.com/b/"]))
    by (intros e n; reflexivity).
  assert (H5 : Forall (fun u => Utils.normalizeUrl u <> "")
                      ["https://x.com/a"; "https://x.com/b/"])
    by (repeat constructor; vm_compute; discriminate).
  split; [exact H1|]. split; [reflexivity|]. split; [reflexivity|]. split; [exact H5|].
  destruct (baseline_twice (Fixture.serving ["https://x.com/a"; "https://x.com/b/"])
              "site_1" Fixture.fresh 0 Fixture.newSite
              ["https://x.com/a"; "https://x.com/b/"] H1 eq_refl eq_refl
              (fun m0 => eq_refl) H5)
    as (site1 & m1 & site2 & m2 & Hr1 & Hr2 & Ha & Hc & _).
  exists site1, m1, site2, m2.
  split; [exact Hr1|]. split; [exact Hr2|]. split; [exact Ha|exact Hc].
Defined.

(** C6 as stated fails on [addedCount = |S|]: two distinct locations with
    the same normal form are inserted once. *)
Lemma baseline_merges_equivalent_urls_counterexample :
  NoDup ["https://x.com/a"; "https://x.com/a/"]
  /\ exists site1 m1,
       Api.baseline (Fixture.serving ["https://x.com/a"; "https://x.com/a/"])
                    "site_1" Fixture.fresh = (Ok site1, m1)
       /\ addedCount site1 = Some 1
       /\ addedCount site1 <> Some (length ["https://x.com/a"; "https://x.com/a/"]).
Proof.
  split.
  { apply NoDup_cons. split; [|apply NoDup_singleton].
    intros H. apply list_elem_of_singleton in H. discriminate H. }
  eexists _, _. split; [vm_compute; reflexivity|]. split; [reflexivity|]. discriminate.
Qed.

(** C7.  The seen-set only grows: whatever [baseline] or [scan] returns,
    every slot of every site's seen-set is still there afterwards, with the
    same URL unless it held the empty string.  Yet a location that
    normalises to the empty string, such as [/], is reported as new by every
    scan of the unchanged sitemap, because [!siteSeen[hash]] takes the empty
    string stored in its slot for a missing slot. *)
Theorem seen_set_grows_but_empty_url_is_reported_again :
  (forall p id m r m', Api.baseline p id m = (r, m') -> seenGrows m m')
  /\ (forall p id m r m', Api.scan p id m = (r, m') -> seenGrows m m')
  /\ exists site1 items1 m1 site2 items2 m2,
       Api.scan (Fixture.serving Fixture.withRootLocation) "site_1" Fixture.ready
       = (Ok (site1, items1), m1)
       /\ Api.scan (Fixture.serving Fixture.withRootLocation) "site_1" m1
          = (Ok (site2, items2), m2)
       /\ map NewItem.url items1 = [""]
       /\ map NewItem.url items2 = [""]
       /\ Site.lastNewFound site1 = 1
       /\ Site.lastNewFound site2 = 1.
Proof.
  split; [exact baseline_seenGrows|]. split; [exact scan_seenGrows|].
  eexists _, _, _, _, _, _.
  split; [vm_compute; reflexivity|]. split; [vm_compute; reflexivity|].
  repeat split; reflexivity.
Qed.

(** C7, the instance used as witness: the known page is still in the
    seen-set after a scan that found a new one. *)
Lemma seen_set_grows_witness :
  seenGrows Fixture.ready
            (snd (Api.scan (Fixture.serving Fixture.oneNewPage) "site_1" Fixture.ready)).
Proof.
  apply (proj1 (proj2 seen_set_grows_but_empty_url_is_reported_again)
           (Fixture.serving Fixture.oneNewPage) "site_1" Fixture.ready
           (fst (Api.scan (Fixture.serving Fixture.oneNewPage) "site_1" Fixture.ready))).
  vm_compute. reflexivity.
Defined.

(** C8, the instance used as witness: one new page, classified as a game. *)
Lemma scan_builds_items_witness :
  Api.scan (Fixture.serving Fixture.oneNewPage) "site_1" Fixture.ready
  = (Ok (Fixture.scannedRecord (Fixture.serving Fixture.oneNewPage),
         Fixture.scannedItems (Fixture.serving Fixture.oneNewPage)),
     snd (Api.scan (Fixture.serving Fixture.oneNewPage) "site_1" Fixture.ready))
  /\ map NewItem.url (Fixture.scannedItems (Fixture.serving Fixture.oneNewPage))
     = ["https://x.com/super-cool-game"]
  /\ Forall (fun i => NewItem.reviewStatus i = pending <-> NewItem.urlType i = UrlType.game)
            (Fixture.scannedItems (Fixture.serving Fixture.oneNewPage)).
Proof.
  assert (Hrun : Api.scan (Fixture.serving Fixture.oneNewPage) "site_1" Fixture.ready
    = (Ok (Fixture.scannedRecord (Fixture.serving Fixture.oneNewPage),
           Fixture.scannedItems (Fixture.serving Fixture.oneNewPage)),
       snd (Api.scan (Fixture.serving Fixture.oneNewPage) "site_1" Fixture.ready)))
    by (vm_compute; reflexivity).
  split; [exact Hrun|]. split; [vm_compute; reflexivity|].
  destruct (proj1 scan_builds_one_item_per_new_url_but_repeats_empty_url _ _ _ _ _ _ Hrun)
    as (index & site & urls & seen1 & newUrls & _ & _ & _ & _ & Hall & _).
  eapply Forall_impl; [exact Hall|]. intros i (_ & H & _). exact H.
Defined.

(** C9, the instance used as witness: the sitemap lists only the known
    page. *)
Lemma scan_without_news_witness :
  Api.scan (Fixture.serving ["https://x.com/a"]) "site_1" Fixture.ready
  = (Ok (Fixture.scannedRecord (Fixture.serving ["https://x.com/a"]), []),
     snd (Api.scan (Fixture.serving ["https://x.com/a"]) "site_1" Fixture.ready))
  /\ seen (snd (Api.scan (Fixture.serving ["https://x.com/a"]) "site_1" Fixture.ready))
     = seen Fixture.ready
  /\ newItems (snd (Api.scan (Fixture.serving ["https://x.com/a"]) "site_1" Fixture.ready))
     = newItems Fixture.ready.
Proof.
  assert (Hrun : Api.scan (Fixture.serving ["https://x.com/a"]) "site_1" Fixture.ready
    = (Ok (Fixture.scannedRecord (Fixture.serving ["https://x.com/a"]), []),
       snd (Api.scan (Fixture.serving ["https://x.com/a"]) "site_1" Fixture.ready)))
    by (vm_compute; reflexivity).
  split; [exact Hrun|].
  destruct (scan_without_news_only_saves_site _ _ _ _ _ Hrun)
    as (index & site & parsed & calls & _ & Hs & Hn & _).
  split; [exact Hs|exact Hn].
Defined.

End ApiFacts.

(** ** utils.ts: [normalizeDomain] and [hashUrl] *)

Module UtilsFacts.
Import Str StrSpec Chars.

Lemma lowerChar_idem c : lowerChar (lowerChar c) = lowerChar c.
Proof. destruct c as [[] [] [] [] [] [] [] []]; reflexivity. Qed.

Lemma lowerChar_ws c : isWhiteSpace (lowerChar c) = isWhiteSpace c.
Proof. destruct c as [[] [] [] [] [] [] [] []]; reflexivity. Qed.

Lemma toLowerCase_idem s : toLowerCase (toLowerCase s) = toLowerCase s.
Proof. induction s as [|c s IH]; [done|]. cbn. by rewrite lowerChar_idem, IH. Qed.

Lemma toLowerCase_drop n s : toLowerCase (drop n s) = drop n (toLowerCase s).
Proof. revert s. induction n as [|n IH]; intros [|c s]; cbn; try done. Qed.

Lemma toLowerCase_dropLast s : toLowerCase (dropLast s) = dropLast (toLowerCase s).
Proof.
  induction s as [|c s IH]; [done|]. destruct s as [|d s]; [done|].
  cbn in *. by rewrite IH.
Qed.

Lemma normalizeDomain_lower x :
  toLowerCase (Utils.normalizeDomain x) = Utils.normalizeDomain x.
Proof.
  unfold Utils.normalizeDomain.
  set (d := toLowerCase (trim x)).
  assert (Hd : toLowerCase d = d) by apply toLowerCase_idem.
  assert (H1 : forall n, toLowerCase (drop n d) = drop n d)
    by (intros n; by rewrite toLowerCase_drop, Hd).
  destruct (startsWith "https://" d); [|destruct (startsWith "http://" d)].
  all: match goal with |- context [endsWithChar "/" ?t] =>
         destruct (endsWithChar "/" t) end.
  all: rewrite ?toLowerCase_dropLast, ?H1, ?Hd; done.
Qed.

(** X1.  [normalizeDomain] trims and lower-cases its input, then removes
    one leading scheme and one trailing slash: when the trimmed, lower-cased
    input reads [pre ++ d ++ suf], where [pre] is [https://] or [http://]
    (or nothing, and then [d ++ suf] starts with neither) and [suf] is a
    slash (or nothing, and then [d] does not end with one), the result is
    [d].  The result is always in lower case. *)
Theorem normalizeDomain_strips_scheme_and_slash (x pre d suf : string) :
  toLowerCase (trim x) = pre +:+ d +:+ suf ->
  (pre = "https://" \/ pre = "http://"
   \/ (pre = "" /\ startsWith "https://" (d +:+ suf) = false
                /\ startsWith "http://" (d +:+ suf) = false)) ->
  (suf = "/" \/ (suf = "" /\ endsWithChar "/" d = false)) ->
  Utils.normalizeDomain x = d
  /\ toLowerCase (Utils.normalizeDomain x) = Utils.normalizeDomain x.
Proof.
  intros Hx Hpre Hsuf. split; [|apply normalizeDomain_lower].
  unfold Utils.normalizeDomain. rewrite Hx.
  assert (Hend : (if endsWithChar "/" (d +:+ suf) then dropLast (d +:+ suf)
                  else d +:+ suf) = d).
  { destruct Hsuf as [->|[-> Hd]].
    - by rewrite StrFacts.endsWithChar_snoc, StrFacts.dropLast_snoc.
    - by rewrite StrFacts.app_nil_r', Hd. }
  destruct Hpre as [->|[->|(-> & H1 & H2)]].
  - exact Hend.
  - exact Hend.
  - rewrite StrFacts.app_nil_l, H1, H2. exact Hend.
Qed.

Lemma normalizeDomain_strips_witness :
  Utils.normalizeDomain "  HTTPS://Example.COM/ " = "example.com"
  /\ toLowerCase (Utils.normalizeDomain "  HTTPS://Example.COM/ ")
     = Utils.normalizeDomain "  HTTPS://Example.COM/ ".
Proof.
  apply (normalizeDomain_strips_scheme_and_slash
           "  HTTPS://Example.COM/ " "https://" "example.com" "/").
  - reflexivity.
  - left. reflexivity.
  - left. reflexivity.
Defined.

Lemma allChars_app f a b : allChars f (a +:+ b) = allChars f a && allChars f b.
Proof.
  induction a as [|c a IH]; [done|].
  rewrite StrFacts.app_cons. cbn. by rewrite IH, andb_assoc.
Qed.

Lemma length_app_str a b : String.length (a +:+ b) = String.length a + String.length b.
Proof. induction a as [|c a IH]; [done|]. rewrite StrFacts.app_cons. cbn. by rewrite IH. Qed.

Lemma hexDigit_hex n : (0 <= n < 16)%Z -> isHexChar (Sha1.hexDigit n) = true.
Proof.
  intros H.
  assert (Hn : n = Z.of_nat (Z.to_nat n)) by lia.
  rewrite Hn. assert (Hk : Z.to_nat n < 16) by lia.
  generalize dependent (Z.to_nat n). intros k _ Hk.
  do 16 (destruct k as [|k]; [reflexivity|]). lia.
Qed.

Lemma hexByte_hex b : (0 <= b < 256)%Z -> allChars isHexChar (Sha1.hexByte b) = true.
Proof.
  intros H. unfold Sha1.hexByte. cbn [allChars].
  rewrite !hexDigit_hex; [done| |].
  - change 15%Z with (Z.ones 4). rewrite Z.land_ones by lia. apply Z.mod_pos_bound. lia.
  - rewrite Z.shiftr_div_pow2 by lia. change (2 ^ 4)%Z with 16%Z.
    split; [apply Z.div_pos; lia|]. apply Z.div_lt_upper_bound; lia.
Qed.

Lemma hex_spec bs :
  Forall (fun b => 0 <= b < 256)%Z bs ->
  String.length (Sha1.hex bs) = 2 * length bs /\ allChars isHexChar (Sha1.hex bs) = true.
Proof.
  induction 1 as [|b bs Hb _ [IH1 IH2]]; [done|].
  cbn [Sha1.hex fold_right]. fold (Sha1.hex bs).
  rewrite length_app_str, allChars_app, IH1, IH2, hexByte_hex by done.
  split; [cbn; lia|done].
Qed.

Lemma bytesBE_spec n x :
  length (Sha1.bytesBE n x) = n /\ Forall (fun b => 0 <= b < 256)%Z (Sha1.bytesBE n x).
Proof.
  induction n as [|n [IH1 IH2]]; [split; [done|constructor]|].
  cbn [Sha1.bytesBE]. split; [cbn; by rewrite IH1|].
  constructor; [|done].
  change 255%Z with (Z.ones 8). rewrite Z.land_ones by lia. apply Z.mod_pos_bound. lia.
Qed.

Lemma digest_spec msg :
  length (Sha1.digest msg) = 20 /\ Forall (fun b => 0 <= b < 256)%Z (Sha1.digest msg).
Proof.
  unfold Sha1.digest.
  destruct (Sha1.blocks _ _ _) as [[[[h0 h1] h2] h3] h4].
  split.
  - rewrite !length_app. by rewrite !(proj1 (bytesBE_spec _ _)).
  - rewrite !Forall_app. repeat split; apply bytesBE_spec.
Qed.

(** X3.  [hashUrl] returns forty lower-case hexadecimal digits for every
    URL; in particular a hash is never the empty string, so every hash is a
    usable key of a seen-set. *)
Theorem hashUrl_is_forty_hex_digits (url : string) :
  String.length (Utils.hashUrl url) = 40
  /\ allChars isHexChar (Utils.hashUrl url) = true
  /\ Utils.hashUrl url <> "".
Proof.
  unfold Utils.hashUrl.
  destruct (digest_spec (Sha1.utf8 url)) as [Hl Hb].
  destruct (hex_spec _ Hb) as [H1 H2]. rewrite Hl in H1.
  split; [exact H1|]. split; [exact H2|].
  intros E. rewrite E in H1. discriminate H1.
Qed.
End UtilsFacts.

(** ** utils.ts: [extractGameKeyword] *)

Module KeywordFacts.
Import Str StrSpec Chars.

Lemma allChars_trimStart f s : allChars f s = true -> allChars f (trimStart s) = true.
Proof.
  induction s as [|c s IH]; [done|]. cbn [trimStart]. intros H.
  destruct (isWhiteSpace c); [|done]. cbn in H. apply andb_prop in H as [_ H]. auto.
Qed.

Lemma allChars_trimEnd f s : allChars f s = true -> allChars f (trimEnd s) = true.
Proof.
  induction s as [|c s IH]; [done|]. cbn [trimEnd allChars]. intros H.
  apply andb_prop in H as [Hc H]. specialize (IH H).
  destruct (trimEnd s) as [|d t].
  - destruct (isWhiteSpace c); [done|]. cbn. by rewrite Hc.
  - change (f c && allChars f (String d t) = true). by rewrite Hc.
Qed.

Lemma splitOn_pieces sep s :
  Forall (fun piece => allChars (fun c => negb (Ascii.eqb c sep)) piece = true)
         (splitOn sep s).
Proof.
  induction s as [|c s IH]; [by repeat constructor|].
  cbn [splitOn]. destruct (Ascii.eqb c sep) eqn:E.
  - by constructor.
  - destruct (splitOn sep s) as [|l ls]; [repeat constructor; cbn; by rewrite E|].
    inversion IH as [|? ? Hl Hls]; subst. constructor; [|done].
    cbn. by rewrite E, Hl.
Qed.

Lemma lastOr_Forall (P : string -> Prop) d l : P d -> Forall P l -> P (Utils.lastOr d l).
Proof. intros Hd H. revert d Hd. induction H; intros d Hd; cbn; auto. Qed.

Lemma keywordChar_lower c :
  Ascii.eqb c "/" = false ->
  keywordChar
    (lowerChar (if Ascii.eqb c "-" || Ascii.eqb c "_" then " "%char else c)) = true.
Proof. destruct c as [[] [] [] [] [] [] [] []]; intros H; try reflexivity; discriminate H. Qed.

Lemma keyword_chars s :
  allChars (fun c => negb (Ascii.eqb c "/")) s = true ->
  allChars keywordChar (toLowerCase (trim (dashesToSpaces s))) = true.
Proof.
  intros H.
  assert (H1 : allChars (fun c => keywordChar (lowerChar c)) (dashesToSpaces s) = true).
  { induction s as [|c s IH]; [done|]. cbn [allChars] in H.
    apply andb_prop in H as [Hc H]. cbn [dashesToSpaces allChars].
    rewrite keywordChar_lower, IH; [done|done|]. by destruct (Ascii.eqb c "/"). }
  unfold trim. apply allChars_trimStart, allChars_trimEnd in H1.
  revert H1. generalize (trimEnd (trimStart (dashesToSpaces s))). intros t.
  induction t as [|c t IH]; [done|]. cbn. intros H1.
  apply andb_prop in H1 as [-> H1]. by rewrite IH.
Qed.

Lemma trimStart_lower s : trimStart (toLowerCase s) = toLowerCase (trimStart s).
Proof.
  induction s as [|c s IH]; [done|]. cbn [toLowerCase trimStart].
  rewrite UtilsFacts.lowerChar_ws. by destruct (isWhiteSpace c).
Qed.

Lemma trimEnd_lower s : trimEnd (toLowerCase s) = toLowerCase (trimEnd s).
Proof.
  induction s as [|c s IH]; [done|]. cbn [toLowerCase trimEnd].
  rewrite IH, UtilsFacts.lowerChar_ws.
  destruct (trimEnd s); [by destruct (isWhiteSpace c)|done].
Qed.

Lemma trimEnd_idem s : trimEnd (trimEnd s) = trimEnd s.
Proof.
  induction s as [|c s IH]; [done|]. cbn [trimEnd].
  destruct (trimEnd s) as [|d t] eqn:E.
  - destruct (isWhiteSpace c) eqn:Ec; [done|]. cbn. by rewrite Ec.
  - cbn [trimEnd] in IH |- *. by rewrite IH.
Qed.

Lemma trim_idem s : trim (trim s) = trim s.
Proof.
  unfold trim. rewrite (StrFacts.trimStart_id (trimEnd (trimStart s))).
  - apply trimEnd_idem.
  - apply StrFacts.trimEnd_headOk, StrFacts.trimStart_headOk.
Qed.

Lemma trim_lower s : trim (toLowerCase s) = toLowerCase (trim s).
Proof. unfold trim. by rewrite trimStart_lower, trimEnd_lower. Qed.

(** X2.  The keyword [extractGameKeyword] derives from a URL holds no
    hyphen, underscore or slash and no character that [toLowerCase] would
    change, and it neither begins nor ends with white space; it is empty when
    the URL cannot be parsed. *)
Theorem extractGameKeyword_is_clean (p : Platform) (url : string) :
  allChars keywordChar (Utils.extractGameKeyword p url) = true
  /\ trim (Utils.extractGameKeyword p url) = Utils.extractGameKeyword p url
  /\ (urlPathname p url = None -> Utils.extractGameKeyword p url = "").
Proof.
  unfold Utils.extractGameKeyword.
  destruct (urlPathname p url) as [pathname|]; [|done].
  set (parts := filter _ _).
  assert (Hparts : Forall (fun piece =>
            allChars (fun c => negb (Ascii.eqb c "/")) piece = true) parts).
  { apply Forall_forall. intros x [_ Hx]%list_elem_of_filter. revert x Hx.
    apply Forall_forall, splitOn_pieces. }
  destruct parts as [|x rest] eqn:E; [done|]. rewrite <- E in *.
  split; [|split; [|done]].
  - apply keyword_chars. by apply (lastOr_Forall (fun piece => allChars _ piece = true)).
  - by rewrite trim_lower, trim_idem.
Qed.
End KeywordFacts.

(** ** scanner.ts: the lines of robots.txt *)

Module RobotsFacts.
Import Str StrSpec Chars.

Lemma lowerChar_colon c : Ascii.eqb (lowerChar c) ":" = Ascii.eqb c ":".
Proof. destruct c as [[] [] [] [] [] [] [] []]; reflexivity. Qed.

Lemma indexOf_colon_lower s : indexOf ":" (toLowerCase s) = None -> indexOf ":" s = None.
Proof.
  induction s as [|c s IH]; [done|]. cbn [toLowerCase indexOf].
  rewrite lowerChar_colon. destruct (Ascii.eqb c ":"); [done|].
  destruct (indexOf ":" (toLowerCase s)); [done|]. intros _. by rewrite IH.
Qed.

Lemma afterFirstColon_app key r :
  indexOf ":" key = None -> afterFirstColon (key +:+ r) = afterFirstColon r.
Proof.
  induction key as [|c key IH]; [done|]. rewrite StrFacts.app_cons.
  cbn [indexOf afterFirstColon]. destruct (Ascii.eqb c ":"); [done|].
  destruct (indexOf ":" key); [done|]. auto.
Qed.

Lemma takeWhile_all f s : allChars f s = true -> takeWhile f s = s.
Proof.
  induction s as [|c s IH]; [done|]. cbn. intros [-> H]%andb_prop. by rewrite IH.
Qed.

Lemma toLowerCase_app a b : toLowerCase (a +:+ b) = toLowerCase a +:+ toLowerCase b.
Proof. induction a as [|c a IH]; [done|]. rewrite StrFacts.app_cons. cbn. by rewrite IH. Qed.

(** A line that begins with the word [sitemap], in any case, and a colon
    passes the test of the loop. *)
Lemma directive_recognised key r :
  toLowerCase key = "sitemap" ->
  startsWith "sitemap:" (toLowerCase (trim (key +:+ ":" +:+ r))) = true
  /\ indexOf ":" key = None.
Proof.
  intros Hk. split; [|by apply indexOf_colon_lower; rewrite Hk].
  assert (Hh : headOk (key +:+ ":" +:+ r)).
  { destruct key as [|c key]; [done|]. rewrite StrFacts.app_cons. cbn.
    rewrite <- UtilsFacts.lowerChar_ws. cbn in Hk. by injection Hk as -> _. }
  unfold trim. rewrite StrFacts.trimStart_id by done.
  rewrite StrFacts.trimEnd_app.
  - rewrite StrFacts.app_cons, StrFacts.app_nil_l, StrFacts.trimEnd_cons by done.
    rewrite toLowerCase_app, Hk. reflexivity.
  - rewrite StrFacts.app_cons, StrFacts.app_nil_l, StrFacts.trimEnd_cons by done. done.
Qed.

(** X4.  A robots.txt line made of the word [sitemap] in any case, a
    colon and a value on the same line is read as a directive whose value is
    everything after the first colon, later colons included.  A value of
    white space only is skipped; a value that starts with [http://] or
    [https://], in any case, is taken as it is once trimmed; any other value
    is appended to scheme and domain, after a slash when it has none. *)
Theorem robotsLine_reads_value_after_first_colon
    (protocol domain key v : string) :
  toLowerCase key = "sitemap" -> v <> "" -> onOneLine v = true ->
  afterFirstColon (key +:+ ":" +:+ v) = Some v
  /\ (trim v = "" ->
      Scanner.robotsLine protocol domain (key +:+ ":" +:+ v) = Scanner.Skip)
  /\ (startsWith "http://" (toLowerCase (trim v))
      || startsWith "https://" (toLowerCase (trim v)) = true ->
      Scanner.robotsLine protocol domain (key +:+ ":" +:+ v) = Scanner.Found (trim v))
  /\ (trim v <> "" ->
      startsWith "http://" (toLowerCase (trim v))
      || startsWith "https://" (toLowerCase (trim v)) = false ->
      Scanner.robotsLine protocol domain (key +:+ ":" +:+ v)
      = Scanner.Found
          (protocol +:+ domain
           +:+ (if startsWith "/" (trim v) then trim v else "/" +:+ trim v))).
Proof.
  intros Hk Hv Hl.
  destruct (directive_recognised key v Hk) as [Hs Hc].
  assert (Ha : afterFirstColon (key +:+ ":" +:+ v) = Some v).
  { rewrite afterFirstColon_app by done.
    destruct v as [|d v]; [done|]. rewrite StrFacts.app_cons, StrFacts.app_nil_l.
    cbn [afterFirstColon]. change (Ascii.eqb ":" ":") with true. cbv iota.
    unfold onOneLine in Hl. pose proof Hl as Hl'. cbn [allChars] in Hl'.
    apply andb_prop in Hl' as [Hd _]. apply negb_true_iff in Hd. rewrite Hd.
    by rewrite takeWhile_all. }
  split; [exact Ha|]. unfold Scanner.robotsLine. rewrite Hs, Ha.
  split; [|split].
  - by intros ->.
  - intros Habs. destruct (String.eqb_spec (trim v) "") as [E|_].
    + rewrite E in Habs. discriminate Habs.
    + by rewrite Habs.
  - intros Hne Habs. destruct (String.eqb_spec (trim v) "") as [E|_]; [done|].
    by rewrite Habs.
Qed.

Lemma robotsLine_reads_value_witness :
  afterFirstColon "Sitemap: https://cdn.example.com:8443/maps/s.xml"
  = Some " https://cdn.example.com:8443/maps/s.xml"
  /\ Scanner.robotsLine "https://" "example.com"
       "Sitemap: https://cdn.example.com:8443/maps/s.xml"
     = Scanner.Found "https://cdn.example.com:8443/maps/s.xml".
Proof.
  destruct (robotsLine_reads_value_after_first_colon "https://" "example.com"
              "Sitemap" " https://cdn.example.com:8443/maps/s.xml")
    as (Ha & _ & Habs & _).
  - reflexivity.
  - discriminate.
  - reflexivity.
  - split; [exact Ha|]. apply Habs. reflexivity.
Defined.

(** X5.  A [Sitemap:] line without a value, also when a carriage return
    follows the colon, makes the loop over robots.txt throw: when only
    skipped lines precede it, the candidate stays the default
    [{scheme}{domain}/sitemap.xml], whatever directives follow. *)
Theorem valueless_directive_keeps_default
    (p : Platform) (domain data key rest : string) (pre post : list string) :
  let protocol := Utils.getProtocol domain in
  axiosGet p true 5000 (protocol +:+ domain +:+ "/robots.txt") = Ok (200%Z, data) ->
  splitLines data = pre ++ (key +:+ ":" +:+ rest) :: post ->
  Forall (fun l => Scanner.robotsLine protocol domain l = Scanner.Skip) pre ->
  toLowerCase key = "sitemap" ->
  rest = "" \/ rest = String "013" "" ->
  Scanner.robotsLine protocol domain (key +:+ ":" +:+ rest) = Scanner.Raise
  /\ Scanner.targetSitemapUrl p domain = Scanner.defaultSitemapUrl domain
  /\ Scanner.url (Scanner.discoverSitemap p domain) = Scanner.defaultSitemapUrl domain.
Proof.
  intros protocol Hget Hlines Hpre Hk Hrest.
  destruct (directive_recognised key rest Hk) as [Hs Hc].
  assert (Hline : Scanner.robotsLine protocol domain (key +:+ ":" +:+ rest)
                  = Scanner.Raise).
  { unfold Scanner.robotsLine. rewrite Hs, afterFirstColon_app by done.
    by destruct Hrest as [-> | ->]. }
  assert (Ht : Scanner.targetSitemapUrl p domain = Scanner.defaultSitemapUrl domain).
  { unfold Scanner.targetSitemapUrl. fold protocol. rewrite Hget.
    change (200 =? 200)%Z with true. cbv iota. rewrite Hlines.
    clear Hlines. induction Hpre as [|l pre Hl Hpre IH]; cbn [app Scanner.robotsLoop].
    - by rewrite Hline.
    - by rewrite Hl. }
  split; [exact Hline|]. split; [exact Ht|].
  by rewrite ScannerFacts.discoverSitemap_url.
Qed.

Lemma valueless_directive_witness :
  Scanner.robotsLine "https://" "example.com" ("Sitemap:" +:+ String "013" "")
  = Scanner.Raise
  /\ Scanner.targetSitemapUrl Cases.emptyDirective "example.com"
     = "https://example.com/sitemap.xml"
  /\ Scanner.url (Scanner.discoverSitemap Cases.emptyDirective "example.com")
     = "https://example.com/sitemap.xml".
Proof.
  apply (valueless_directive_keeps_default Cases.emptyDirective "example.com"
           ("Sitemap:" +:+ String "013" (String "010" "Sitemap: /real.xml"))
           "Sitemap" (String "013" "") [] ["Sitemap: /real.xml"]).
  - reflexivity.
  - reflexivity.
  - constructor.
  - reflexivity.
  - right. reflexivity.
Defined.
End RobotsFacts.

(** ** The extension's scanner *)

Module SiteScannerFacts.
Import Str.

Lemma targetSitemapUrl_run p domain m :
  let robotsUrl := Utils.getProtocol domain +:+ domain +:+ "/robots.txt" in
  exists t,
    SiteScanner.targetSitemapUrl p domain m = (Ok t, logged (EvFetch robotsUrl) m)
    /\ t <> ""
    /\ t = match fetch p robotsUrl with
           | Ok (code, text) =>
               if (200 <=? code)%Z && (code <=? 299)%Z
               then Scanner.robotsLoop (Utils.getProtocol domain) domain
                      (splitLines text) (Scanner.defaultSitemapUrl domain)
               else Scanner.defaultSitemapUrl domain
           | Throw _ => Scanner.defaultSitemapUrl domain
           end.
Proof.
  intros robotsUrl.
  unfold SiteScanner.targetSitemapUrl, tryCatch, bind, SiteScanner.fetchDirect, ret.
  fold robotsUrl.
  pose proof (ScannerFacts.defaultSitemapUrl_nonempty domain) as Hd.
  destruct (fetch p robotsUrl) as [[code text]|msg]; [|by eexists].
  destruct ((200 <=? code)%Z && (code <=? 299)%Z); [|by eexists].
  eexists. split; [reflexivity|]. split; [|done].
  destruct (ScannerFacts.robotsLoop_cases (Utils.getProtocol domain) domain
              (splitLines text) (Scanner.defaultSitemapUrl domain))
    as [->|(pre & line & post & t & _ & _ & Hl & ->)]; [done|].
  by apply ScannerFacts.robotsLine_found_nonempty in Hl.
Qed.

Lemma messageOr_nonempty message : Scanner.messageOr message <> "".
Proof. unfold Scanner.messageOr. by destruct (String.eqb_spec message ""). Qed.

Lemma validateSitemap_run p target m :
  exists d,
    SiteScanner.validateSitemap p target m = (Ok d, logged (EvFetch target) m)
    /\ Scanner.url d = target
    /\ Scanner.status d <> unknown
    /\ (Scanner.error d = None <-> Scanner.status d = ok)
    /\ (default "" (Scanner.error d) = "" <-> Scanner.status d = ok).
Proof.
  assert (Hc : forall message,
    exists d, (Ok (Scanner.caught target message), logged (EvFetch target) m)
              = (Ok d, logged (EvFetch target) m)
    /\ Scanner.url d = target /\ Scanner.status d <> unknown
    /\ (Scanner.error d = None <-> Scanner.status d = ok)
    /\ (default "" (Scanner.error d) = "" <-> Scanner.status d = ok)).
  { intros message. eexists. split; [reflexivity|]. cbn. split; [done|]. split; [done|].
    split; [done|]. split; [|done]. intros H. by apply messageOr_nonempty in H. }
  unfold SiteScanner.validateSitemap, tryCatch, bind, SiteScanner.fetchDirect, lift, ret.
  destruct (fetch p target) as [[code text]|msg]; [|apply Hc].
  destruct (negb _).
  { eexists. split; [reflexivity|]. cbn. split; [done|]. split; [done|]. split; [done|].
    split; [|done]. intros H. discriminate H. }
  destruct (xmlParse p text) as [x|]; [|apply Hc].
  destruct (Js.prop "urlset" x) as [u|]; [|apply Hc].
  destruct (Js.truthy u); [by eexists|].
  destruct (Js.prop "sitemapindex" x) as [s|]; [|apply Hc].
  destruct (Js.truthy s); by eexists.
Qed.

(** X6.  [discoverSitemap] of the extension's scanner never throws and
    touches no store: it requests robots.txt, then the candidate it returns
    as [url], and nothing else.  The [url] is not empty, the status is never
    [unknown], and an error text is present exactly when the status is not
    [ok]. *)
Theorem browser_discoverSitemap_always_answers (p : Platform) (domain : string) (m : Machine) :
  exists d,
    SiteScanner.discoverSitemap p domain m
    = (Ok d,
       logged (EvFetch (Scanner.url d))
         (logged (EvFetch (Utils.getProtocol domain +:+ domain +:+ "/robots.txt")) m))
    /\ Scanner.url d <> ""
    /\ Scanner.status d <> unknown
    /\ (Scanner.error d = None <-> Scanner.status d = ok).
Proof.
  destruct (targetSitemapUrl_run p domain m) as (t & Ht & Hne & _).
  destruct (validateSitemap_run p t
              (logged (EvFetch (Utils.getProtocol domain +:+ domain +:+ "/robots.txt")) m))
    as (d & Hd & Hu & Hs & He & _).
  exists d. unfold SiteScanner.discoverSitemap, bind. rewrite Ht, Hd, Hu.
  split; [done|]. split; [done|]. done.
Qed.

(** X7.  The two scanners agree: when [axios.get] and [fetch] deliver the
    same answers for robots.txt and for the candidate, and neither answer has
    a status from 201 to 299 (where [res.ok] and [status === 200] differ),
    the extension's [discoverSitemap] returns what the server's returns. *)
Theorem browser_and_server_discovery_agree (p : Platform) (domain : string) (m : Machine) :
  let robotsUrl := Utils.getProtocol domain +:+ domain +:+ "/robots.txt" in
  let target := Scanner.targetSitemapUrl p domain in
  axiosGet p true 5000 robotsUrl = fetch p robotsUrl ->
  axiosGet p false 10000 target = fetch p target ->
  (forall url code text,
     url = robotsUrl \/ url = target ->
     fetch p url = Ok (code, text) -> (200 <= code <= 299)%Z -> code = 200%Z) ->
  fst (SiteScanner.discoverSitemap p domain m) = Ok (Scanner.discoverSitemap p domain).
Proof.
  intros robotsUrl target Hrobots Htarget Hcodes.
  assert (Hok : forall url code text,
            url = robotsUrl \/ url = target -> fetch p url = Ok (code, text) ->
            (200 <=? code)%Z && (code <=? 299)%Z = (code =? 200)%Z).
  { intros url code text Hu Hf.
    destruct ((200 <=? code)%Z && (code <=? 299)%Z) eqn:E.
    - rewrite (Hcodes url code text Hu Hf); [done|lia].
    - symmetry. apply Z.eqb_neq. intros ->. discriminate E. }
  destruct (targetSitemapUrl_run p domain m) as (t & Ht & _ & Hdef).
  fold robotsUrl in Ht, Hdef.
  assert (Htt : t = target).
  { rewrite Hdef. unfold target, Scanner.targetSitemapUrl. fold robotsUrl.
    rewrite Hrobots. destruct (fetch p robotsUrl) as [[code text]|msg] eqn:E; [|reflexivity].
    by rewrite (Hok robotsUrl code text (or_introl eq_refl) E). }
  rewrite Htt in Ht. clear Hdef Htt t.
  unfold SiteScanner.discoverSitemap, bind. rewrite Ht.
  unfold Scanner.discoverSitemap. fold target.
  unfold SiteScanner.validateSitemap, Scanner.validateSitemap, tryCatch, bind,
    SiteScanner.fetchDirect, lift, ret.
  rewrite Htarget.
  destruct (fetch p target) as [[code text]|msg] eqn:E; [|reflexivity].
  rewrite (Hok target code text (or_intror eq_refl) E).
  destruct (negb _); [reflexivity|].
  destruct (xmlParse p text) as [x|]; [|reflexivity].
  destruct (Js.prop "urlset" x) as [u|]; [|reflexivity].
  destruct (Js.truthy u); [reflexivity|].
  destruct (Js.prop "sitemapindex" x) as [s|]; [|reflexivity].
  destruct (Js.truthy s); reflexivity.
Qed.

Lemma browser_and_server_discovery_witness :
  fst (SiteScanner.discoverSitemap Cases.sameClient "example.com" Fixture.fresh)
  = Ok (Scanner.discoverSitemap Cases.sameClient "example.com").
Proof.
  apply (browser_and_server_discovery_agree Cases.sameClient "example.com" Fixture.fresh).
  - reflexivity.
  - reflexivity.
  - intros url code text [-> | ->]; vm_compute; intros [= <- _] _; reflexivity.
Defined.
(** X8.  When [fetchSitemapUrls] returns, it has made exactly one
    request, the response had a status from 200 to 299, the parsed document
    has a truthy [urlset] root, and every returned location is truthy:
    missing and empty [loc] values are dropped. *)
Theorem fetchSitemapUrls_success (p : Platform) (sitemapUrl : string) (m m' : Machine)
    (urls : list Js.Val) :
  SiteScanner.fetchSitemapUrls p sitemapUrl m = (Ok urls, m') ->
  Forall (fun u => Js.truthy u = true) urls
  /\ m' = logged (EvFetch sitemapUrl) m
  /\ exists code text xmlData,
       fetch p sitemapUrl = Ok (code, text) /\ (200 <= code <= 299)%Z
       /\ xmlParse p text = Ok xmlData /\ hasRoot "urlset" xmlData.
Proof.
  intros H. split; [|split; [by apply ApiFacts.fetchSitemapUrls_machine in H|]];
    revert H;
    unfold SiteScanner.fetchSitemapUrls, bind, SiteScanner.fetchDirect, lift, throw, ret;
    destruct (fetch p sitemapUrl) as [[code text]|msg] eqn:Ef; [|done| |done];
    (destruct ((200 <=? code)%Z && (code <=? 299)%Z) eqn:Ecode; cbn [negb]; [|done]);
    (destruct (xmlParse p text) as [x|] eqn:Ex; [|done]);
    (destruct (Js.prop "urlset" x) as [us|] eqn:Eus; [|done]);
    (destruct (Js.truthy us) eqn:Et; cbn [negb]; [|done]).
  - destruct (Js.prop "url" us) as [v|]; [|done].
    destruct v as [|b|n|s|xs|fs].
    + cbn. intros [= <- _]. constructor.
    + cbn [Js.truthy]. destruct b; [|intros [= <- _]; constructor].
      cbn. intros [= <- _]. constructor.
    + destruct (Js.truthy (Js.Num n)); [|intros [= <- _]; constructor].
      cbn. intros [= <- _]. constructor.
    + destruct (Js.truthy (Js.Str s)); [|intros [= <- _]; constructor].
      cbn. intros [= <- _]. constructor.
    + destruct (SiteScanner.locs xs) as [ls|]; [|done]. intros [= <- _].
      apply Forall_forall. intros u Hu. apply list_elem_of_In, filter_In in Hu. tauto.
    + cbn [Js.truthy]. cbv iota.
      destruct (Js.prop "loc" _) as [loc|]; [|done].
      destruct (Js.truthy loc) eqn:El; intros [= <- _]; by repeat constructor.
  - intros _. exists code, text, x. split; [reflexivity|]. split; [lia|].
    split; [exact Ex|]. by exists us.
Qed.

Lemma fetchSitemapUrls_success_witness :
  Forall (fun u => Js.truthy u = true) [Js.Str "https://x.com/a"]
  /\ logged (EvFetch "https://x.com/sitemap.xml") Fixture.fresh
     = logged (EvFetch "https://x.com/sitemap.xml") Fixture.fresh
  /\ exists code text xmlData,
       fetch (Fixture.serving ["https://x.com/a"; ""]) "https://x.com/sitemap.xml"
       = Ok (code, text) /\ (200 <= code <= 299)%Z
       /\ xmlParse (Fixture.serving ["https://x.com/a"; ""]) text = Ok xmlData
       /\ hasRoot "urlset" xmlData.
Proof.
  apply (fetchSitemapUrls_success (Fixture.serving ["https://x.com/a"; ""])
           "https://x.com/sitemap.xml" Fixture.fresh).
  reflexivity.
Defined.
End SiteScannerFacts.

(** ** The item store *)

Module StorageFacts.

Lemma existsb_eqb k keys : existsb (String.eqb k) keys = true <-> k ∈ keys.
Proof.
  rewrite existsb_exists. split.
  - intros (x & Hx & ->%String.eqb_eq). by apply list_elem_of_In.
  - intros H. exists k. split; [by apply list_elem_of_In|apply String.eqb_refl].
Qed.

Lemma freshFor_spec current i :
  freshFor current i = true <-> Storage.itemKey i ∉ map Storage.itemKey current.
Proof.
  unfold freshFor. rewrite negb_true_iff, <- not_true_iff_false. by rewrite existsb_eqb.
Qed.

Lemma appendNewItems_run p items m :
  itemStoreReliable p ->
  exists m',
    Storage.appendNewItems p items m = (Ok tt, m')
    /\ sites m' = sites m /\ seen m' = seen m
    /\ clockReads m' = clockReads m /\ idsDrawn m' = idsDrawn m
    /\ newItems m' = newItems m ++ List.filter (freshFor (newItems m)) items
    /\ trace m' = trace m ++ EvGet KEY_NEW_ITEMS
                   :: (if List.filter (freshFor (newItems m)) items is [] then []
                       else [EvSet KEY_NEW_ITEMS]).
Proof.
  intros Hrel.
  unfold Storage.appendNewItems, Storage.loadNewItems, Storage.saveNewItems, bind, ret.
  rewrite ApiFacts.call_ok by apply Hrel. cbn [newItems logged].
  change (fun i => negb (existsb (String.eqb (Storage.itemKey i))
                           (map Storage.itemKey (newItems m))))
    with (freshFor (newItems m)).
  destruct (List.filter (freshFor (newItems m)) items) as [|a added] eqn:E.
  - cbn. eexists. split; [reflexivity|]. cbn. by rewrite app_nil_r.
  - cbn [length Nat.ltb Nat.leb]. rewrite ApiFacts.call_ok by apply Hrel.
    eexists. split; [reflexivity|]. cbn. by rewrite <- app_assoc.
Qed.

Lemma filter_fresh_again current items :
  List.filter (freshFor (current ++ List.filter (freshFor current) items)) items = [].
Proof.
  assert (H : forall l, (forall i, In i l -> In i items) ->
    List.filter (freshFor (current ++ List.filter (freshFor current) items)) l = []).
  { induction l as [|i l IH]; [done|]. intros Hl. cbn.
    rewrite IH by (intros; apply Hl; by right).
    destruct (freshFor (current ++ _) i) eqn:E; [|done]. exfalso.
    apply freshFor_spec in E. apply E. rewrite map_app, elem_of_app.
    destruct (freshFor current i) eqn:Ei.
    - right. apply list_elem_of_In, in_map, filter_In.
      split; [apply Hl; by left|done].
    - left. apply not_true_iff_false in Ei. rewrite freshFor_spec in Ei.
      by apply dec_stable in Ei. }
  by apply H.
Qed.

Lemma filter_sublist {A} (f : A -> bool) l : sublist (List.filter f l) l.
Proof.
  induction l as [|x l IH]; [constructor|]. cbn.
  destruct (f x); by constructor.
Qed.

(** X9.  With a reliable item store, [appendNewItems] keeps the stored
    items as they are and in place, and appends, in the order of the batch,
    exactly the items of the batch whose key [siteId|url] was not stored;
    afterwards every key of the batch is stored.  Keys stay pairwise
    distinct when they were so in the store and in the batch; sites and
    seen-sets are not touched. *)
Theorem appendNewItems_adds_unknown_keys (p : Platform) (items : list NewItem.t) (m : Machine) :
  itemStoreReliable p ->
  exists m' added,
    Storage.appendNewItems p items m = (Ok tt, m')
    /\ sites m' = sites m /\ seen m' = seen m
    /\ newItems m' = newItems m ++ added
    /\ sublist added items
    /\ (forall i, i ∈ added <->
                  i ∈ items /\ Storage.itemKey i ∉ map Storage.itemKey (newItems m))
    /\ (forall i, i ∈ items -> Storage.itemKey i ∈ map Storage.itemKey (newItems m'))
    /\ (NoDup (map Storage.itemKey (newItems m)) -> NoDup (map Storage.itemKey items) ->
        NoDup (map Storage.itemKey (newItems m'))).
Proof.
  intros Hrel.
  destruct (appendNewItems_run p items m Hrel) as (m' & Hrun & Hs & Hn & _ & _ & Hi & _).
  exists m', (List.filter (freshFor (newItems m)) items).
  assert (Hadded : forall i, i ∈ List.filter (freshFor (newItems m)) items <->
            i ∈ items /\ Storage.itemKey i ∉ map Storage.itemKey (newItems m)).
  { intros i. by rewrite list_elem_of_In, filter_In, freshFor_spec, <- list_elem_of_In. }
  split; [exact Hrun|]. split; [exact Hs|]. split; [exact Hn|]. split; [exact Hi|].
  split; [apply filter_sublist|]. split; [exact Hadded|]. rewrite Hi, map_app. split.
  - intros i Hin. rewrite elem_of_app.
    destruct (decide (Storage.itemKey i ∈ map Storage.itemKey (newItems m))) as [|Hnot];
      [by left|right].
    apply list_elem_of_In, in_map, list_elem_of_In, Hadded. done.
  - intros Hcur Hbatch. apply NoDup_app. split; [exact Hcur|]. split.
    + intros k Hk Hk'. apply list_elem_of_In, in_map_iff in Hk' as (i & <- & Hi').
      apply list_elem_of_In, Hadded in Hi' as [_ Hfresh]. done.
    + eapply sublist_NoDup; [exact Hbatch|]. apply fmap_sublist, filter_sublist.
Qed.

Lemma appendNewItems_adds_witness :
  exists m' added,
    Storage.appendNewItems (Fixture.serving []) Cases.foundItems Fixture.ready = (Ok tt, m')
    /\ sites m' = sites Fixture.ready /\ seen m' = seen Fixture.ready
    /\ newItems m' = newItems Fixture.ready ++ added
    /\ sublist added Cases.foundItems
    /\ (forall i, i ∈ added <->
                  i ∈ Cases.foundItems
                  /\ Storage.itemKey i ∉ map Storage.itemKey (newItems Fixture.ready))
    /\ (forall i, i ∈ Cases.foundItems ->
                  Storage.itemKey i ∈ map Storage.itemKey (newItems m'))
    /\ (NoDup (map Storage.itemKey (newItems Fixture.ready)) ->
        NoDup (map Storage.itemKey Cases.foundItems) ->
        NoDup (map Storage.itemKey (newItems m'))).
Proof.
  apply (appendNewItems_adds_unknown_keys (Fixture.serving [])
           Cases.foundItems Fixture.ready).
  intros n. split; reflexivity.
Defined.

(** X10.  Appending the same batch a second time only reads the item
    store: nothing is written and no store changes. *)
Theorem appendNewItems_twice_only_reads (p : Platform) (items : list NewItem.t) (m : Machine) :
  itemStoreReliable p ->
  exists m1,
    Storage.appendNewItems p items m = (Ok tt, m1)
    /\ Storage.appendNewItems p items m1 = (Ok tt, logged (EvGet KEY_NEW_ITEMS) m1).
Proof.
  intros Hrel.
  destruct (appendNewItems_run p items m Hrel) as (m1 & Hrun & _ & _ & _ & _ & Hi & _).
  exists m1. split; [exact Hrun|].
  destruct (appendNewItems_run p items m1 Hrel)
    as (m2 & Hrun2 & Hs & Hn & Hc & Hd & Hi2 & Ht).
  rewrite Hrun2. f_equal.
  rewrite Hi in Hi2, Ht. rewrite filter_fresh_again in Hi2, Ht.
  rewrite app_nil_r, <- Hi in Hi2.
  destruct m1, m2. cbn in *. unfold logged. cbn. congruence.
Qed.

Lemma appendNewItems_twice_witness :
  exists m1,
    Storage.appendNewItems (Fixture.serving []) Cases.foundItems Fixture.ready = (Ok tt, m1)
    /\ Storage.appendNewItems (Fixture.serving []) Cases.foundItems m1
       = (Ok tt, logged (EvGet KEY_NEW_ITEMS) m1).
Proof.
  apply (appendNewItems_twice_only_reads (Fixture.serving [])
           Cases.foundItems Fixture.ready).
  intros n. split; reflexivity.
Defined.

(** X11.  The key [siteId|url] identifies site and URL: two items whose
    site ids hold no vertical bar have the same key only if they have the
    same site id and the same URL. *)
Theorem itemKey_injective (a b : NewItem.t) :
  Str.indexOf "|" (NewItem.siteId a) = None ->
  Str.indexOf "|" (NewItem.siteId b) = None ->
  Storage.itemKey a = Storage.itemKey b ->
  NewItem.siteId a = NewItem.siteId b /\ NewItem.url a = NewItem.url b.
Proof.
  unfold Storage.itemKey.
  generalize (NewItem.url a) (NewItem.url b) (NewItem.siteId b).
  induction (NewItem.siteId a) as [|x sa IH]; intros ua ub [|y sb]; cbn [Str.indexOf].
  - intros _ _ H. change (String "|" ua = String "|" ub) in H. by injection H as ->.
  - destruct (Ascii.eqb_spec y "|"); [done|]. intros _ _ H.
    change (String "|" ua = String y (sb +:+ "|" +:+ ub)) in H. by injection H as <-.
  - destruct (Ascii.eqb_spec x "|"); [done|]. intros _ _ H.
    change (String x (sa +:+ "|" +:+ ua) = String "|" ub) in H. by injection H as ->.
  - destruct (Ascii.eqb x "|"); [done|]. destruct (Ascii.eqb y "|"); [done|].
    destruct (Str.indexOf "|" sa) eqn:Ea; [done|].
    destruct (Str.indexOf "|" sb) eqn:Eb; [done|].
    intros _ _ H.
    change (String x (sa +:+ "|" +:+ ua) = String y (sb +:+ "|" +:+ ub)) in H.
    injection H as -> H. destruct (IH ua ub sb eq_refl Eb H) as [-> ->]. done.
Qed.

Lemma itemKey_injective_witness :
  NewItem.siteId (Cases.gameItem "new_1" "https://x.com/g1" 1700000000010)
  = NewItem.siteId (Cases.gameItem "new_7" "https://x.com/g1" 1700000000070)
  /\ NewItem.url (Cases.gameItem "new_1" "https://x.com/g1" 1700000000010)
     = NewItem.url (Cases.gameItem "new_7" "https://x.com/g1" 1700000000070).
Proof.
  apply (itemKey_injective (Cases.gameItem "new_1" "https://x.com/g1" 1700000000010)
           (Cases.gameItem "new_7" "https://x.com/g1" 1700000000070)).
  - reflexivity.
  - reflexivity.
  - reflexivity.
Defined.
End StorageFacts.

Module ItemFacts.
Import Cases.

Lemma findItem_None id items :
  Storage.findItem id items = None <-> Forall (fun i => NewItem.id i <> id) items.
Proof.
  induction items as [|i rest IH]; cbn; [split; [constructor|done]|].
  destruct (String.eqb_spec (NewItem.id i) id) as [E|E].
  - split; [done|]. by inversion 1.
  - destruct (Storage.findItem id rest); cbn.
    + split; [done|]. inversion 1 as [|? ? _ Hr]; subst. by apply IH in Hr.
    + split; [|done]. intros _. constructor; [done|]. by apply IH.
Qed.


(** X12.  [api.updateNewItem] with an id that no stored item carries
    reads the item store once, writes nothing, and throws; the message is
    "Item not found" when the read itself goes through. *)
Theorem updateNewItem_unknown_id (p : Platform) (id : string) (data : ItemUpdate.t)
    (m : Machine) :
  Forall (fun i => NewItem.id i <> id) (newItems m) ->
  exists e m',
    Api.updateNewItem p id data m = (Throw e, m')
    /\ stores m' = stores m
    /\ trace m' = trace m ++ [EvGet KEY_NEW_ITEMS]
    /\ (storageFault p (EvGet KEY_NEW_ITEMS) (length (trace m)) = None ->
        e = "Item not found").
Proof.
  intros Hnone. apply findItem_None in Hnone.
  unfold Api.updateNewItem, Storage.updateNewItem, Storage.loadNewItems, bind, ret, throw,
    Storage.call.
  destruct (storageFault p _ _) as [e|]; cbn.
  - by exists e, (logged (EvGet KEY_NEW_ITEMS) m).
  - rewrite Hnone. by exists "Item not found", (logged (EvGet KEY_NEW_ITEMS) m).
Qed.

Lemma updateNewItem_unknown_id_witness :
  exists e m',
    Api.updateNewItem Fixture.offline "new_9" confirmIt reviewing = (Throw e, m')
    /\ stores m' = stores reviewing
    /\ trace m' = trace reviewing ++ [EvGet KEY_NEW_ITEMS]
    /\ (storageFault Fixture.offline (EvGet KEY_NEW_ITEMS) (length (trace reviewing)) = None ->
        e = "Item not found").
Proof.
  apply (updateNewItem_unknown_id Fixture.offline "new_9" confirmIt reviewing).
  repeat constructor; discriminate.
Defined.


End ItemFacts.

Module PagingFacts.
Import Cases.

Lemma insertByDate_perm x l : Permutation (Storage.insertByDate x l) (x :: l).
Proof.
  induction l as [|y l IH]; cbn; [done|].
  destruct (NewItem.discoveredAt x <? NewItem.discoveredAt y)%Z; [|done].
  rewrite IH. apply perm_swap.
Qed.

Lemma sortByDateDesc_perm l : Permutation (Storage.sortByDateDesc l) l.
Proof. induction l as [|x l IH]; cbn; [done|]. by rewrite insertByDate_perm, IH. Qed.

Lemma insertByDate_sorted x l :
  StronglySorted notOlder l -> StronglySorted notOlder (Storage.insertByDate x l).
Proof.
  induction 1 as [|y l Hs IH Hy]; cbn; [repeat constructor|].
  destruct (Z.ltb_spec (NewItem.discoveredAt x) (NewItem.discoveredAt y)) as [Hlt|Hge].
  - constructor; [done|]. 
    apply Forall_forall. intros z Hz.
    apply list_elem_of_In in Hz. apply (Permutation_in _ (insertByDate_perm x l)) in Hz.
    destruct Hz as [<-|Hz]; [unfold notOlder; lia|].
    rewrite Forall_forall in Hy. apply Hy. by apply list_elem_of_In.
  - constructor; [by constructor|]. constructor; [done|].
    eapply Forall_impl; [exact Hy|]. unfold notOlder. intros z Hz. cbn in *. lia.
Qed.

Lemma sortByDateDesc_sorted l : StronglySorted notOlder (Storage.sortByDateDesc l).
Proof. induction l as [|x l IH]; cbn; [constructor|]. by apply insertByDate_sorted. Qed.

Lemma slice_nonneg {A} (offset limit : Z) (l : list A) :
  (0 <= offset)%Z -> (0 <= limit)%Z ->
  Storage.slice offset (offset + limit) l
  = firstn (Z.to_nat limit) (skipn (Z.to_nat offset) l).
Proof.
  intros Ho Hl. unfold Storage.slice.
  destruct (Z.ltb_spec offset 0); [lia|]. destruct (Z.ltb_spec (offset + limit) 0); [lia|].
  set (len := Z.of_nat (length l)).
  destruct (Z.le_gt_cases len offset) as [Hle|Hgt].
  - rewrite (Z.min_r offset len) by lia. rewrite (Z.min_r (offset + limit) len) by lia.
    rewrite !skipn_all2 by lia. by rewrite !firstn_nil.
  - rewrite (Z.min_l offset len) by lia.
    destruct (Z.le_gt_cases (offset + limit) len).
    + rewrite Z.min_l by lia. do 2 f_equal. lia.
    + rewrite Z.min_r by lia.
      rewrite !firstn_all2; [done| |]; rewrite length_skipn; lia.
Qed.

(** X14.  [getSiteNewItems] only reads.  The list it pages through holds
    exactly the stored items of the site, each as often as it is stored,
    newest first; [total] is its length and [data] is the slice from
    [offset] to [offset + limit]. *)
Theorem getSiteNewItems_newest_first (p : Platform) (siteId : string) (limit offset : Z)
    (m : Machine) :
  storageFault p (EvGet KEY_NEW_ITEMS) (length (trace m)) = None ->
  exists sorted,
    Storage.getSiteNewItems p siteId limit offset m
    = (Ok (Storage.slice offset (offset + limit) sorted, length sorted),
       logged (EvGet KEY_NEW_ITEMS) m)
    /\ StronglySorted notOlder sorted
    /\ (forall i, i ∈ sorted <-> i ∈ newItems m /\ NewItem.siteId i = siteId)
    /\ Permutation sorted
         (List.filter (fun i => String.eqb (NewItem.siteId i) siteId) (newItems m)).
Proof.
  intros Hread.
  unfold Storage.getSiteNewItems, Storage.loadNewItems, bind, ret.
  rewrite ApiFacts.call_ok by done. cbn [newItems logged].
  eexists. split; [reflexivity|]. split; [apply sortByDateDesc_sorted|].
  split; [|apply sortByDateDesc_perm].
  intros i. rewrite (sortByDateDesc_perm _).
  rewrite list_elem_of_In, filter_In, String.eqb_eq, <- list_elem_of_In. done.
Qed.

Lemma getSiteNewItems_newest_first_witness :
  exists sorted,
    Storage.getSiteNewItems Fixture.offline "site_1" 2 0 reviewing
    = (Ok (Storage.slice 0 (0 + 2) sorted, length sorted),
       logged (EvGet KEY_NEW_ITEMS) reviewing)
    /\ StronglySorted notOlder sorted
    /\ (forall i, i ∈ sorted <-> i ∈ newItems reviewing /\ NewItem.siteId i = "site_1")
    /\ Permutation sorted
         (List.filter (fun i => String.eqb (NewItem.siteId i) "site_1") (newItems reviewing)).
Proof.
  apply (getSiteNewItems_newest_first Fixture.offline "site_1" 2 0 reviewing).
  reflexivity.
Defined.

(** X15.  Pages of [api.getSiteNew]: for a page number of at least 1 and
    a non-negative limit, [data] is made of the [limit] items that follow the
    first [(page - 1) * limit] ones, fewer at the end of the list, and a page
    that lies within [total] is full.  Page 0 has no data, whatever the
    total. *)
Theorem getSiteNew_pages (p : Platform) (id : string) (page limit : Z) (m : Machine) :
  storageFault p (EvGet KEY_NEW_ITEMS) (length (trace m)) = None ->
  (0 <= limit)%Z ->
  exists data total sorted,
    Api.getSiteNew p id page limit m = (Ok (data, total), logged (EvGet KEY_NEW_ITEMS) m)
    /\ total = length sorted
    /\ sorted = Storage.sortByDateDesc
                  (List.filter (fun i => String.eqb (NewItem.siteId i) id) (newItems m))
    /\ ((1 <= page)%Z ->
        data = firstn (Z.to_nat limit) (skipn (Z.to_nat ((page - 1) * limit)) sorted)
        /\ (length data <= Z.to_nat limit)
        /\ ((page * limit <= Z.of_nat total)%Z -> length data = Z.to_nat limit))
    /\ (page = 0%Z -> data = []).
Proof.
  intros Hread Hlimit.
  unfold Api.getSiteNew, Storage.getSiteNewItems, Storage.loadNewItems, bind, ret.
  rewrite ApiFacts.call_ok by done. cbn [newItems logged].
  set (sorted := Storage.sortByDateDesc _).
  eexists _, _, sorted. split; [reflexivity|]. split; [done|]. split; [done|]. split.
  - intros Hpage. rewrite slice_nonneg by nia. split; [done|]. split.
    + rewrite length_firstn. lia.
    + intros Hfull. rewrite length_firstn, length_skipn. nia.
  - intros ->. unfold Storage.slice.
    replace ((0 - 1) * limit + limit)%Z with 0%Z by lia.
    change (0 <? 0)%Z with false. cbv iota.
    rewrite (Z.min_l 0) by lia.
    match goal with |- firstn (Z.to_nat (0 - ?k)) _ = _ =>
      assert (Hk : (0 <= k)%Z) by (destruct (Z.ltb_spec ((0 - 1) * limit) 0); lia);
      replace (Z.to_nat (0 - k)) with 0 by lia end.
    done.
Qed.

Lemma getSiteNew_pages_witness :
  exists data total sorted,
    Api.getSiteNew Fixture.offline "site_1" 2 2 reviewing
    = (Ok (data, total), logged (EvGet KEY_NEW_ITEMS) reviewing)
    /\ total = length sorted
    /\ sorted = Storage.sortByDateDesc
                  (List.filter (fun i => String.eqb (NewItem.siteId i) "site_1")
                               (newItems reviewing))
    /\ ((1 <= 2)%Z ->
        data = firstn (Z.to_nat 2) (skipn (Z.to_nat ((2 - 1) * 2)) sorted)
        /\ (length data <= Z.to_nat 2)
        /\ ((2 * 2 <= Z.of_nat total)%Z -> length data = Z.to_nat 2))
    /\ (2%Z = 0%Z -> data = []).
Proof.
  apply (getSiteNew_pages Fixture.offline "site_1" 2 2 reviewing).
  - reflexivity.
  - lia.
Defined.
End PagingFacts.

(** ** api: [importSites] *)

Module ImportFacts.

Lemma importLoop_spec p domains : forall sites existing m,
  (forall d, d ∈ existing <-> d ∈ map Site.domain sites) ->
  exists added m',
    Api.importLoop p domains sites existing m = (Ok (sites ++ added), m')
    /\ stores m' = stores m /\ trace m' = trace m
    /\ Forall justImported added
    /\ (NoDup (map Site.domain sites) -> NoDup (map Site.domain (sites ++ added)))
    /\ (forall s, s ∈ added ->
          (Site.domain s ∉ map Site.domain sites)
          /\ (exists raw, raw ∈ domains /\ Site.domain s = Utils.normalizeDomain raw))
    /\ (forall raw, raw ∈ domains -> raw <> "" -> Utils.normalizeDomain raw <> "" ->
          Utils.normalizeDomain raw ∈ map Site.domain (sites ++ added)).
Proof.
  induction domains as [|raw rest IH]; intros sites existing m Hex.
  - exists [], m. cbn. rewrite app_nil_r. split; [done|]. split; [done|]. split; [done|].
    split; [constructor|]. split; [done|].
    split; [by intros s ?%elem_of_nil|by intros r ?%elem_of_nil].
  - cbn [Api.importLoop].
    assert (Hskip : forall (Hin : raw = "" \/ Utils.normalizeDomain raw = ""
                                   \/ Utils.normalizeDomain raw ∈ map Site.domain sites),
      exists added m',
        Api.importLoop p rest sites existing m = (Ok (sites ++ added), m')
        /\ stores m' = stores m /\ trace m' = trace m
        /\ Forall justImported added
        /\ (NoDup (map Site.domain sites) -> NoDup (map Site.domain (sites ++ added)))
        /\ (forall s, s ∈ added ->
              (Site.domain s ∉ map Site.domain sites)
              /\ (exists r, r ∈ raw :: rest /\ Site.domain s = Utils.normalizeDomain r))
        /\ (forall r, r ∈ raw :: rest -> r <> "" -> Utils.normalizeDomain r <> "" ->
              Utils.normalizeDomain r ∈ map Site.domain (sites ++ added))).
    { intros Hin. destruct (IH sites existing m Hex)
        as (added & m' & Hrun & Hs & Ht & Hj & Hnd & Hadd & Hcov).
      exists added, m'. split; [done|]. split; [done|]. split; [done|].
      split; [done|]. split; [done|]. split.
      - intros s Hs'. destruct (Hadd s Hs') as (Hn & r & Hr & Hd).
        split; [done|]. exists r. split; [by right|done].
      - intros r [->|Hr]%elem_of_cons Hne Hn; [|by apply Hcov].
        destruct Hin as [?|[?|Hin]]; [done|done|].
        rewrite map_app, elem_of_app. by left. }
    destruct (String.eqb_spec raw "") as [E|E]; [apply Hskip; by left|].
    destruct (String.eqb_spec (Utils.normalizeDomain raw) "") as [Ec|Ec];
      [apply Hskip; right; by left|].
    cbn [negb andb].
    destruct (bool_decide_reflect (Utils.normalizeDomain raw ∈ existing)) as [Hin|Hin];
      cbn [negb]; [apply Hskip; right; right; by apply Hex|].
    unfold bind at 1, uuid. unfold bind at 1, now.
    set (site := Api.importedSite _ _ _).
    match goal with |- context [Api.importLoop p rest _ _ ?m1] =>
      destruct (IH (sites ++ [site]) ({[Utils.normalizeDomain raw]} ∪ existing) m1)
        as (added & m' & Hrun & Hs & Ht & Hj & Hnd & Hadd & Hcov) end.
    { intros d. rewrite elem_of_union, elem_of_singleton, map_app, elem_of_app, Hex.
      cbn. rewrite list_elem_of_singleton. tauto. }
    exists (site :: added), m'.
    rewrite <- app_assoc in Hrun, Hnd, Hcov. cbn [app] in Hrun, Hnd, Hcov.
    split; [exact Hrun|]. split; [exact Hs|]. split; [exact Ht|].
    assert (Hnew : Utils.normalizeDomain raw ∉ map Site.domain sites)
      by (by rewrite <- Hex).
    split; [constructor; [by repeat split|done]|]. split; [|split].
    + intros Hn. apply Hnd. rewrite map_app. apply NoDup_app.
      split; [done|]. split; [|by apply NoDup_singleton].
      cbn. intros d Hd ->%list_elem_of_singleton. done.
    + intros s [->|Hs']%elem_of_cons.
      * split; [done|]. exists raw. split; [by left|done].
      * destruct (Hadd s Hs') as (Hn & r & Hr & Hd). split.
        -- intros Hd'. apply Hn. rewrite map_app, elem_of_app. by left.
        -- exists r. split; [by right|done].
    + intros r [->|Hr]%elem_of_cons Hne Hn; [|by apply Hcov].
      rewrite map_app, elem_of_app. right. cbn. by left.
Qed.

Lemma importLoop_known p domains sites existing m :
  (forall raw, raw ∈ domains ->
     raw = "" \/ Utils.normalizeDomain raw = "" \/ Utils.normalizeDomain raw ∈ existing) ->
  Api.importLoop p domains sites existing m = (Ok sites, m).
Proof.
  induction domains as [|raw rest IH]; intros Hall; [done|]. cbn [Api.importLoop].
  assert (Hrest : Api.importLoop p rest sites existing m = (Ok sites, m))
    by (apply IH; intros r Hr; apply Hall; by right).
  destruct (String.eqb_spec raw "") as [E|E]; [done|].
  destruct (Hall raw) as [->|[Hc|Hin]]; [by left|done| |].
  - by rewrite Hc.
  - rewrite (bool_decide_eq_true_2 _ Hin). by rewrite andb_false_r.
Qed.

Lemma importSites_unfold p domains m sites' m1 :
  noStorageFaults p ->
  Api.importLoop p domains (sites m) (list_to_set (map Site.domain (sites m)))
                 (logged (EvGet KEY_SITES) m) = (Ok sites', m1) ->
  exists m',
    Api.importSites p domains m = (Ok tt, m')
    /\ sites m' = sites' /\ seen m' = seen m1 /\ newItems m' = newItems m1
    /\ clockReads m' = clockReads m1 /\ idsDrawn m' = idsDrawn m1.
Proof.
  intros Hok Hrun.
  unfold Api.importSites, Storage.loadSites, Storage.saveSites.
  unfold bind at 1. unfold bind at 1. rewrite ApiFacts.call_ok by apply Hok.
  cbn [sites logged]. unfold bind at 1. rewrite Hrun. unfold bind.
  rewrite ApiFacts.call_ok by apply Hok. eexists. split; [reflexivity|]. done.
Qed.

(** X16.  Without storage faults, [importSites] keeps the stored sites as
    they are and in place and appends one site per normalized domain that is
    neither empty nor known, each with the default sitemap URL, status
    [unknown] and no baseline.  Domains stay pairwise distinct, every
    usable domain of the input is stored afterwards, and seen-sets and items
    are not touched. *)
Theorem importSites_adds_unknown_domains (p : Platform) (domains : list string) (m : Machine) :
  noStorageFaults p ->
  exists m' added,
    Api.importSites p domains m = (Ok tt, m')
    /\ sites m' = sites m ++ added
    /\ seen m' = seen m /\ newItems m' = newItems m
    /\ Forall justImported added
    /\ (NoDup (map Site.domain (sites m)) -> NoDup (map Site.domain (sites m')))
    /\ (forall s, s ∈ added ->
          (Site.domain s ∉ map Site.domain (sites m))
          /\ (exists raw, raw ∈ domains /\ Site.domain s = Utils.normalizeDomain raw))
    /\ (forall raw, raw ∈ domains -> raw <> "" -> Utils.normalizeDomain raw <> "" ->
          Utils.normalizeDomain raw ∈ map Site.domain (sites m')).
Proof.
  intros Hok.
  destruct (importLoop_spec p domains (sites m) (list_to_set (map Site.domain (sites m)))
              (logged (EvGet KEY_SITES) m))
    as (added & m1 & Hrun & Hs & _ & Hj & Hnd & Hadd & Hcov).
  { intros d. apply elem_of_list_to_set. }
  destruct (importSites_unfold p domains m _ m1 Hok Hrun) as (m' & Hrun' & H1 & H2 & H3 & _).
  injection Hs as _ Hs2 Hs3. cbn in Hs2, Hs3.
  exists m', added. split; [exact Hrun'|]. split; [exact H1|].
  split; [congruence|]. split; [congruence|]. split; [exact Hj|].
  rewrite H1. done.
Qed.

Lemma importSites_adds_witness :
  exists m' added,
    Api.importSites Fixture.offline ["HTTPS://Y.org/"; ""; "x.com"; "y.org"] Fixture.fresh
    = (Ok tt, m')
    /\ sites m' = sites Fixture.fresh ++ added
    /\ seen m' = seen Fixture.fresh /\ newItems m' = newItems Fixture.fresh
    /\ Forall justImported added
    /\ (NoDup (map Site.domain (sites Fixture.fresh)) -> NoDup (map Site.domain (sites m')))
    /\ (forall s, s ∈ added ->
          (Site.domain s ∉ map Site.domain (sites Fixture.fresh))
          /\ (exists raw, raw ∈ ["HTTPS://Y.org/"; ""; "x.com"; "y.org"]
                          /\ Site.domain s = Utils.normalizeDomain raw))
    /\ (forall raw, raw ∈ ["HTTPS://Y.org/"; ""; "x.com"; "y.org"] -> raw <> "" ->
          Utils.normalizeDomain raw <> "" ->
          Utils.normalizeDomain raw ∈ map Site.domain (sites m')).
Proof.
  apply (importSites_adds_unknown_domains Fixture.offline
           ["HTTPS://Y.org/"; ""; "x.com"; "y.org"] Fixture.fresh).
  intros e n. reflexivity.
Defined.

(** X17.  Importing the same list of domains a second time adds no site,
    draws no identifier and does not read the clock. *)
Theorem importSites_twice_adds_nothing (p : Platform) (domains : list string) (m : Machine) :
  noStorageFaults p ->
  exists m1 m2,
    Api.importSites p domains m = (Ok tt, m1)
    /\ Api.importSites p domains m1 = (Ok tt, m2)
    /\ stores m2 = stores m1
    /\ idsDrawn m2 = idsDrawn m1 /\ clockReads m2 = clockReads m1.
Proof.
  intros Hok.
  destruct (importLoop_spec p domains (sites m) (list_to_set (map Site.domain (sites m)))
              (logged (EvGet KEY_SITES) m))
    as (added & ma & Hrun & _ & _ & _ & _ & _ & Hcov).
  { intros d. apply elem_of_list_to_set. }
  destruct (importSites_unfold p domains m _ ma Hok Hrun) as (m1 & Hrun1 & Hs1 & _).
  assert (Hknown : Api.importLoop p domains (sites m1)
                     (list_to_set (map Site.domain (sites m1))) (logged (EvGet KEY_SITES) m1)
                   = (Ok (sites m1), logged (EvGet KEY_SITES) m1)).
  { apply importLoop_known. intros raw Hraw.
    destruct (decide (raw = "")) as [|Hne]; [by left|right].
    destruct (decide (Utils.normalizeDomain raw = "")) as [|Hn]; [by left|right].
    apply elem_of_list_to_set. rewrite Hs1. by apply Hcov. }
  destruct (importSites_unfold p domains m1 _ _ Hok Hknown)
    as (m2 & Hrun2 & H1 & H2 & H3 & H4 & H5).
  exists m1, m2. split; [exact Hrun1|]. split; [exact Hrun2|].
  cbn in H2, H3, H4, H5. unfold stores. split; [congruence|]. done.
Qed.

Lemma importSites_twice_witness :
  exists m1 m2,
    Api.importSites Fixture.offline ["HTTPS://Y.org/"; "y.org"] Fixture.fresh = (Ok tt, m1)
    /\ Api.importSites Fixture.offline ["HTTPS://Y.org/"; "y.org"] m1 = (Ok tt, m2)
    /\ stores m2 = stores m1
    /\ idsDrawn m2 = idsDrawn m1 /\ clockReads m2 = clockReads m1.
Proof.
  apply (importSites_twice_adds_nothing Fixture.offline ["HTTPS://Y.org/"; "y.org"]
           Fixture.fresh).
  intros e n. reflexivity.
Defined.
End ImportFacts.

(** ** api: [discover], and unknown site ids *)

Module DiscoverFacts.

(** X18.  Without storage faults, [api.discover] of a stored site reads
    the site list, requests robots.txt and the candidate, and saves the site
    list with the one record changed: its [sitemapUrl], never empty, is the
    candidate, its status is not [unknown], and its [errorMessage] is empty
    exactly when the status is [ok].  Id, domain, baseline data and last
    result of the record, the seen-sets and the items stay as they were. *)
Theorem discover_records_result (p : Platform) (id : string) (m : Machine)
    (index : nat) (site : Site.t) :
  noStorageFaults p ->
  Api.findIndex id (sites m) = Some (index, site) ->
  exists site' m',
    Api.discover p id m = (Ok site', m')
    /\ sites m' = <[index := site']> (sites m)
    /\ seen m' = seen m /\ newItems m' = newItems m
    /\ trace m' = trace m ++ [EvGet KEY_SITES;
                              EvFetch (Utils.getProtocol (Site.domain site)
                                       +:+ Site.domain site +:+ "/robots.txt");
                              EvFetch (Site.sitemapUrl site');
                              EvSet KEY_SITES]
    /\ Site.sitemapUrl site' <> ""
    /\ Site.status site' <> unknown
    /\ (Site.errorMessage site' = "" <-> Site.status site' = ok)
    /\ Site.id site' = Site.id site /\ Site.domain site' = Site.domain site
    /\ Site.baselineReady site' = Site.baselineReady site
    /\ Site.seenCount site' = Site.seenCount site
    /\ Site.lastResult site' = Site.lastResult site.
Proof.
  intros Hok Hfind.
  unfold Api.discover, Storage.loadSites, Storage.saveSites.
  unfold bind at 1. unfold bind at 1. rewrite ApiFacts.call_ok by apply Hok.
  cbn [sites logged]. rewrite Hfind.
  destruct (SiteScannerFacts.targetSitemapUrl_run p (Site.domain site)
              (logged (EvGet KEY_SITES) m)) as (t & Ht & Hne & _).
  destruct (SiteScannerFacts.validateSitemap_run p t
              (logged (EvFetch (Utils.getProtocol (Site.domain site)
                                +:+ Site.domain site +:+ "/robots.txt"))
                      (logged (EvGet KEY_SITES) m)))
    as (d & Hd & Hu & Hs & _ & He).
  unfold bind at 1. unfold SiteScanner.discoverSitemap. unfold bind at 1.
  rewrite Ht, Hd. unfold bind. rewrite ApiFacts.call_ok by apply Hok.
  eexists _, _. split; [reflexivity|]. cbn.
  rewrite Hu. rewrite <- !app_assoc. cbn. done.
Qed.

Lemma discover_records_witness :
  exists site' m',
    Api.discover Cases.sameClient "site_1" Fixture.fresh = (Ok site', m')
    /\ sites m' = <[0 := site']> (sites Fixture.fresh)
    /\ seen m' = seen Fixture.fresh /\ newItems m' = newItems Fixture.fresh
    /\ trace m' = trace Fixture.fresh
                  ++ [EvGet KEY_SITES;
                      EvFetch (Utils.getProtocol (Site.domain Fixture.newSite)
                               +:+ Site.domain Fixture.newSite +:+ "/robots.txt");
                      EvFetch (Site.sitemapUrl site');
                      EvSet KEY_SITES]
    /\ Site.sitemapUrl site' <> ""
    /\ Site.status site' <> unknown
    /\ (Site.errorMessage site' = "" <-> Site.status site' = ok)
    /\ Site.id site' = Site.id Fixture.newSite
    /\ Site.domain site' = Site.domain Fixture.newSite
    /\ Site.baselineReady site' = Site.baselineReady Fixture.newSite
    /\ Site.seenCount site' = Site.seenCount Fixture.newSite
    /\ Site.lastResult site' = Site.lastResult Fixture.newSite.
Proof.
  apply (discover_records_result Cases.sameClient "site_1" Fixture.fresh 0 Fixture.newSite).
  - intros e n. reflexivity.
  - reflexivity.
Defined.

(** X19.  With an id that no stored site carries, [discover], [baseline]
    and [scan] throw "Site not found" after reading the site list once:
    no request is made, nothing is written and every store is unchanged. *)
Theorem unknown_site_is_rejected_after_one_read (p : Platform) (id : string) (m : Machine) :
  Api.findIndex id (sites m) = None ->
  storageFault p (EvGet KEY_SITES) (length (trace m)) = None ->
  (exists m1, Api.discover p id m = (Throw "Site not found", m1)
              /\ stores m1 = stores m /\ trace m1 = trace m ++ [EvGet KEY_SITES])
  /\ (exists m2, Api.baseline p id m = (Throw "Site not found", m2)
                 /\ stores m2 = stores m /\ trace m2 = trace m ++ [EvGet KEY_SITES])
  /\ (exists m3, Api.scan p id m = (Throw "Site not found", m3)
                 /\ stores m3 = stores m /\ trace m3 = trace m ++ [EvGet KEY_SITES]).
Proof.
  intros Hfind Hread.
  split; [|split].
  - unfold Api.discover, Storage.loadSites, bind.
    rewrite ApiFacts.call_ok by done. cbn [sites logged]. rewrite Hfind.
    eexists. split; [reflexivity|]. done.
  - unfold Api.baseline, Storage.loadSites, bind, now.
    rewrite ApiFacts.call_ok by done. cbn [sites logged]. rewrite Hfind.
    eexists. split; [reflexivity|]. done.
  - unfold Api.scan, Storage.loadSites, bind, now.
    rewrite ApiFacts.call_ok by done. cbn [sites logged]. rewrite Hfind.
    eexists. split; [reflexivity|]. done.
Qed.

Lemma unknown_site_witness :
  (exists m1, Api.discover Fixture.offline "site_9" Fixture.ready = (Throw "Site not found", m1)
              /\ stores m1 = stores Fixture.ready
              /\ trace m1 = trace Fixture.ready ++ [EvGet KEY_SITES])
  /\ (exists m2, Api.baseline Fixture.offline "site_9" Fixture.ready
                 = (Throw "Site not found", m2)
                 /\ stores m2 = stores Fixture.ready
                 /\ trace m2 = trace Fixture.ready ++ [EvGet KEY_SITES])
  /\ (exists m3, Api.scan Fixture.offline "site_9" Fixture.ready = (Throw "Site not found", m3)
                 /\ stores m3 = stores Fixture.ready
                 /\ trace m3 = trace Fixture.ready ++ [EvGet KEY_SITES]).
Proof.
  apply (unknown_site_is_rejected_after_one_read Fixture.offline "site_9" Fixture.ready).
  - reflexivity.
  - reflexivity.
Defined.
End DiscoverFacts.

(** ** api: [baseline] *)

Module BaselineFacts.

Lemma baselineLoop_spec urls : forall s0 a0 l0 s1 a1 l1,
  Api.baselineLoop urls (s0, a0, l0) = Ok (s1, a1, l1) ->
  exists us,
    normalizedAs urls us
    /\ a0 <= a1 <= a0 + length urls
    /\ size s1 <= size s0 + (a1 - a0)
    /\ l1 = l0 ++ firstn (5 - length l0) us.
Proof.
  induction urls as [|v urls IH]; intros s0 a0 l0 s1 a1 l1; cbn [Api.baselineLoop].
  - intros [= <- <- <-]. exists []. split; [constructor|]. split; [cbn; lia|].
    split; [lia|]. by rewrite firstn_nil, app_nil_r.
  - destruct (Utils.normalizeUrlOf v) as [u|] eqn:Ev; [|done].
    unfold Api.baselineStep.
    set (l0' := if length l0 <? 5 then l0 ++ [u] else l0).
    assert (Hl : forall rest, l0' ++ firstn (5 - length l0') rest
                              = l0 ++ firstn (5 - length l0) (u :: rest)).
    { intros rest. unfold l0'. destruct (Nat.ltb_spec (length l0) 5) as [Hlt|Hge].
      - rewrite length_app. cbn [length].
        replace (5 - length l0) with (S (5 - (length l0 + 1))) by lia.
        cbn [firstn]. by rewrite <- app_assoc.
      - replace (5 - length l0) with 0 by lia. done. }
    destruct (Api.unseen s0 (Utils.hashUrl u)) eqn:Eu; intros H;
      apply IH in H as (us & Hn & Ha & Hs & Hl1);
      exists (u :: us); (split; [by constructor|]); cbn [length];
      (split; [lia|]); (split; [|by rewrite Hl1, Hl]).
    + assert (size (<[Utils.hashUrl u := u]> s0) <= S (size s0)); [|lia].
      destruct (s0 !! Utils.hashUrl u) eqn:E.
      * rewrite map_size_insert_Some by done. lia.
      * rewrite map_size_insert_None by done. lia.
    + lia.
Qed.

(** What the try block of [baseline] does up to [saveSeen]. *)
Lemma baselineMerge_run p site m r m' :
  Api.baselineMerge p site m = (r, m') ->
  sites m' = sites m /\ newItems m' = newItems m
  /\ clockReads m' = clockReads m
  /\ match r with
     | Throw _ => seen m' = seen m
     | Ok (urls, (siteSeen, added, sample)) =>
         fst (SiteScanner.fetchSitemapUrls p (Site.sitemapUrl site) m) = Ok urls
         /\ Api.baselineLoop urls (default ∅ (seen m !! Site.id site), 0, [])
            = Ok (siteSeen, added, sample)
         /\ seen m' = <[Site.id site := siteSeen]> (seen m)
     end.
Proof.
  unfold Api.baselineMerge. unfold bind at 1. rewrite ApiFacts.fetchSitemapUrls_run.
  destruct (fst (SiteScanner.fetchSitemapUrls _ _ m)) as [urls0|e0];
    [|by intros [= <- <-]].
  unfold bind at 1. unfold Storage.loadSeen. unfold bind at 1.
  destruct (Storage.call p (EvGet KEY_SEEN) _) as [[[]|e1] m2] eqn:E1;
    apply ApiFacts.call_stores in E1 as (Hs1 & _ & Hc1 & _);
    injection Hs1 as H1 H2 H3; cbn in H1, H2, H3, Hc1;
    [|by intros [= <- <-]].
  cbv beta iota. rewrite H2. unfold bind at 1, lift.
  destruct (Api.baselineLoop urls0 _) as [[[seen1 added] sample]|e2] eqn:El;
    [|by intros [= <- <-]].
  unfold Storage.saveSeen. unfold bind at 1. unfold bind at 1.
  destruct (Storage.call p (EvSet KEY_SEEN) _) as [[[]|e3] m3] eqn:E3;
    apply ApiFacts.call_stores in E3 as (Hs3 & _ & Hc3 & _);
    injection Hs3 as H4 H5 H6; cbn in H4, H5, H6, Hc3.
  - unfold ret. intros [= <- <-]. cbn. split; [congruence|].
    split; [congruence|]. split; [congruence|]. done.
  - intros [= <- <-]. split; [congruence|]. split; [congruence|].
    split; [congruence|]. congruence.
Qed.

(** Every way [baseline] can go. *)
Lemma baseline_cases p id m r m' :
  Api.baseline p id m = (r, m') ->
  newItems m' = newItems m
  /\ ((stores m' = stores m
       /\ exists e, r = Throw e
            /\ (Api.findIndex id (sites m) = None
                \/ storageFault p (EvGet KEY_SITES) (length (trace m)) = Some e))
      \/ exists index site,
           Api.findIndex id (sites m) = Some (index, site)
           /\ storageFault p (EvGet KEY_SITES) (length (trace m)) = None
           /\ ((exists e e', r = Throw e' /\ seen m' = seen m
                  /\ (sites m' = sites m
                      \/ exists d, sites m' = <[index := Api.failedSite site e d]> (sites m))
                  /\ (siteStoreWritable p ->
                      e' = e
                      /\ exists d, sites m' = <[index := Api.failedSite site e d]> (sites m)))
               \/ (exists urls siteSeen added sample t d,
                     fst (SiteScanner.fetchSitemapUrls p (Site.sitemapUrl site) m) = Ok urls
                     /\ Api.baselineLoop urls (default ∅ (seen m !! Site.id site), 0, [])
                        = Ok (siteSeen, added, sample)
                     /\ seen m' = <[Site.id site := siteSeen]> (seen m)
                     /\ ((r = Ok (Api.baselinedSite site t siteSeen (length urls) added d sample)
                          /\ sites m' = <[index := Api.baselinedSite site t siteSeen
                                                     (length urls) added d sample]> (sites m))
                         \/ ((exists e', r = Throw e')
                             /\ ~ siteStoreWritable p
                             /\ (sites m' = sites m
                                 \/ exists e d',
                                      sites m'
                                      = <[index := Api.failedSite
                                                     (Api.baselinedSite site t siteSeen
                                                        (length urls) added d sample) e d']>
                                          (sites m))))))).
Proof.
  unfold Api.baseline. unfold bind at 1. unfold now at 1.
  unfold bind at 1. unfold Storage.loadSites. unfold bind at 1.
  unfold Storage.call at 1. cbn [trace].
  destruct (storageFault p (EvGet KEY_SITES) (length (trace m))) as [e0|] eqn:Eread.
  { intros [= <- <-]. split; [done|]. left. split; [done|]. exists e0. split; [done|by right]. }
  cbn [sites logged].
  destruct (Api.findIndex id (sites m)) as [[index site]|] eqn:Ef.
  2:{ unfold throw. intros [= <- <-]. split; [done|]. left. split; [done|].
      exists "Site not found". split; [done|by left]. }
  unfold bind at 1. unfold tryCatch at 1.
  match goal with |- context [Api.baselineMerge p site ?m1] =>
    destruct (Api.baselineMerge p site m1) as [[[urls [[siteSeen added] sample]]|e2] m2] eqn:Ed;
    apply baselineMerge_run in Ed as (Hs & Hn & Hc & Hr); cbn in Hs, Hn, Hc, Hr end.
  - destruct Hr as (Hfetch & Hloop & Hseen).
    erewrite ApiFacts.fetchSitemapUrls_result in Hfetch.
    unfold bind at 1, now at 1. unfold bind at 1, now at 1.
    cbv beta iota. cbn [clockReads].
    set (site' := Api.baselinedSite _ _ _ _ _ _ _).
    unfold tryCatch, bind, Storage.saveSites. unfold bind.
    unfold Storage.call at 1. cbn [trace].
    match goal with |- context [storageFault p (EvSet KEY_SITES) ?n] =>
      destruct (storageFault p (EvSet KEY_SITES) n) as [e3|] eqn:Ew end.
    + match goal with |- context [@Api.recordFailure ?A ?p ?ss ?i ?s ?st ?ee ?mm] =>
        destruct (@ApiFacts.recordFailure_run A p ss i s st ee mm)
          as (e' & m3 & -> & H7 & H8 & H9 & _) end.
      intros [= <- <-]. cbn in H7, H8, H9. split; [congruence|]. right.
      exists index, site. split; [done|]. split; [done|]. right.
      eexists urls, siteSeen, added, sample, _, _. split; [exact Hfetch|].
      split; [exact Hloop|]. split; [congruence|]. right.
      split; [by eexists|]. split.
      * intros Hw. by rewrite Hw in Ew.
      * destruct H9 as [H9|H9]; [left; congruence|right]. by eexists _, _.
    + unfold ret. intros [= <- <-]. cbn. split; [congruence|]. right.
      exists index, site. split; [done|]. split; [done|]. right.
      eexists urls, siteSeen, added, sample, _, _. split; [exact Hfetch|].
      split; [exact Hloop|]. split; [congruence|]. left. done.
  - cbv beta iota.
    match goal with |- context [@Api.recordFailure ?A ?p ?ss ?i ?s ?st ?ee ?mm] =>
      destruct (@ApiFacts.recordFailure_run A p ss i s st ee mm)
        as (e' & m3 & -> & H7 & H8 & H9 & H10) end.
    intros [= <- <-]. split; [congruence|]. right.
    exists index, site. split; [done|]. split; [done|]. left.
    exists e2, e'. split; [done|]. split; [congruence|]. split.
    + destruct H9 as [H9|H9]; [left; congruence|right]. by eexists.
    + intros Hw. destruct (H10 Hw) as [-> H11]. split; [done|]. by eexists.
Qed.

(** X20.  A baseline that fails while the site list can be written, that
    is on the network, on parsing, or on reading or writing the seen-set,
    leaves seen-sets and items as they were and records the failure in the
    one site record: status [failed], the error message, and a failure
    summary with zero counts; [baselineReady], [baselineAt] and [seenCount]
    keep their values. *)
Theorem failed_baseline_is_recorded (p : Platform) (id : string) (m m' : Machine)
    (e : string) (index : nat) (site : Site.t) :
  siteStoreWritable p ->
  storageFault p (EvGet KEY_SITES) (length (trace m)) = None ->
  Api.findIndex id (sites m) = Some (index, site) ->
  Api.baseline p id m = (Throw e, m') ->
  seen m' = seen m /\ newItems m' = newItems m
  /\ exists site' summary,
       sites m' = <[index := site']> (sites m)
       /\ Site.status site' = failed /\ Site.errorMessage site' = e
       /\ Site.baselineReady site' = Site.baselineReady site
       /\ Site.baselineAt site' = Site.baselineAt site
       /\ Site.seenCount site' = Site.seenCount site
       /\ Site.lastResult site' = Some summary
       /\ ScanSummary.outcome summary = failure
       /\ ScanSummary.error summary = Some e
       /\ ScanSummary.parsedCount summary = 0
       /\ ScanSummary.newOrInsertedCount summary = 0
       /\ ScanSummary.sampleUrls summary = [].
Proof.
  intros Hw Hread Hfind Hrun.
  apply baseline_cases in Hrun as [Hitems [(_ & e0 & _ & [Hnone|Hfault])|Hsite]];
    [congruence|congruence|].
  destruct Hsite as (index' & site0 & Hfind' & _ & Hcase).
  rewrite Hfind in Hfind'. injection Hfind' as <- <-.
  destruct Hcase as [(e1 & e' & [= ->] & Hseen & _ & Hrec)
                    |(urls & siteSeen & added & sample & t & d & _ & _ & _ & Hend)].
  - destruct (Hrec Hw) as [-> [d Hsites]].
    split; [done|]. split; [done|]. eexists _, _. split; [exact Hsites|]. cbn. done.
  - destruct Hend as [[[=] _]|(_ & Hnw & _)]. done.
Qed.

Lemma failed_baseline_witness :
  seen (snd (Api.baseline Fixture.offline "site_1" Fixture.fresh)) = seen Fixture.fresh
  /\ newItems (snd (Api.baseline Fixture.offline "site_1" Fixture.fresh))
     = newItems Fixture.fresh
  /\ exists site' summary,
       sites (snd (Api.baseline Fixture.offline "site_1" Fixture.fresh))
       = <[0 := site']> (sites Fixture.fresh)
       /\ Site.status site' = failed /\ Site.errorMessage site' = "Failed to fetch"
       /\ Site.baselineReady site' = Site.baselineReady Fixture.newSite
       /\ Site.baselineAt site' = Site.baselineAt Fixture.newSite
       /\ Site.seenCount site' = Site.seenCount Fixture.newSite
       /\ Site.lastResult site' = Some summary
       /\ ScanSummary.outcome summary = failure
       /\ ScanSummary.error summary = Some "Failed to fetch"
       /\ ScanSummary.parsedCount summary = 0
       /\ ScanSummary.newOrInsertedCount summary = 0
       /\ ScanSummary.sampleUrls summary = [].
Proof.
  apply (failed_baseline_is_recorded Fixture.offline "site_1" Fixture.fresh
           (snd (Api.baseline Fixture.offline "site_1" Fixture.fresh))
           "Failed to fetch" 0 Fixture.newSite).
  - intros n. reflexivity.
  - reflexivity.
  - reflexivity.
  - vm_compute. reflexivity.
Defined.

(** X21.  The record a successful baseline returns is the one it stores:
    [baselineReady] is set, status is [ok], [errorMessage] is empty,
    [seenCount] is the size of the seen-set now stored for the site, and the
    summary holds the number of locations parsed, the first five normalized
    URLs as samples and an insertion count that is at most the number of
    locations and at least the growth of the seen-set.  The items are not
    touched. *)
Theorem baseline_success_summary (p : Platform) (id : string) (m m' : Machine)
    (site' : Site.t) :
  Api.baseline p id m = (Ok site', m') ->
  exists index site urls us stored summary,
    Api.findIndex id (sites m) = Some (index, site)
    /\ fst (SiteScanner.fetchSitemapUrls p (Site.sitemapUrl site) m) = Ok urls
    /\ normalizedAs urls us
    /\ sites m' = <[index := site']> (sites m)
    /\ newItems m' = newItems m
    /\ seen m' !! id = Some stored
    /\ Site.seenCount site' = size stored
    /\ Site.baselineReady site' = true
    /\ Site.status site' = ok /\ Site.errorMessage site' = ""
    /\ Site.lastResult site' = Some summary
    /\ ScanSummary.outcome summary = success
    /\ ScanSummary.error summary = None
    /\ ScanSummary.parsedCount summary = length urls
    /\ ScanSummary.sampleUrls summary = firstn 5 us
    /\ ScanSummary.newOrInsertedCount summary <= length urls
    /\ size stored
       <= size (default ∅ (seen m !! id)) + ScanSummary.newOrInsertedCount summary.
Proof.
  intros Hrun.
  apply baseline_cases in Hrun as [Hitems [(_ & e0 & [=] & _)|Hsite]].
  destruct Hsite as (index & site & Hfind & _ & Hcase).
  destruct Hcase as [(e1 & e' & [=] & _)
                    |(urls & siteSeen & added & sample & t & d & Hfetch & Hloop & Hseen & Hend)].
  destruct Hend as [[[= ->] Hsites]|([e' [=]] & _)].
  destruct (ApiFacts.findIndex_Some _ _ _ _ Hfind) as [_ Hid].
  apply baselineLoop_spec in Hloop as (us & Hn & Ha & Hsize & Hsample).
  rewrite Hid in *.
  exists index, site, urls, us, siteSeen. eexists.
  split; [done|]. split; [done|]. split; [done|]. split; [done|]. split; [done|].
  split; [by rewrite Hseen, lookup_insert_eq|]. cbn.
  split; [done|]. split; [done|]. split; [done|]. split; [done|]. split; [done|].
  split; [done|]. split; [done|]. split; [done|]. split; [by rewrite Hsample|].
  cbn [ScanSummary.newOrInsertedCount]. split; lia.
Qed.

Lemma baseline_success_witness :
  exists index site urls us stored summary,
    Api.findIndex "site_1" (sites Fixture.fresh) = Some (index, site)
    /\ fst (SiteScanner.fetchSitemapUrls (Fixture.serving Fixture.oneNewPage)
              (Site.sitemapUrl site) Fixture.fresh) = Ok urls
    /\ normalizedAs urls us
    /\ sites (snd (Api.baseline (Fixture.serving Fixture.oneNewPage) "site_1" Fixture.fresh))
       = <[index := Cases.baselinedRecord]> (sites Fixture.fresh)
    /\ newItems (snd (Api.baseline (Fixture.serving Fixture.oneNewPage) "site_1"
                        Fixture.fresh)) = newItems Fixture.fresh
    /\ seen (snd (Api.baseline (Fixture.serving Fixture.oneNewPage) "site_1" Fixture.fresh))
         !! "site_1" = Some stored
    /\ Site.seenCount Cases.baselinedRecord = size stored
    /\ Site.baselineReady Cases.baselinedRecord = true
    /\ Site.status Cases.baselinedRecord = ok
    /\ Site.errorMessage Cases.baselinedRecord = ""
    /\ Site.lastResult Cases.baselinedRecord = Some summary
    /\ ScanSummary.outcome summary = success
    /\ ScanSummary.error summary = None
    /\ ScanSummary.parsedCount summary = length urls
    /\ ScanSummary.sampleUrls summary = firstn 5 us
    /\ ScanSummary.newOrInsertedCount summary <= length urls
    /\ size stored
       <= size (default ∅ (seen Fixture.fresh !! "site_1"))
          + ScanSummary.newOrInsertedCount summary.
Proof.
  apply (baseline_success_summary (Fixture.serving Fixture.oneNewPage) "site_1" Fixture.fresh
           (snd (Api.baseline (Fixture.serving Fixture.oneNewPage) "site_1" Fixture.fresh))
           Cases.baselinedRecord).
  vm_compute. reflexivity.
Defined.
End BaselineFacts.

(** ** api: what [baseline] and [scan] leave alone *)

Module FrameFacts.

Lemma insert_same_image {B} (f : Site.t -> B) (l : list Site.t) i s s' :
  l !! i = Some s -> f s' = f s -> map f (<[i := s']> l) = map f l.
Proof.
  intros Hl Hf. change (f <$> <[i := s']> l = f <$> l).
  rewrite list_fmap_insert, Hf. apply list_insert_id. by rewrite list_lookup_fmap, Hl.
Qed.

Lemma touchesOnly_insert id m m' index site site' :
  Api.findIndex id (sites m) = Some (index, site) ->
  (forall sid, sid <> id -> seen m' !! sid = seen m !! sid) ->
  sites m' = sites m \/ sites m' = <[index := site']> (sites m) ->
  Site.id site' = Site.id site -> Site.domain site' = Site.domain site ->
  Site.sitemapUrl site' = Site.sitemapUrl site ->
  touchesOnly id m m'.
Proof.
  intros Hfind Hseen Hsites Hid Hdom Hurl.
  apply ApiFacts.findIndex_Some in Hfind as [Hl Hsid].
  unfold touchesOnly.
  destruct Hsites as [Hs|Hs]; rewrite Hs; (split; [exact Hseen|]).
  - done.
  - split; [by eapply insert_same_image|]. split; [by eapply insert_same_image|].
    split; [by eapply insert_same_image|].
    intros j s Hj Hne. destruct (decide (j = index)) as [->|Hji].
    + congruence.
    + by rewrite list_lookup_insert_ne.
Qed.

Lemma touchesOnly_same id m m' :
  sites m' = sites m -> (forall sid, sid <> id -> seen m' !! sid = seen m !! sid) ->
  touchesOnly id m m'.
Proof. intros Hs Hseen. unfold touchesOnly. rewrite Hs. done. Qed.

Lemma buildItems_builtFor p site newUrls : forall m items m',
  Api.buildItems p site newUrls m = (Ok items, m') -> Forall (builtFor p site) items.
Proof.
  induction newUrls as [|u rest IH]; intros m items m'; cbn [Api.buildItems].
  - unfold ret. intros [= <- _]. constructor.
  - unfold bind at 1. unfold Api.buildItem, bind, uuid, now, ret, logged. cbn.
    match goal with |- context [Api.buildItems p site rest ?mm] =>
      destruct (Api.buildItems p site rest mm) as [[its|e] m3] eqn:E end; [|done].
    intros [= <- _]. constructor; [|by eapply IH]. done.
Qed.

Lemma appendNewItems_appends p items m r m' :
  Storage.appendNewItems p items m = (r, m') ->
  exists added, newItems m' = newItems m ++ added /\ sublist added items.
Proof.
  unfold Storage.appendNewItems, Storage.loadNewItems, Storage.saveNewItems, bind, ret.
  destruct (Storage.call p (EvGet KEY_NEW_ITEMS) m) as [[[]|e1] m1] eqn:E1;
    apply ApiFacts.call_stores in E1 as (Hs1 & _); injection Hs1 as H1 H2 H3.
  2:{ intros [= <- <-]. exists []. rewrite app_nil_r. split; [done|apply sublist_nil_l]. }
  destruct (0 <? _).
  - destruct (Storage.call p (EvSet KEY_NEW_ITEMS) m1) as [[[]|e2] m2] eqn:E2;
      apply ApiFacts.call_stores in E2 as (Hs2 & _); injection Hs2 as H4 H5 H6;
      intros [= <- <-]; cbn.
    + eexists. rewrite H3. split; [reflexivity|]. apply StorageFacts.filter_sublist.
    + exists []. rewrite app_nil_r. split; [congruence|apply sublist_nil_l].
  - intros [= <- <-]. exists []. rewrite app_nil_r. split; [done|apply sublist_nil_l].
Qed.

Lemma innerStep_same id m m' :
  sites m' = sites m -> seen m' = seen m -> newItems m' = newItems m -> innerStep id m m'.
Proof.
  intros H1 H2 H3. split; [done|]. split; [by rewrite H2|].
  exists []. rewrite app_nil_r. done.
Qed.

Lemma scanDiff_frame p site m r m' :
  Api.scanDiff p site m = (r, m') ->
  innerStep (Site.id site) m m'
  /\ forall urls siteSeen items, r = Ok (urls, siteSeen, items) ->
       Forall (builtFor p site) items.
Proof.
  unfold Api.scanDiff. unfold bind at 1. rewrite ApiFacts.fetchSitemapUrls_run.
  destruct (fst (SiteScanner.fetchSitemapUrls _ _ m)) as [urls0|e0];
    [|intros [= <- <-]; split; [by apply innerStep_same|done]].
  unfold bind at 1. unfold Storage.loadSeen. unfold bind at 1.
  destruct (Storage.call p (EvGet KEY_SEEN) _) as [[[]|e1] m2] eqn:E1;
    apply ApiFacts.call_stores in E1 as (Hs1 & _); injection Hs1 as H1 H2 H3;
    cbn in H1, H2, H3;
    [|intros [= <- <-]; split; [by apply innerStep_same|done]].
  cbv beta iota. rewrite H2. unfold bind at 1, lift.
  destruct (Api.scanLoop urls0 _) as [[seen1 newUrls]|e2] eqn:El;
    [|intros [= <- <-]; split; [by apply innerStep_same|done]].
  unfold bind at 1.
  destruct (ApiFacts.buildItems_spec p site newUrls m2) as (its & m3 & Hb & Hs3 & _).
  rewrite Hb. injection Hs3 as H4 H5 H6.
  pose proof (buildItems_builtFor _ _ _ _ _ _ Hb) as Hbuilt.
  destruct (0 <? length its).
  2:{ intros [= <- <-]. split; [apply innerStep_same; congruence|].
      by intros ? ? ? [= _ _ <-]. }
  unfold Storage.saveSeen. unfold bind at 1. unfold bind at 1.
  destruct (Storage.call p (EvSet KEY_SEEN) m3) as [[[]|e3] m4] eqn:E3;
    apply ApiFacts.call_stores in E3 as (Hs4 & _); injection Hs4 as H7 H8 H9;
    [|intros [= <- <-]; split; [apply innerStep_same; congruence|done]].
  unfold bind at 1.
  match goal with |- context [Storage.appendNewItems p ?its ?mm] =>
    destruct (Storage.appendNewItems p its mm) as [[[]|e4] m5] eqn:E4 end;
    pose proof (appendNewItems_appends _ _ _ _ _ E4) as (added & Hadd & Hsub);
    apply ApiFacts.appendNewItems_stores in E4 as (H10 & H11 & _);
    cbn in H10, H11, Hadd; unfold ret; intros [= <- <-].
  all: assert (Hall : Forall (fun i => NewItem.siteId i = Site.id site) added)
         by (apply Forall_forall; intros i Hi;
             apply (elem_of_sublist _ _ _ Hi) in Hsub;
             rewrite Forall_forall in Hbuilt; by destruct (Hbuilt i Hsub)).
  all: split;
    [split; [congruence|]; split;
      [intros sid Hne; rewrite H11; by rewrite lookup_insert_ne
      |exists added; split; [congruence|done]]|].
  - by intros ? ? ? [= _ _ <-].
  - done.
Qed.

Lemma scan_frame p id m r m' :
  Api.scan p id m = (r, m') ->
  touchesOnly id m m'
  /\ (exists added, newItems m' = newItems m ++ added
                    /\ Forall (fun i => NewItem.siteId i = id) added)
  /\ forall site' items, r = Ok (site', items) -> Forall (builtFor p site') items.
Proof.
  unfold Api.scan. unfold bind at 1. unfold now at 1.
  unfold bind at 1. unfold Storage.loadSites. unfold bind at 1.
  storage_call as e1 m1 eqn:E1;
    apply ApiFacts.call_stores in E1 as (Hs & _); injection Hs as H1 H2 H3;
    cbn in H1, H2, H3; cbv beta iota.
  2:{ intros [= <- <-]. split; [by apply touchesOnly_same; [|intros; rewrite H2]|].
      split; [|done]. exists []. by rewrite app_nil_r. }
  rewrite H1.
  destruct (Api.findIndex id (sites m)) as [[index site]|] eqn:Ef.
  2:{ unfold throw. intros [= <- <-]. split; [by apply touchesOnly_same; [|intros; rewrite H2]|].
      split; [|done]. exists []. by rewrite app_nil_r. }
  destruct (ApiFacts.findIndex_Some _ _ _ _ Ef) as [_ Hid].
  destruct (negb (Site.baselineReady site)).
  { unfold throw. intros [= <- <-]. split; [by apply touchesOnly_same; [|intros; rewrite H2]|].
    split; [|done]. exists []. by rewrite app_nil_r. }
  unfold bind at 1. unfold tryCatch at 1.
  destruct (Api.scanDiff p site m1) as [[[[urls siteSeen] items]|e2] m2] eqn:Ed;
    apply scanDiff_frame in Ed as [(Hs2 & Hseen2 & added & Hadd & Hall) Hbuilt];
    rewrite Hid in Hseen2, Hall; rewrite H1 in Hs2; rewrite H3 in Hadd.
  - specialize (Hbuilt _ _ _ eq_refl).
    unfold bind at 1, now at 1. unfold bind at 1, now at 1.
    unfold tryCatch at 1. unfold bind at 1. unfold Storage.saveSites. unfold bind at 1.
    storage_call as e3 m3 eqn:E3;
      apply ApiFacts.call_stores in E3 as (Hs3 & _); injection Hs3 as H4 H5 H6;
      cbn in H4, H5, H6; cbv beta iota.
    + unfold ret. intros [= <- <-]. cbn [sites seen newItems]. split; [|split].
      * eapply touchesOnly_insert; [exact Ef| |by right|done|done|done].
        cbn. intros sid Hne. rewrite H5, Hseen2 by done. by rewrite H2.
      * exists added. split; [congruence|done].
      * intros ? ? [= <- <-]. eapply Forall_impl; [exact Hbuilt|]. by intros i Hi.
    + catch_block using (@ApiFacts.recordFailure_run) as (e' & m4 & -> & H7 & H8 & H9 & _).
      intros [= <- <-]. split; [|split; [|done]].
      * assert (Hseen : forall sid, sid <> id -> seen m4 !! sid = seen m !! sid)
          by (intros sid Hne; rewrite H7, H5, Hseen2 by done; by rewrite H2).
        destruct H9 as [H9|H9]; [apply touchesOnly_same; [congruence|done]|].
        eapply touchesOnly_insert; [exact Ef|exact Hseen|right; exact H9|done..].
      * exists added. split; [congruence|done].
  - catch_block using (@ApiFacts.recordFailure_run) as (e' & m4 & -> & H7 & H8 & H9 & _).
    intros [= <- <-]. split; [|split; [|done]].
    + assert (Hseen : forall sid, sid <> id -> seen m4 !! sid = seen m !! sid)
        by (intros sid Hne; rewrite H7, Hseen2 by done; by rewrite H2).
      destruct H9 as [H9|H9]; [apply touchesOnly_same; [congruence|done]|].
      eapply touchesOnly_insert; [exact Ef|exact Hseen|right; exact H9|done..].
    + exists added. split; [congruence|done].
Qed.

(** X23.  Whatever their outcome, [baseline] and [scan] of a site leave
    the seen-sets of all other sites, the records of all other sites, and
    the ids, domains and sitemap URLs of all records as they were. *)
Theorem baseline_and_scan_touch_one_site (p : Platform) (id : string) (m : Machine) :
  (forall r m', Api.baseline p id m = (r, m') -> touchesOnly id m m')
  /\ (forall r m', Api.scan p id m = (r, m') -> touchesOnly id m m').
Proof.
  split; [|intros r m' H; by apply scan_frame in H as [H _]].
  intros r m' Hrun.
  apply BaselineFacts.baseline_cases in Hrun as [_ [(Hst & _)|Hsite]].
  { injection Hst as H1 H2 H3. apply touchesOnly_same; [done|]. intros. by rewrite H2. }
  destruct Hsite as (index & site & Hfind & _ & Hcase).
  destruct (ApiFacts.findIndex_Some _ _ _ _ Hfind) as [_ Hid].
  destruct Hcase as [(e & e' & _ & Hseen & Hsites & _)
                    |(urls & siteSeen & added & sample & t & d & _ & _ & Hseen & Hend)].
  - assert (Hseen' : forall sid, sid <> id -> seen m' !! sid = seen m !! sid)
      by (intros; by rewrite Hseen).
    destruct Hsites as [Hs|[d Hs]]; [by apply touchesOnly_same|].
    eapply touchesOnly_insert; [exact Hfind|exact Hseen'|right; exact Hs|done..].
  - assert (Hseen' : forall sid, sid <> id -> seen m' !! sid = seen m !! sid)
      by (intros sid Hne; rewrite Hseen, lookup_insert_ne; [done|congruence]).
    destruct Hend as [[_ Hs]|(_ & _ & [Hs|(e & d' & Hs)])].
    + eapply touchesOnly_insert; [exact Hfind|exact Hseen'|right; exact Hs|done..].
    + by apply touchesOnly_same.
    + eapply touchesOnly_insert; [exact Hfind|exact Hseen'|right; exact Hs|done..].
Qed.

Lemma baseline_and_scan_touch_witness :
  touchesOnly "site_1" Fixture.fresh
    (snd (Api.baseline (Fixture.serving Fixture.oneNewPage) "site_1" Fixture.fresh))
  /\ touchesOnly "site_1" Fixture.ready
       (snd (Api.scan (Fixture.serving Fixture.oneNewPage) "site_1" Fixture.ready)).
Proof.
  split.
  - apply (proj1 (baseline_and_scan_touch_one_site (Fixture.serving Fixture.oneNewPage)
                    "site_1" Fixture.fresh)
             (fst (Api.baseline (Fixture.serving Fixture.oneNewPage) "site_1" Fixture.fresh))).
    vm_compute. reflexivity.
  - apply (proj2 (baseline_and_scan_touch_one_site (Fixture.serving Fixture.oneNewPage)
                    "site_1" Fixture.ready)
             (fst (Api.scan (Fixture.serving Fixture.oneNewPage) "site_1" Fixture.ready))).
    vm_compute. reflexivity.
Defined.

(** X24.  The item store only grows: [baseline] never changes it, [scan]
    leaves the stored items in place and appends only items of the scanned
    site, whatever the outcome.  Each item a scan returns carries the site's
    id, domain and sitemap URL, the keyword derived from its URL as both
    [keywordAuto] and [keywordFinal], and an id that starts with [new_]. *)
Theorem item_store_only_grows (p : Platform) (id : string) (m : Machine) :
  (forall r m', Api.baseline p id m = (r, m') -> newItems m' = newItems m)
  /\ (forall r m', Api.scan p id m = (r, m') ->
        exists added, newItems m' = newItems m ++ added
                      /\ Forall (fun i => NewItem.siteId i = id) added)
  /\ (forall site' items m', Api.scan p id m = (Ok (site', items), m') ->
        Forall (builtFor p site') items).
Proof.
  split; [|split].
  - intros r m' H. by apply BaselineFacts.baseline_cases in H as [H _].
  - intros r m' H. by apply scan_frame in H as (_ & H & _).
  - intros site' items m' H. apply scan_frame in H as (_ & _ & H). by apply H.
Qed.

Lemma item_store_only_grows_witness :
  newItems (snd (Api.baseline (Fixture.serving Fixture.oneNewPage) "site_1" Fixture.fresh))
  = newItems Fixture.fresh
  /\ (exists added,
        newItems (snd (Api.scan (Fixture.serving Fixture.oneNewPage) "site_1" Cases.reviewing))
        = newItems Cases.reviewing ++ added
        /\ Forall (fun i => NewItem.siteId i = "site_1") added)
  /\ Forall (builtFor (Fixture.serving Fixture.oneNewPage)
               (Fixture.scannedRecord (Fixture.serving Fixture.oneNewPage)))
            (Fixture.scannedItems (Fixture.serving Fixture.oneNewPage)).
Proof.
  split; [|split].
  - apply (proj1 (item_store_only_grows (Fixture.serving Fixture.oneNewPage)
                    "site_1" Fixture.fresh)
             (fst (Api.baseline (Fixture.serving Fixture.oneNewPage) "site_1" Fixture.fresh))).
    vm_compute. reflexivity.
  - apply (proj1 (proj2 (item_store_only_grows (Fixture.serving Fixture.oneNewPage)
                           "site_1" Cases.reviewing))
             (fst (Api.scan (Fixture.serving Fixture.oneNewPage) "site_1" Cases.reviewing))).
    vm_compute. reflexivity.
  - apply (proj2 (proj2 (item_store_only_grows (Fixture.serving Fixture.oneNewPage)
                           "site_1" Fixture.ready))
             (Fixture.scannedRecord (Fixture.serving Fixture.oneNewPage))
             (Fixture.scannedItems (Fixture.serving Fixture.oneNewPage))
             (snd (Api.scan (Fixture.serving Fixture.oneNewPage) "site_1" Fixture.ready))).
    vm_compute. reflexivity.
Defined.
End FrameFacts.

(** ** api: [scan] *)

Module ScanFacts.

Lemma scanLoop_length urls : forall s0 n0 s1 n1,
  Api.scanLoop urls (s0, n0) = Ok (s1, n1) -> length n1 <= length n0 + length urls.
Proof.
  induction urls as [|v urls IH]; intros s0 n0 s1 n1; cbn [Api.scanLoop].
  - intros [= <- <-]. cbn. lia.
  - destruct (Utils.normalizeUrlOf v) as [u|]; [|done]. unfold Api.scanStep.
    destruct (Api.unseen s0 (Utils.hashUrl u)); intros H; apply IH in H;
      rewrite ?length_app in H; cbn in *; lia.
Qed.

Lemma mergeSeen_grows items : forall s k,
  is_Some (s !! k) -> is_Some (Api.mergeSeen items s !! k).
Proof.
  unfold Api.mergeSeen. induction items as [|i items IH]; intros s k Hk; [done|].
  cbn [fold_left]. apply IH.
  destruct (decide (Utils.hashUrl (NewItem.url i) = k)) as [<-|Hne].
  - by rewrite lookup_insert_eq.
  - by rewrite lookup_insert_ne.
Qed.

Lemma mergeSeen_has items : forall s i,
  i ∈ items -> is_Some (Api.mergeSeen items s !! Utils.hashUrl (NewItem.url i)).
Proof.
  induction items as [|x items IH]; intros s i Hi; [by apply elem_of_nil in Hi|].
  apply elem_of_cons in Hi as [->|Hi].
  - unfold Api.mergeSeen. cbn [fold_left]. apply (mergeSeen_grows items).
    by rewrite lookup_insert_eq.
  - unfold Api.mergeSeen. cbn [fold_left]. by apply IH.
Qed.

(** X22.  The record a successful scan returns is the one it stores:
    status [ok], [lastNewFound] and the summary's count equal to the number
    of returned items, samples the URLs of the first five, [seenCount] the
    size of the seen-set now stored for the site.  Every returned item was
    unseen before the scan and has a slot afterwards, and there are at most
    as many items as locations.  The [errorMessage] of the record is not
    cleared: it stays what it was. *)
Theorem scan_success_summary (p : Platform) (id : string) (m m' : Machine)
    (site' : Site.t) (items : list NewItem.t) :
  Api.scan p id m = (Ok (site', items), m') ->
  exists index site urls summary,
    Api.findIndex id (sites m) = Some (index, site)
    /\ fst (SiteScanner.fetchSitemapUrls p (Site.sitemapUrl site) m) = Ok urls
    /\ sites m' = <[index := site']> (sites m)
    /\ Site.status site' = ok
    /\ Site.errorMessage site' = Site.errorMessage site
    /\ Site.baselineReady site' = true
    /\ Site.lastNewFound site' = length items
    /\ Site.seenCount site' = size (default ∅ (seen m' !! id))
    /\ Site.lastResult site' = Some summary
    /\ ScanSummary.outcome summary = success
    /\ ScanSummary.parsedCount summary = length urls
    /\ ScanSummary.newOrInsertedCount summary = length items
    /\ ScanSummary.sampleUrls summary = map NewItem.url (firstn 5 items)
    /\ length items <= length urls
    /\ Forall (fun i =>
                 Api.unseen (default ∅ (seen m !! id)) (Utils.hashUrl (NewItem.url i)) = true
                 /\ is_Some (default ∅ (seen m' !! id) !! Utils.hashUrl (NewItem.url i)))
              items.
Proof.
  intros H.
  apply ApiFacts.scan_ok in H
    as (index & site & urls & siteSeen & m2 & Hf & Hb & _ & Hd & -> & Hs & Hse & _).
  destruct (ApiFacts.findIndex_Some _ _ _ _ Hf) as [_ Hid].
  apply ApiFacts.scanDiff_ok in Hd
    as (seen1 & newUrls & Hu & Hl & Hm & _ & _ & Hnil & Hcons).
  cbn in Hu, Hl, Hnil, Hcons. erewrite ApiFacts.fetchSitemapUrls_result in Hu.
  rewrite Hid in *.
  pose proof (scanLoop_length _ _ _ _ _ Hl) as Hlen.
  pose proof (ApiFacts.scanLoop_news _ _ _ _ _ Hl) as (_ & added & Hadd & Hun).
  cbn in Hadd, Hlen. subst added.
  rewrite <- Hm, length_map in Hlen.
  exists index, site, urls. eexists.
  split; [done|]. split; [exact Hu|]. split; [exact Hs|]. cbn.
  split; [done|]. split; [done|]. split; [done|]. split; [done|].
  assert (Hstored : default ∅ (seen m' !! id) = siteSeen
                    /\ Forall (fun i => is_Some (siteSeen !! Utils.hashUrl (NewItem.url i)))
                              items).
  { destruct items as [|i0 items0].
    - destruct (Hnil eq_refl) as (-> & Hse2 & _). cbn in Hm. subst newUrls.
      apply ApiFacts.scanLoop_nothing_new in Hl. subst seen1.
      split; [by rewrite Hse, Hse2|constructor].
    - destruct Hcons as [-> Hse2]; [done|]. rewrite Hse, Hse2, lookup_insert_eq.
      split; [done|]. apply Forall_forall. intros i Hi. by apply mergeSeen_has. }
  destruct Hstored as [Hst Hin].
  split; [by rewrite Hst|]. split; [done|]. split; [done|]. split; [done|].
  split; [done|]. split; [done|]. split; [exact Hlen|].
  rewrite Hst. apply Forall_forall. intros i Hi. split.
  - rewrite Forall_forall in Hun. apply Hun. rewrite <- Hm.
    apply list_elem_of_In, in_map. by apply list_elem_of_In.
  - rewrite Forall_forall in Hin. by apply Hin.
Qed.

Lemma scan_success_witness :
  exists index site urls summary,
    Api.findIndex "site_1" (sites Fixture.ready) = Some (index, site)
    /\ fst (SiteScanner.fetchSitemapUrls (Fixture.serving Fixture.oneNewPage)
              (Site.sitemapUrl site) Fixture.ready) = Ok urls
    /\ sites (snd (Api.scan (Fixture.serving Fixture.oneNewPage) "site_1" Fixture.ready))
       = <[index := Fixture.scannedRecord (Fixture.serving Fixture.oneNewPage)]>
           (sites Fixture.ready)
    /\ Site.status (Fixture.scannedRecord (Fixture.serving Fixture.oneNewPage)) = ok
    /\ Site.errorMessage (Fixture.scannedRecord (Fixture.serving Fixture.oneNewPage))
       = Site.errorMessage site
    /\ Site.baselineReady (Fixture.scannedRecord (Fixture.serving Fixture.oneNewPage)) = true
    /\ Site.lastNewFound (Fixture.scannedRecord (Fixture.serving Fixture.oneNewPage))
       = length (Fixture.scannedItems (Fixture.serving Fixture.oneNewPage))
    /\ Site.seenCount (Fixture.scannedRecord (Fixture.serving Fixture.oneNewPage))
       = size (default ∅
                 (seen (snd (Api.scan (Fixture.serving Fixture.oneNewPage) "site_1"
                               Fixture.ready)) !! "site_1"))
    /\ Site.lastResult (Fixture.scannedRecord (Fixture.serving Fixture.oneNewPage))
       = Some summary
    /\ ScanSummary.outcome summary = success
    /\ ScanSummary.parsedCount summary = length urls
    /\ ScanSummary.newOrInsertedCount summary
       = length (Fixture.scannedItems (Fixture.serving Fixture.oneNewPage))
    /\ ScanSummary.sampleUrls summary
       = map NewItem.url (firstn 5 (Fixture.scannedItems (Fixture.serving Fixture.oneNewPage)))
    /\ length (Fixture.scannedItems (Fixture.serving Fixture.oneNewPage)) <= length urls
    /\ Forall (fun i =>
                 Api.unseen (default ∅ (seen Fixture.ready !! "site_1"))
                            (Utils.hashUrl (NewItem.url i)) = true
                 /\ is_Some (default ∅
                               (seen (snd (Api.scan (Fixture.serving Fixture.oneNewPage)
                                             "site_1" Fixture.ready)) !! "site_1")
                             !! Utils.hashUrl (NewItem.url i)))
              (Fixture.scannedItems (Fixture.serving Fixture.oneNewPage)).
Proof.
  apply (scan_success_summary (Fixture.serving Fixture.oneNewPage) "site_1" Fixture.ready
           (snd (Api.scan (Fixture.serving Fixture.oneNewPage) "site_1" Fixture.ready))
           (Fixture.scannedRecord (Fixture.serving Fixture.oneNewPage))
           (Fixture.scannedItems (Fixture.serving Fixture.oneNewPage))).
  vm_compute. reflexivity.
Defined.
End ScanFacts.

Module RescanFacts.

Lemma baselineLoop_covers urls : forall s0 a0 l0 s1 a1 l1,
  Api.baselineLoop urls (s0, a0, l0) = Ok (s1, a1, l1) ->
  Forall (fun v => forall u, Utils.normalizeUrlOf v = Ok u -> u <> "") urls ->
  covered s1 urls.
Proof.
  induction urls as [|v urls IH]; intros s0 a0 l0 s1 a1 l1; cbn [Api.baselineLoop];
    [constructor|].
  destruct (Utils.normalizeUrlOf v) as [u|] eqn:Ev; [|done].
  intros Hl Hall. apply Forall_cons in Hall as [Hv Hall].
  destruct (Api.baselineStep (s0, a0, l0) u) as [[sa aa] la] eqn:Es.
  pose proof (ApiFacts.baselineLoop_keeps _ _ _ _ _ _ _ Hl) as Hk.
  constructor; [|by eapply IH].
  assert (exists w, sa !! Utils.hashUrl u = Some w /\ w <> "") as (w & Hw & Hne).
  { unfold Api.baselineStep in Es. destruct (Api.unseen s0 (Utils.hashUrl u)) eqn:E.
    - injection Es as <- _ _. exists u. rewrite lookup_insert_eq. split; [done|by apply Hv].
    - injection Es as <- _ _. unfold Api.unseen in E.
      destruct (s0 !! Utils.hashUrl u) as [w|]; [|done]. exists w. split; [done|].
      by destruct (String.eqb_spec w ""). }
  destruct (Hk _ _ Hw) as (w' & Hw' & E). exists u, w'. split; [done|]. split; [done|].
  by rewrite (E Hne).
Qed.

(** X25.  A scan that follows a successful baseline of the same sitemap,
    none of whose locations normalizes to the empty string, reports nothing:
    no item is returned, seen-sets and items stay as the baseline left them,
    [lastNewFound] is 0 and [seenCount] is that of the baseline. *)
Theorem scan_after_baseline_reports_nothing (p : Platform) (id : string)
    (m m1 m2 : Machine) (site1 site2 : Site.t) (items2 : list NewItem.t) :
  Api.baseline p id m = (Ok site1, m1) ->
  Api.scan p id m1 = (Ok (site2, items2), m2) ->
  (forall index site urls,
     Api.findIndex id (sites m) = Some (index, site) ->
     fst (SiteScanner.fetchSitemapUrls p (Site.sitemapUrl site) m) = Ok urls ->
     Forall (fun v => forall u, Utils.normalizeUrlOf v = Ok u -> u <> "") urls) ->
  items2 = [] /\ seen m2 = seen m1 /\ newItems m2 = newItems m
  /\ Site.lastNewFound site2 = 0 /\ Site.seenCount site2 = Site.seenCount site1.
Proof.
  intros H1 H2 Hne.
  apply BaselineFacts.baseline_cases in H1 as [Hitems [(_ & e0 & [=] & _)|Hsite]].
  destruct Hsite as (index & site & Hf & _ & Hcase).
  destruct Hcase as [(e1 & e' & [=] & _)
                    |(urls & siteSeen & added & sample & t & d & Hu & Hl & Hseen & Hend)].
  destruct Hend as [[[= ->] Hs]|([e' [=]] & _)].
  specialize (Hne index site urls Hf Hu).
  assert (Hid := proj2 (ApiFacts.findIndex_Some _ _ _ _ Hf)).
  assert (Hcov : covered (default ∅ (seen m1 !! Site.id site)) urls).
  { rewrite Hseen, lookup_insert_eq. by eapply baselineLoop_covers. }
  apply ApiFacts.scan_ok in H2
    as (index2 & site2' & urls2 & siteSeen2 & mb & Hf2 & _ & _ & Hd2 & -> & _ & Hse2 & Hn2 & _).
  rewrite Hs in Hf2. erewrite ApiFacts.findIndex_insert in Hf2; [|exact Hf|reflexivity].
  injection Hf2 as <- <-.
  apply ApiFacts.scanDiff_ok in Hd2 as (seen2 & newUrls2 & Hu2 & Hl2 & Hm2 & _ & _ & Hnil & _).
  cbn in Hu2, Hl2, Hnil. erewrite ApiFacts.fetchSitemapUrls_result in Hu2.
  rewrite Hu in Hu2. injection Hu2 as <-.
  rewrite ApiFacts.scanLoop_covered in Hl2 by done. injection Hl2 as <- <-.
  destruct items2; [|done].
  destruct (Hnil eq_refl) as (-> & Hse3 & Hn3 & _).
  split; [done|]. split; [congruence|]. split; [congruence|]. cbn.
  split; [done|]. by rewrite Hseen, lookup_insert_eq.
Qed.

Lemma scan_after_baseline_witness :
  Cases.rescannedItems = [] 
  /\ seen (snd Cases.rescan) = seen (snd Cases.firstBaseline)
  /\ newItems (snd Cases.rescan) = newItems Fixture.fresh
  /\ Site.lastNewFound Cases.rescannedRecord = 0
  /\ Site.seenCount Cases.rescannedRecord = Site.seenCount Cases.baselinedRecord.
Proof.
  apply (scan_after_baseline_reports_nothing (Fixture.serving Fixture.oneNewPage) "site_1"
           Fixture.fresh (snd Cases.firstBaseline) (snd Cases.rescan)
           Cases.baselinedRecord Cases.rescannedRecord Cases.rescannedItems).
  - vm_compute. reflexivity.
  - vm_compute. reflexivity.
  - intros index site urls [= <- <-] Hu. vm_compute in Hu. injection Hu as <-.
    repeat constructor; intros u Hv; vm_compute in Hv; injection Hv as <-; discriminate.
Defined.

(** X26, the instance used as witness of the lemma on repeated scans: the
    second of two scans of an unchanged sitemap, none of whose locations
    normalizes to the empty string, returns no item. *)
Lemma repeated_scan_witness :
  Api.scan (Fixture.serving Fixture.oneNewPage) "site_1"
    (snd (Api.scan (Fixture.serving Fixture.oneNewPage) "site_1" Fixture.ready))
  = (Ok (Cases.scannedAgainRecord, Cases.scannedAgainItems), snd Cases.scanAgain)
  /\ Cases.scannedAgainItems = [].
Proof.
  assert (H2 : Api.scan (Fixture.serving Fixture.oneNewPage) "site_1"
                 (snd (Api.scan (Fixture.serving Fixture.oneNewPage) "site_1" Fixture.ready))
               = (Ok (Cases.scannedAgainRecord, Cases.scannedAgainItems),
                  snd Cases.scanAgain)) by (vm_compute; reflexivity).
  split; [exact H2|].
  apply (ApiFacts.repeated_scan_reports_nothing (Fixture.serving Fixture.oneNewPage) "site_1"
           Fixture.ready (Fixture.scannedRecord (Fixture.serving Fixture.oneNewPage))
           (Fixture.scannedItems (Fixture.serving Fixture.oneNewPage))
           (snd (Api.scan (Fixture.serving Fixture.oneNewPage) "site_1" Fixture.ready))
           Cases.scannedAgainRecord Cases.scannedAgainItems (snd Cases.scanAgain)).
  - vm_compute. reflexivity.
  - exact H2.
  - intros index site urls [= <- <-] Hu. vm_compute in Hu. injection Hu as <-.
    repeat constructor; intros u Hv; vm_compute in Hv; injection Hv as <-; discriminate.
Defined.
End RescanFacts.

(** ** The server's [fetchSitemapUrls] *)

Module ServerScannerFacts.

(** X27.  The two versions of [fetchSitemapUrls] agree: when [axios.get]
    and [fetch] deliver the same answer for the sitemap, with a status from
    200 to 299 if there is a response, the extension's version returns the
    locations, or throws the error, that the server's does. *)
Theorem fetchSitemapUrls_agree (p : Platform) (sitemapUrl : string) (m : Machine) :
  axiosGet p false 15000 sitemapUrl = fetch p sitemapUrl ->
  (forall code text, fetch p sitemapUrl = Ok (code, text) -> (200 <= code <= 299)%Z) ->
  fst (SiteScanner.fetchSitemapUrls p sitemapUrl m)
  = ServerScanner.fetchSitemapUrls p sitemapUrl.
Proof.
  intros Hsame Hcode.
  unfold SiteScanner.fetchSitemapUrls, ServerScanner.fetchSitemapUrls, bind,
    SiteScanner.fetchDirect, lift, throw, ret.
  rewrite Hsame.
  destruct (fetch p sitemapUrl) as [[code text]|msg] eqn:Ef; [|reflexivity].
  specialize (Hcode code text eq_refl).
  replace ((200 <=? code)%Z && (code <=? 299)%Z) with true by (symmetry; lia).
  cbn [negb].
  destruct (xmlParse p text) as [x|]; [|reflexivity].
  destruct (Js.prop "urlset" x) as [us|]; [|reflexivity].
  destruct (Js.truthy us); cbn [negb]; [|reflexivity].
  destruct (Js.prop "url" us) as [v|]; [|reflexivity].
  destruct v as [|b|n|s|xs|fs]; cbn [Js.truthy fst].
  - reflexivity.
  - destruct b; [|reflexivity]. cbn. reflexivity.
  - destruct (negb _); [|reflexivity]. cbn. reflexivity.
  - destruct (negb _); [|reflexivity]. cbn. reflexivity.
  - destruct (SiteScanner.locs xs); reflexivity.
  - destruct (Js.prop "loc" _) as [loc|]; [|reflexivity].
    destruct (Js.truthy loc); reflexivity.
Qed.

Lemma fetchSitemapUrls_agree_witness :
  fst (SiteScanner.fetchSitemapUrls (Fixture.serving Fixture.oneNewPage)
         "https://x.com/sitemap.xml" Fixture.fresh)
  = ServerScanner.fetchSitemapUrls (Fixture.serving Fixture.oneNewPage)
      "https://x.com/sitemap.xml".
Proof.
  apply (fetchSitemapUrls_agree (Fixture.serving Fixture.oneNewPage)
           "https://x.com/sitemap.xml" Fixture.fresh).
  - reflexivity.
  - intros code text H. vm_compute in H. injection H as <- _. lia.
Defined.
End ServerScannerFacts.

(** ** The server's [discoverSitemap] behind axios *)

Module AxiosFacts.

(** X28.  The sitemap request of the server's [discoverSitemap] does not
    pass [validateStatus], so axios rejects an answer whose status is
    outside 200 to 299: the answer is an exception for [discoverSitemap],
    which reports [failed] with "Request failed with status code {code}",
    never with "HTTP {code}". *)
Theorem rejected_status_is_an_exception (p : Platform) (domain : string)
    (code : Z) (data : string) :
  let target := Scanner.targetSitemapUrl p domain in
  let d := Scanner.discoverSitemap p domain in
  axiosGet p false 10000 target = Axios.settle false (Ok (code, data)) ->
  Axios.validStatus code = false ->
  Scanner.url d = target
  /\ Scanner.status d = failed
  /\ Scanner.error d = Some ("Request failed with status code " +:+ showZ code)
  /\ Scanner.error d <> Some ("HTTP " +:+ showZ code).
Proof.
  intros target d Hanswer Hcode. subst d target.
  split; [apply ScannerFacts.discoverSitemap_url|].
  assert (Hd : Scanner.discoverSitemap p domain
               = Scanner.caught (Scanner.targetSitemapUrl p domain)
                   (Axios.statusError code)).
  { unfold Scanner.discoverSitemap, Scanner.validateSitemap.
    rewrite Hanswer. unfold Axios.settle. rewrite Hcode. reflexivity. }
  rewrite Hd. unfold Scanner.caught, Scanner.messageOr, Axios.statusError.
  cbn [Scanner.status Scanner.error].
  change (String.eqb ("Request failed with status code " +:+ showZ code) "") with false.
  cbn iota. split; [done|]. split; [done|]. intros E. discriminate E.
Qed.

Lemma rejected_status_witness :
  Scanner.url (Scanner.discoverSitemap Cases.notFound "example.com")
  = Scanner.targetSitemapUrl Cases.notFound "example.com"
  /\ Scanner.status (Scanner.discoverSitemap Cases.notFound "example.com") = failed
  /\ Scanner.error (Scanner.discoverSitemap Cases.notFound "example.com")
     = Some ("Request failed with status code " +:+ showZ 404)
  /\ Scanner.error (Scanner.discoverSitemap Cases.notFound "example.com")
     <> Some ("HTTP " +:+ showZ 404).
Proof.
  apply (rejected_status_is_an_exception Cases.notFound "example.com" 404 "Not Found").
  - reflexivity.
  - reflexivity.
Defined.
End AxiosFacts.
